(** * Sprint analysis engine of the Scrum Master agent: model and properties

    A shallow embedding of the board normaliser
    ([src/agents/data_collection_agent.py]), of the metric functions
    ([src/utils/data_utils.py]) and of the risk and recommendation engine
    ([src/agents/analysis_agent.py]), and, around them, of the board fetcher
    ([src/tools/trello_tools.py]), of the error branch of the report and of
    the template filling ([src/agents/reporting_agent.py],
    [src/utils/formatting_utils.py]) and of the board model
    ([src/models/report_models.py]).

    Modelling conventions.
    - A JSON object read with [d.get(key)] is a record whose fields are
      options: [None] stands for an absent key (for the scalar fields read
      with a plain [.get], also for a key holding Python's [None], which the
      code cannot tell apart).  One record type serves the raw and the
      normalised card, as one [dict] does in the source.
    - The values have the types the board gives them: ids, names and texts
      are strings, labels, actions and member ids are lists, a list and a
      member have an id, a comment action has a text.  On such data no
      statement raises an exception other than the date parsing and the date
      comparison, which the source catches card by card; the handlers that
      turn any other exception into a result of defaults are therefore never
      entered, and are left out.
    - A [dict] that is used as a map is an association list in insertion
      order, the order Python iterates it in.
    - Text is a [string], one [ascii] for each character: the model covers
      text of the ASCII range, on which [str.lower] acts on the letters A to
      Z.
    - Counts are [nat]; the results of [/] are exact rationals ([Q]).  The
      source computes them in binary floating point and compares them with
      counts; the two decide alike on the counts of a board (compared for
      all counts up to 400).
    - A formatted string with a number in it is kept as its text and the
      number.
    - [datetime.now()] reads a clock: the readings of one run are given by a
      function from the number of the reading, and the functions that read
      the clock thread that number.  [datetime.fromisoformat] is a parameter
      of the development; the examples instantiate it.
    - The environment, the HTTP fetchers, the file read and the part of the
      report behind its error check are parameters of the sections that use
      them: a fetcher returns its data or raises, a file read gives the
      content or the text of the exception. *)

From Stdlib Require Import Bool Arith ZArith QArith Lia List Ascii String.
From Stdlib Require Import Permutation Sorted.
Import ListNotations.

Local Open Scope string_scope.

(** ** Python's built-in operations *)

Module Py.

Definition is_upper (c : ascii) : bool :=
  (65 <=? nat_of_ascii c)%nat && (nat_of_ascii c <=? 90)%nat.

Definition lower_char (c : ascii) : ascii :=
  if is_upper c then ascii_of_nat (nat_of_ascii c + 32) else c.

(** [s.lower()] *)
Fixpoint lower (s : string) : string :=
  match s with
  | EmptyString => EmptyString
  | String c t => String (lower_char c) (lower t)
  end.

(** [needle in hay] on strings *)
Fixpoint str_in (needle hay : string) : bool :=
  if prefix needle hay then true
  else match hay with
       | EmptyString => false
       | String _ t => str_in needle t
       end.

(** [s[:n]] *)
Fixpoint slice_to (n : nat) (s : string) : string :=
  match n, s with
  | S k, String c t => String c (slice_to k t)
  | _, _ => EmptyString
  end.

(** [s.replace(c, by)] for a one-character pattern *)
Fixpoint replace_char (c : ascii) (by_ : string) (s : string) : string :=
  match s with
  | EmptyString => EmptyString
  | String a t =>
      if Ascii.eqb a c then by_ ++ replace_char c by_ t
      else String a (replace_char c by_ t)
  end.

(** Truth value of a string, and of the result of [d.get(key)] when the key
    holds a string. *)
Definition truthy (s : string) : bool := negb (s =? "").

Definition truthy_opt (o : option string) : bool :=
  match o with
  | Some s => truthy s
  | None => false
  end.

(** [d.get(key, default)] on a modelled key *)
Definition get {A : Type} (o : option A) (default : A) : A :=
  match o with
  | Some a => a
  | None => default
  end.

(** [d.get(key) == s] *)
Definition get_eq (o : option string) (s : string) : bool :=
  match o with
  | Some a => a =? s
  | None => false
  end.

(** [key in d] on a modelled key *)
Definition has_key {A : Type} (o : option A) : bool :=
  match o with
  | Some _ => true
  | None => false
  end.

(** A [dict] with string keys, in insertion order. *)
Definition dict (V : Type) : Type := list (string * V).

Fixpoint dict_get {V : Type} (d : dict V) (k : string) : option V :=
  match d with
  | [] => None
  | (k', v) :: r => if k' =? k then Some v else dict_get r k
  end.

Definition dict_mem {V : Type} (d : dict V) (k : string) : bool :=
  has_key (dict_get d k).

(** [d[k] = v]: an existing key keeps its place, a new one goes last. *)
Fixpoint dict_set {V : Type} (d : dict V) (k : string) (v : V) : dict V :=
  match d with
  | [] => [(k, v)]
  | (k', v') :: r =>
      if k' =? k then (k', v) :: r else (k', v') :: dict_set r k v
  end.

Definition dict_keys {V : Type} (d : dict V) : list string := map fst d.
Definition dict_values {V : Type} (d : dict V) : list V := map snd d.

(** [{key(x): val(x) for x in xs}] *)
Definition dict_of {A V : Type} (key : A -> string) (val : A -> V)
    (xs : list A) : dict V :=
  fold_left (fun d x => dict_set d (key x) (val x)) xs [].

(** [sum(ns)] *)
Definition sum (ns : list nat) : nat := fold_left Nat.add ns 0%nat.

(** A count as a number that [/] and [*] act on. *)
Definition num (n : nat) : Q := inject_Z (Z.of_nat n).

Definition Qlt_bool (x y : Q) : bool := negb (Qle_bool y x).

(** [sorted(xs, key=key)]: stable, ascending. *)
Fixpoint insert_by {A : Type} (key : A -> Q) (x : A) (l : list A) : list A :=
  match l with
  | [] => [x]
  | y :: r =>
      if Qlt_bool (key x) (key y) then x :: y :: r
      else y :: insert_by key x r
  end.

Definition sorted {A : Type} (key : A -> Q) (xs : list A) : list A :=
  fold_left (fun acc x => insert_by key x acc) xs [].

End Py.

Import Py.

(** ** Data model: the JSON objects of the board *)

(** A label of a card: [{color, name}]. *)
Record label : Type := mkLabel {
  label_color : option string;
  label_name : option string
}.

(** An action record embedded in a raw card. *)
Record action : Type := mkAction {
  action_type : string;
  action_id : string;
  action_data_text : string;
  action_date : string;
  action_memberCreator : option (dict string)
}.

(** A comment, as extracted from a comment action. *)
Record comment : Type := mkComment {
  comment_id : string;
  comment_text : string;
  comment_date : string;
  comment_memberCreator : dict string
}.

(** A member of the board. *)
Record member : Type := mkMember {
  member_id : string;
  member_fullName : option string;
  member_username : option string
}.

(** A member as attached to a normalised card: [{id, name}]. *)
Record card_member : Type := mkCardMember {
  cm_id : string;
  cm_name : string
}.

Record attachment : Type := mkAttachment {
  attachment_name : string;
  attachment_url : string;
  attachment_date : string
}.

(** A list (column) of the board. *)
Record trello_list : Type := mkList {
  list_id : string;
  list_name : string;
  list_pos : option Q;
  list_closed : bool
}.

(** A card dictionary, raw or normalised.  The field is the key. *)
Record card : Type := mkCard {
  card_id : option string;
  card_name : option string;
  card_desc : option string;
  card_url : option string;
  card_idList : option string;
  card_listName : option string;
  card_due : option string;
  card_dueComplete : option bool;
  card_dateLastActivity : option string;
  card_labels : option (list label);
  card_idMembers : option (list string);
  card_members : option (list card_member);
  card_comments : option (list comment);
  card_actions : option (list action);
  card_attachments : option (list attachment);
  card_isComplete : option bool;
  card_isBlocker : option bool;
  card_blockerReason : option string
}.

(** The snapshot dictionary handed from stage to stage:
    [{board_id, cards, lists, members, timestamp, status | error}], and
    [cards_by_list] once normalised. *)
Record board : Type := mkBoard {
  board_error : option string;
  board_board_id : option string;
  board_cards : option (list card);
  board_lists : option (list trello_list);
  board_members : option (list member);
  board_cards_by_list : option (dict (list card));
  board_timestamp : option Q;
  board_status : option string
}.

(** [{"error": msg}] *)
Definition error_board (msg : string) : board :=
  mkBoard (Some msg) None None None None None None None.

(** [not board_data]: the dictionary has no key at all. *)
Definition board_is_empty (b : board) : bool :=
  negb (has_key (board_error b) || has_key (board_board_id b)
        || has_key (board_cards b) || has_key (board_lists b)
        || has_key (board_members b) || has_key (board_cards_by_list b)
        || has_key (board_timestamp b) || has_key (board_status b)).

(** [member.get("fullName", member.get("username", "Unknown"))] *)
Definition display_name (m : member) : string :=
  get (member_fullName m) (get (member_username m) "Unknown").

(** ** The board normaliser ([DataCollectionAgent]) *)

Module DataCollection.

(** The list name of a card: [list_map[list_id]["name"]], or ["Unknown"]. *)
Definition resolve_list_name (list_id : option string)
    (list_map : dict trello_list) : string :=
  match list_id with
  | Some i =>
      if truthy i then
        match dict_get list_map i with
        | Some l => list_name l
        | None => "Unknown"
        end
      else "Unknown"
  | None => "Unknown"
  end.

(** The loop over [card.get("idMembers", [])]. *)
Fixpoint process_members (ids : list string) (member_map : dict member)
    : list card_member :=
  match ids with
  | [] => []
  | i :: r =>
      match dict_get member_map i with
      | Some m =>
          mkCardMember i (display_name m) :: process_members r member_map
      | None => process_members r member_map
      end
  end.

(** The loop over [card["actions"]]. *)
Fixpoint extract_comments (actions : list action) : list comment :=
  match actions with
  | [] => []
  | a :: r =>
      if action_type a =? "commentCard" then
        mkComment (action_id a) (action_data_text a) (action_date a)
                  (get (action_memberCreator a) [])
        :: extract_comments r
      else extract_comments r
  end.

(** The state of the blocker check: [(is_blocker, blocker_reason)]. *)
Definition blocker_state : Type := (bool * option string)%type.

(** The loop over the labels, left at the first red one. *)
Fixpoint scan_labels (labels : list label) (st : blocker_state)
    : blocker_state :=
  match labels with
  | [] => st
  | l :: r =>
      if get_eq (label_color l) "red" then
        (true, Some ("Red label: " ++ get (label_name l) "Blocker"))
      else scan_labels r st
  end.

(** The loop over the comments, left at the first that mentions a blocker. *)
Fixpoint scan_comments (comments : list comment) (st : blocker_state)
    : blocker_state :=
  match comments with
  | [] => st
  | c :: r =>
      if str_in "blocker" (lower (comment_text c)) then
        (true,
         Some ("Blocker mentioned in comment: "
               ++ slice_to 50 (comment_text c) ++ "..."))
      else scan_comments r st
  end.

Definition _process_card (c : card) (list_map : dict trello_list)
    (member_map : dict member) : card :=
  let list_id := card_idList c in
  let list_name := resolve_list_name list_id list_map in
  let members := process_members (get (card_idMembers c) []) member_map in
  let comments :=
    match card_actions c with
    | Some actions => extract_comments actions
    | None => []
    end in
  let st := scan_labels (get (card_labels c) []) (false, None) in
  let st := if negb (fst st) then scan_comments comments st else st in
  {| card_id := card_id c;
     card_name := card_name c;
     card_desc := card_desc c;
     card_url := card_url c;
     card_idList := list_id;
     card_listName := Some list_name;
     card_due := card_due c;
     card_dueComplete := Some (get (card_dueComplete c) false);
     card_dateLastActivity := card_dateLastActivity c;
     card_labels := Some (get (card_labels c) []);
     card_idMembers := None;
     card_members := Some members;
     card_comments := Some comments;
     card_actions := None;
     card_attachments := Some (get (card_attachments c) []);
     card_isComplete := Some (list_name =? "Done");
     card_isBlocker := Some (fst st);
     card_blockerReason := snd st |}.

(** The grouping loop: a card goes to the entry of its list name, when the
    name is a key. *)
Fixpoint group_cards (cards : list card) (cards_by_list : dict (list card))
    : dict (list card) :=
  match cards with
  | [] => cards_by_list
  | c :: r =>
      let list_name := get (card_listName c) "Unknown" in
      match dict_get cards_by_list list_name with
      | Some cs =>
          group_cards r (dict_set cards_by_list list_name (cs ++ [c])%list)
      | None => group_cards r cards_by_list
      end
  end.

Definition process_trello_data (board_data : board) : board :=
  if board_is_empty board_data || has_key (board_error board_data) then
    let error_msg :=
      get (board_error board_data) "Unknown error retrieving board data" in
    error_board error_msg
  else
    let cards := get (board_cards board_data) [] in
    let lists := get (board_lists board_data) [] in
    let members := get (board_members board_data) [] in
    let list_map := dict_of list_id (fun l => l) lists in
    let member_map := dict_of member_id (fun m => m) members in
    let processed_cards :=
      map (fun c => _process_card c list_map member_map) cards in
    let cards_by_list :=
      fold_left (fun d l => dict_set d (list_name l) []) lists [] in
    let cards_by_list := group_cards processed_cards cards_by_list in
    let sorted_lists := sorted (fun l => get (list_pos l) 0%Q) lists in
    {| board_error := None;
       board_board_id := board_board_id board_data;
       board_cards := Some processed_cards;
       board_lists := Some sorted_lists;
       board_members := Some members;
       board_cards_by_list := Some cards_by_list;
       board_timestamp := board_timestamp board_data;
       board_status := None |}.

End DataCollection.

(** ** Dates and the clock *)

(** A [datetime]: without time zone (as [datetime.now()] returns it) or with
    one.  The number is the instant in microseconds. *)
Inductive datetime : Type :=
| Naive (t : Z)
| Aware (t : Z).

(** [a < b] and [a <= b]: [None] is the [TypeError] Python raises when one
    side carries a time zone and the other does not. *)
Definition dt_lt (a b : datetime) : option bool :=
  match a, b with
  | Naive x, Naive y => Some (x <? y)%Z
  | Aware x, Aware y => Some (x <? y)%Z
  | _, _ => None
  end.

Definition dt_le (a b : datetime) : option bool :=
  match a, b with
  | Naive x, Naive y => Some (x <=? y)%Z
  | Aware x, Aware y => Some (x <=? y)%Z
  | _, _ => None
  end.

Definition microseconds_per_day : Z := 86400 * 1000000.

(** [d + timedelta(days=n)] *)
Definition add_days (d : datetime) (n : Z) : datetime :=
  match d with
  | Naive t => Naive (t + n * microseconds_per_day)
  | Aware t => Aware (t + n * microseconds_per_day)
  end.

(** A computation that reads the clock: from the number of readings made so
    far to a result and the number made after it. *)
Definition M (A : Type) : Type := nat -> A * nat.

Definition ret {A : Type} (a : A) : M A := fun k => (a, k).

Definition bind {A B : Type} (m : M A) (f : A -> M B) : M B :=
  fun k => let (a, k') := m k in f a k'.

Notation "x <- m ;; f" := (bind m (fun x => f))
  (at level 61, m at next level, right associativity).

(** The loop [for x in xs] over a body that may read the clock. *)
Fixpoint for_each {A S : Type} (xs : list A) (body : A -> S -> M S) (s : S)
    : M S :=
  match xs with
  | [] => ret s
  | x :: r => s' <- body x s ;; for_each r body s'
  end.

(** ** The metric functions ([data_utils]) *)

Module DataUtils.

(** An entry of the [blockers] list. *)
Record blocker_entry : Type := mkBlockerEntry {
  be_id : option string;
  be_name : option string;
  be_url : option string;
  be_list : string
}.

(** An entry of [approaching_deadlines] and of [overdue_cards]. *)
Record due_entry : Type := mkDueEntry {
  de_id : option string;
  de_name : option string;
  de_due : string;
  de_list : string
}.

Record sprint_metrics : Type := mkSprintMetrics {
  sm_total_cards : nat;
  sm_cards_by_list : dict nat;
  sm_completion_rate : Q;
  sm_blockers : list blocker_entry;
  sm_approaching_deadlines : list due_entry;
  sm_overdue_cards : list due_entry;
  sm_blockers_count : nat;
  sm_approaching_deadlines_count : nat;
  sm_overdue_count : nat
}.

(** An entry of a member's [cards] list. *)
Record assigned_card : Type := mkAssignedCard {
  ac_id : option string;
  ac_name : option string;
  ac_due : option string;
  ac_listName : string
}.

(** The statistics of one member; [completion_rate] is set by a later loop. *)
Record member_stats : Type := mkMemberStats {
  ms_total : nat;
  ms_completed : nat;
  ms_overdue : nat;
  ms_cards : list assigned_card;
  ms_completion_rate : option Q
}.

Record workload_entry : Type := mkWorkloadEntry {
  we_name : string;
  we_cards_count : nat;
  we_avg_ratio : Q
}.

Record team_performance : Type := mkTeamPerformance {
  tp_cards_by_member : dict member_stats;
  tp_avg_cards_per_member : Q;
  tp_members_with_high_workload : list workload_entry;
  tp_member_count : nat
}.

Record bottleneck : Type := mkBottleneck {
  bn_list_name : string;
  bn_card_count : nat;
  bn_ratio_to_avg : Q
}.

Record process_bottlenecks : Type := mkProcessBottlenecks {
  pb_cards_by_list : dict nat;
  pb_avg_cards_per_list : Q;
  pb_bottlenecks : list bottleneck
}.

(** The counting loop shared by the metrics and the bottleneck detector:
    [list_map] gives the name of a list id. *)
Fixpoint count_cards (cards : list card) (list_map : dict string)
    (cards_by_list : dict nat) : dict nat :=
  match cards with
  | [] => cards_by_list
  | c :: r =>
      match card_idList c with
      | Some i =>
          if truthy i then
            match dict_get list_map i with
            | Some list_name =>
                count_cards r list_map
                  (dict_set cards_by_list list_name
                     (get (dict_get cards_by_list list_name) 0 + 1)%nat)
            | None => count_cards r list_map cards_by_list
            end
          else count_cards r list_map cards_by_list
      | None => count_cards r list_map cards_by_list
      end
  end.

(** [list_map.get(card.get("idList"), "Unknown")] *)
Definition list_of_card (list_map : dict string) (c : card) : string :=
  match card_idList c with
  | Some i => get (dict_get list_map i) "Unknown"
  | None => "Unknown"
  end.

(** The blocker test of the metrics: a red label, else a comment that
    mentions a blocker. *)
Definition is_blocker (c : card) : bool :=
  let is_blocker :=
    existsb (fun l => get_eq (label_color l) "red") (get (card_labels c) []) in
  if negb is_blocker then
    existsb (fun cm => str_in "blocker" (lower (comment_text cm)))
            (get (card_comments c) [])
  else is_blocker.

Definition due_entry_of (list_map : dict string) (c : card) (due : string)
    : due_entry :=
  mkDueEntry (card_id c) (card_name c) due (list_of_card list_map c).

Section Environment.

(** [datetime.fromisoformat]: [None] is its [ValueError]. *)
Variable fromisoformat : string -> option datetime.

(** The clock: the reading [datetime.now()] returns when it is the [k]-th
    reading of the run. *)
Variable clock : nat -> Z.

Definition datetime_now : M datetime := fun k => (Naive (clock k), S k).

(** The parsed due date of a card, when it has one that parses. *)
Definition parse_due (due_date_str : string) : option datetime :=
  fromisoformat (replace_char "Z" "+00:00" due_date_str).

(** The test of the approaching-deadline loop; an exception of the
    comparison is caught with the parse errors, and the card is skipped. *)
Definition is_approaching (now three_days_from_now : datetime) (c : card)
    (due_date : datetime) : bool :=
  match dt_lt now due_date with
  | Some true =>
      match dt_le due_date three_days_from_now with
      | Some true => negb (get (card_dueComplete c) false)
      | _ => false
      end
  | _ => false
  end.

(** The test of the overdue loop. *)
Definition is_overdue (now : datetime) (c : card) (due_date : datetime)
    : bool :=
  match dt_lt due_date now with
  | Some true => negb (get (card_dueComplete c) false)
  | _ => false
  end.

(** The two loops over the due dates: the cards whose due date is set,
    parses and passes [test]. *)
Fixpoint due_cards (test : card -> datetime -> bool) (list_map : dict string)
    (cards : list card) : list due_entry :=
  match cards with
  | [] => []
  | c :: r =>
      match card_due c with
      | Some due_date_str =>
          if truthy due_date_str then
            match parse_due due_date_str with
            | Some due_date =>
                if test c due_date then
                  due_entry_of list_map c due_date_str
                  :: due_cards test list_map r
                else due_cards test list_map r
            | None => due_cards test list_map r
            end
          else due_cards test list_map r
      | None => due_cards test list_map r
      end
  end.

Definition calculate_sprint_metrics (cards : list card)
    (lists : list trello_list) : M sprint_metrics :=
  let list_map := dict_of list_id list_name lists in
  let cards_by_list :=
    fold_left (fun d l => dict_set d (list_name l) 0%nat) lists [] in
  let cards_by_list := count_cards cards list_map cards_by_list in
  let total_cards := List.length cards in
  let completed_cards := get (dict_get cards_by_list "Done") 0%nat in
  let completion_rate :=
    if (0 <? total_cards)%nat
    then (num completed_cards / num total_cards) * 100
    else 0 in
  let blockers :=
    map (fun c => mkBlockerEntry (card_id c) (card_name c) (card_url c)
                    (list_of_card list_map c))
        (filter is_blocker cards) in
  now <- datetime_now ;;
  let three_days_from_now := add_days now 3 in
  let approaching_deadlines :=
    due_cards (is_approaching now three_days_from_now) list_map cards in
  let overdue_cards := due_cards (is_overdue now) list_map cards in
  ret {| sm_total_cards := total_cards;
         sm_cards_by_list := cards_by_list;
         sm_completion_rate := completion_rate;
         sm_blockers := blockers;
         sm_approaching_deadlines := approaching_deadlines;
         sm_overdue_cards := overdue_cards;
         sm_blockers_count := List.length blockers;
         sm_approaching_deadlines_count := List.length approaching_deadlines;
         sm_overdue_count := List.length overdue_cards |}.

(** The statistics a member starts with. *)
Definition new_stats : member_stats := mkMemberStats 0 0 0 [] None.

(** The overdue check of one assignment: the clock is read when the due date
    parsed; an exception of the comparison is passed over. *)
Definition overdue_check (c : card) : M bool :=
  match card_due c with
  | Some due_date_str =>
      if truthy due_date_str then
        match parse_due due_date_str with
        | Some due_date =>
            now <- datetime_now ;;
            ret (is_overdue now c due_date)
        | None => ret false
        end
      else ret false
  | None => ret false
  end.

(** The body of the inner loop: one member id of one card. *)
Definition assign (member_map : dict string) (c : card) (member_id : string)
    (cards_by_member : dict member_stats) : M (dict member_stats) :=
  let member_name := get (dict_get member_map member_id) "Unknown" in
  let cards_by_member :=
    if dict_mem cards_by_member member_name then cards_by_member
    else dict_set cards_by_member member_name new_stats in
  let stats := get (dict_get cards_by_member member_name) new_stats in
  let stats :=
    mkMemberStats (ms_total stats + 1) (ms_completed stats) (ms_overdue stats)
      (ms_cards stats
       ++ [mkAssignedCard (card_id c) (card_name c) (card_due c)
             (get (card_listName c) "Unknown")])%list
      (ms_completion_rate stats) in
  let stats :=
    if get_eq (card_listName c) "Done"
    then mkMemberStats (ms_total stats) (ms_completed stats + 1)
           (ms_overdue stats) (ms_cards stats) (ms_completion_rate stats)
    else stats in
  overdue <- overdue_check c ;;
  let stats :=
    if overdue
    then mkMemberStats (ms_total stats) (ms_completed stats)
           (ms_overdue stats + 1) (ms_cards stats) (ms_completion_rate stats)
    else stats in
  ret (dict_set cards_by_member member_name stats).

(** The loop that sets [completion_rate] in every entry. *)
Definition with_completion_rate (stats : member_stats) : member_stats :=
  let total := ms_total stats in
  let completed := ms_completed stats in
  mkMemberStats total completed (ms_overdue stats) (ms_cards stats)
    (Some (if (0 <? total)%nat then (num completed / num total) * 100 else 0)).

Definition analyze_team_performance (cards : list card)
    (members : list member) : M team_performance :=
  let member_map := dict_of member_id display_name members in
  cards_by_member <-
    for_each cards
      (fun c => for_each (get (card_idMembers c) []) (assign member_map c))
      [] ;;
  let cards_by_member :=
    map (fun kv => (fst kv, with_completion_rate (snd kv))) cards_by_member in
  let total_assignments := sum (map ms_total (dict_values cards_by_member)) in
  let avg_assignments :=
    match cards_by_member with
    | [] => 0
    | _ => num total_assignments / num (List.length cards_by_member)
    end in
  let high_workload_threshold := avg_assignments * 1.5 in
  let members_with_high_workload :=
    map (fun kv =>
           mkWorkloadEntry (fst kv) (ms_total (snd kv))
             (if Qlt_bool 0 avg_assignments
              then num (ms_total (snd kv)) / avg_assignments else 0))
        (filter (fun kv => Qlt_bool high_workload_threshold
                             (num (ms_total (snd kv))))
                cards_by_member) in
  ret {| tp_cards_by_member := cards_by_member;
         tp_avg_cards_per_member := avg_assignments;
         tp_members_with_high_workload := members_with_high_workload;
         tp_member_count := List.length cards_by_member |}.

End Environment.

Definition identify_process_bottlenecks (cards : list card)
    (lists : list trello_list) : process_bottlenecks :=
  let list_map :=
    dict_of list_id (fun l => (list_name l, get (list_pos l) 0)) lists in
  let sorted_lists := sorted (fun l => get (list_pos l) 0) lists in
  let list_order := map list_id sorted_lists in
  let cards_by_list :=
    fold_left (fun d kv => dict_set d (fst (snd kv)) 0%nat) list_map [] in
  let cards_by_list :=
    count_cards cards (map (fun kv => (fst kv, fst (snd kv))) list_map)
      cards_by_list in
  let avg_cards_per_list :=
    match cards_by_list with
    | [] => 0
    | _ =>
        num (sum (dict_values cards_by_list))
        / num (List.length cards_by_list)
    end in
  let bottlenecks :=
    map (fun kv =>
           mkBottleneck (fst kv) (snd kv)
             (if Qlt_bool 0 avg_cards_per_list
              then num (snd kv) / avg_cards_per_list else 0))
        (filter (fun kv => Qlt_bool (avg_cards_per_list * 1.5) (num (snd kv)))
                cards_by_list) in
  {| pb_cards_by_list := cards_by_list;
     pb_avg_cards_per_list := avg_cards_per_list;
     pb_bottlenecks := bottlenecks |}.

End DataUtils.

(** ** The analysis agent ([AnalysisAgent]) *)

Module Analysis.

Import DataUtils.

(** [projected_completion]: a number, or a text when there is none. *)
Inductive projection : Type :=
| Estimate (days : Q)
| Text (s : string).

(** A point of a burn-down line: [{day, ideal}] or [{day, actual}]. *)
Record burn_point : Type := mkBurnPoint {
  bp_day : nat;
  bp_points : Q
}.

Record burn_down : Type := mkBurnDown {
  bd_total_points : nat;
  bd_completed_points : nat;
  bd_remaining_points : Z;
  bd_ideal_burn_down : list burn_point;
  bd_actual_burn_down : list burn_point;
  bd_projected_completion : projection
}.

Record current_sprint : Type := mkCurrentSprint {
  cs_total_points : nat;
  cs_completed_points : nat;
  cs_completion_percentage : Q
}.

Record velocity : Type := mkVelocity {
  v_current_sprint : current_sprint;
  v_historical : list (string * Z)
}.

(** A risk.  The description is a formatted string: its text and the number
    formatted into it. *)
Record risk : Type := mkRisk {
  risk_category : string;
  risk_severity : string;
  risk_description : string * Q;
  risk_impact : string
}.

Record recommendation : Type := mkRecommendation {
  rec_category : string;
  rec_priority : string;
  rec_description : string;
  rec_action_items : list string
}.

Record analysis_results : Type := mkAnalysisResults {
  ar_timestamp : datetime;
  ar_sprint_metrics : sprint_metrics;
  ar_team_performance : team_performance;
  ar_process_bottlenecks : process_bottlenecks;
  ar_burn_down : burn_down;
  ar_velocity : velocity;
  ar_risks : list risk;
  ar_recommendations : list recommendation;
  ar_sprint_end_date : option string;
  ar_days_remaining : option Z
}.

(** What [analyze_sprint_data] returns: the dictionary [{"error": msg}], or
    the dictionary of the results. *)
Inductive analysis_output : Type :=
| ErrorOnly (msg : string)
| Results (r : analysis_results).

(** [sum(1 for card in cards if card.get("isComplete", False))] *)
Definition count_complete (cards : list card) : nat :=
  List.length (filter (fun c => get (card_isComplete c) false) cards).

Definition _calculate_burn_down (cards : list card)
    (lists : list trello_list) : burn_down :=
  let total_points := List.length cards in
  let completed_points := count_complete cards in
  let remaining_points :=
    (Z.of_nat total_points - Z.of_nat completed_points)%Z in
  let ideal_burn_down :=
    map (fun day =>
           mkBurnPoint day
             (num total_points - (num total_points * num day / 10)))
        (seq 0 11) in
  let completion_rate :=
    if (0 <? total_points)%nat
    then num completed_points / num total_points else 0 in
  let estimated_day := 5%nat in
  let actual_burn_down :=
    map (fun day =>
           mkBurnPoint day
             (num total_points
              - (num completed_points * num day / num estimated_day)))
        (seq 0 (estimated_day + 1)) in
  {| bd_total_points := total_points;
     bd_completed_points := completed_points;
     bd_remaining_points := remaining_points;
     bd_ideal_burn_down := ideal_burn_down;
     bd_actual_burn_down := actual_burn_down;
     bd_projected_completion :=
       if Qlt_bool 0 completion_rate
       then Estimate (inject_Z remaining_points / completion_rate)
       else Text "Cannot estimate" |}.

Definition _calculate_velocity (cards : list card) : velocity :=
  let total_story_points := List.length cards in
  let completed_story_points := count_complete cards in
  {| v_current_sprint :=
       {| cs_total_points := total_story_points;
          cs_completed_points := completed_story_points;
          cs_completion_percentage :=
            if (0 <? total_story_points)%nat
            then num completed_story_points / num total_story_points * 100
            else 0 |};
     v_historical :=
       [("Sprint -1", Z.of_nat completed_story_points - 2);
        ("Sprint -2", Z.of_nat completed_story_points - 5);
        ("Sprint -3", Z.of_nat completed_story_points - 3)]%Z |}.

(** One rule of the risk table: the risk is appended when the rule fires. *)
Definition when (fires : bool) (r : risk) : list risk :=
  if fires then [r] else [].

Definition nonempty {A : Type} (l : list A) : bool :=
  match l with
  | [] => false
  | _ => true
  end.

Definition _identify_risks (cards : list card)
    (sprint_metrics : sprint_metrics) (team_performance : team_performance)
    (process_bottlenecks : process_bottlenecks) : list risk :=
  let completion_rate := sm_completion_rate sprint_metrics in
  let blockers := sm_blockers sprint_metrics in
  let approaching_deadlines := sm_approaching_deadlines sprint_metrics in
  let overdue_cards := sm_overdue_cards sprint_metrics in
  let members_with_high_workload :=
    tp_members_with_high_workload team_performance in
  let bottlenecks := pb_bottlenecks process_bottlenecks in
  (when (Qlt_bool completion_rate 70)
     {| risk_category := "completion_rate";
        risk_severity :=
          if Qlt_bool completion_rate 50 then "high" else "medium";
        risk_description :=
          ("Low sprint completion rate ({:.1f}%)", completion_rate);
        risk_impact :=
          "Sprint goals may not be met by the end of the sprint" |}
   ++ when (nonempty blockers)
     {| risk_category := "blockers";
        risk_severity :=
          if (2 <? List.length blockers)%nat then "high" else "medium";
        risk_description :=
          ("{} blockers identified in the sprint",
           num (List.length blockers));
        risk_impact := "Blocking issues are preventing team progress" |}
   ++ when (nonempty approaching_deadlines)
     {| risk_category := "approaching_deadlines";
        risk_severity := "medium";
        risk_description :=
          ("{} tasks with approaching deadlines",
           num (List.length approaching_deadlines));
        risk_impact := "Tasks may not be completed by their due dates" |}
   ++ when (nonempty overdue_cards)
     {| risk_category := "overdue";
        risk_severity :=
          if (3 <? List.length overdue_cards)%nat then "high" else "medium";
        risk_description :=
          ("{} overdue tasks", num (List.length overdue_cards));
        risk_impact := "Tasks have already missed their deadlines" |}
   ++ when (nonempty members_with_high_workload)
     {| risk_category := "workload_imbalance";
        risk_severity := "medium";
        risk_description :=
          ("{} team members have high workloads",
           num (List.length members_with_high_workload));
        risk_impact :=
          "Uneven workload distribution may lead to burnout and delays" |}
   ++ when (nonempty bottlenecks)
     {| risk_category := "process_bottlenecks";
        risk_severity :=
          if existsb (fun b => Qlt_bool 2 (bn_ratio_to_avg b)) bottlenecks
          then "high" else "medium";
        risk_description :=
          ("{} process bottlenecks identified",
           num (List.length bottlenecks));
        risk_impact :=
          "Tasks are piling up in specific stages of the process" |})%list.

(** [category in risk_categories], the set being given by its elements. *)
Definition set_in (category : string) (risk_categories : list string)
    : bool :=
  existsb (String.eqb category) risk_categories.

(** One block of the recommendation table. *)
Definition recommend (applies : bool) (r : recommendation)
    : list recommendation :=
  if applies then [r] else [].

Definition _generate_recommendations (risks : list risk)
    (sprint_metrics : sprint_metrics) (team_performance : team_performance)
    (process_bottlenecks : process_bottlenecks) : list recommendation :=
  let risk_categories := map risk_category risks in
  let recommendations :=
    (recommend (set_in "completion_rate" risk_categories)
       {| rec_category := "completion_rate";
          rec_priority := "high";
          rec_description :=
            "Review sprint scope and consider reducing the number of tasks";
          rec_action_items :=
            ["Conduct a mid-sprint scope review";
             "Identify and remove non-essential tasks";
             "Focus team efforts on highest priority items"] |}
     ++ recommend (set_in "blockers" risk_categories)
       {| rec_category := "blockers";
          rec_priority := "high";
          rec_description := "Address blocking issues immediately";
          rec_action_items :=
            ["Schedule a blocker resolution session";
             "Escalate blockers to relevant stakeholders if needed";
             "Assign owners to each blocker with clear resolution timelines"] |}
     ++ recommend (set_in "approaching_deadlines" risk_categories
                   || set_in "overdue" risk_categories)
       {| rec_category := "deadlines";
          rec_priority := "high";
          rec_description := "Review and adjust task deadlines";
          rec_action_items :=
            ["Re-evaluate overdue and approaching deadline tasks";
             "Adjust timelines or reassign resources as needed";
             "Communicate changes to stakeholders"] |}
     ++ recommend (set_in "workload_imbalance" risk_categories)
       {| rec_category := "workload";
          rec_priority := "medium";
          rec_description := "Balance team workload";
          rec_action_items :=
            ["Redistribute tasks from overloaded team members";
             "Pair team members on complex tasks";
             "Consider bringing in additional resources if available"] |}
     ++ recommend (set_in "process_bottlenecks" risk_categories)
       {| rec_category := "process";
          rec_priority := "medium";
          rec_description := "Address process bottlenecks";
          rec_action_items :=
            ["Focus team efforts on clearing bottlenecked stages";
             "Review process flow and identify improvement opportunities";
             "Consider temporary process adjustments for the current sprint"] |}
    )%list in
  match recommendations with
  | [] =>
      [{| rec_category := "general";
          rec_priority := "low";
          rec_description := "Continue monitoring sprint progress";
          rec_action_items :=
            ["Maintain daily stand-ups and communications";
             "Keep the board updated with the latest status";
             "Ensure team members are aware of their responsibilities"] |}]
  | _ => recommendations
  end.

Section Environment.

Variable fromisoformat : string -> option datetime.
Variable clock : nat -> Z.

Definition analyze_sprint_data (processed_data : board) : M analysis_output :=
  if board_is_empty processed_data || has_key (board_error processed_data)
  then
    let error_msg :=
      get (board_error processed_data) "Unknown error in processed data" in
    ret (ErrorOnly error_msg)
  else
    let cards := get (board_cards processed_data) [] in
    let lists := get (board_lists processed_data) [] in
    let members := get (board_members processed_data) [] in
    sprint_metrics <-
      calculate_sprint_metrics fromisoformat clock cards lists ;;
    team_performance <-
      analyze_team_performance fromisoformat clock cards members ;;
    let process_bottlenecks := identify_process_bottlenecks cards lists in
    let burn_down_data := _calculate_burn_down cards lists in
    let velocity_data := _calculate_velocity cards in
    let risks :=
      _identify_risks cards sprint_metrics team_performance
        process_bottlenecks in
    let recommendations :=
      _generate_recommendations risks sprint_metrics team_performance
        process_bottlenecks in
    timestamp <- datetime_now clock ;;
    ret (Results
           {| ar_timestamp := timestamp;
              ar_sprint_metrics := sprint_metrics;
              ar_team_performance := team_performance;
              ar_process_bottlenecks := process_bottlenecks;
              ar_burn_down := burn_down_data;
              ar_velocity := velocity_data;
              ar_risks := risks;
              ar_recommendations := recommendations;
              ar_sprint_end_date := None;
              ar_days_remaining := None |}).

End Environment.

End Analysis.

(** ** The data-gap scan ([DataCollectionAgent.identify_data_gaps]) *)

Module DataGaps.

(** An entry of the result: [{card_id, card_name, list_name, gaps}]. *)
Record gap_entry : Type := mkGapEntry {
  ge_card_id : option string;
  ge_card_name : option string;
  ge_list_name : option string;
  ge_gaps : list string
}.

(** One check of the scan: the message is appended when the check finds a
    gap. *)
Definition gap (missing : bool) (message : string) : list string :=
  if missing then [message] else [].

(** The gaps of one card. *)
Definition card_gaps (c : card) : list string :=
  (gap (negb (get (card_isComplete c) false) && negb (truthy_opt (card_due c)))
       "Missing due date"
   ++ gap (negb (truthy_opt (card_desc c))) "Missing description"
   ++ gap (match get (card_members c) [] with [] => true | _ => false end)
        "No assigned members")%list.

(** The loop over the cards: a card with gaps gets an entry. *)
Fixpoint scan_cards (cards : list card) : list gap_entry :=
  match cards with
  | [] => []
  | c :: r =>
      match card_gaps c with
      | [] => scan_cards r
      | gaps =>
          mkGapEntry (card_id c) (card_name c) (card_listName c) gaps
          :: scan_cards r
      end
  end.

Definition identify_data_gaps (processed_data : board) : list gap_entry :=
  let cards := get (board_cards processed_data) [] in
  scan_cards cards.

End DataGaps.

(** ** The report ([ReportingAgent.generate_sprint_report],
       [formatting_utils.fill_report_template]) *)

Module Formatting.

(** [s.replace(old, new)] for a non-empty [old]: the occurrences are found
    from the left and do not overlap.  [skip] counts the characters of the
    occurrence just replaced that are still to be passed over. *)
Fixpoint replace_from (skip : nat) (old new : string) (s : string) : string :=
  match s with
  | EmptyString => EmptyString
  | String c t =>
      match skip with
      | S n => replace_from n old new t
      | O =>
          if prefix old s
          then new ++ replace_from (String.length old - 1) old new t
          else String c (replace_from 0 old new t)
      end
  end.

Definition replace (old new s : string) : string := replace_from 0 old new s.

Section Files.

(** [open(path, "r").read()]: the content of the file, or the text of the
    exception raised. *)
Variable open_read : string -> string + string.

(** The values of [template_data] are modelled as the strings [str(value)]
    gives. *)
Definition fill_report_template (template_path : string)
    (template_data : dict string) : string :=
  match open_read template_path with
  | inl template =>
      fold_left
        (fun template kv =>
           let placeholder := "{" ++ fst kv ++ "}" in
           replace placeholder (snd kv) template)
        template_data template
  | inr e => "Error generating report: " ++ e
  end.

End Files.

End Formatting.

Module Reporting.

Import Analysis.

Definition newline : string := String (ascii_of_nat 10) "".

(** The key "error" of the dictionary [analyze_sprint_data] returns. *)
Definition analysis_error (analysis_results : analysis_output)
    : option string :=
  match analysis_results with
  | ErrorOnly msg => Some msg
  | Results _ => None
  end.

Section Report.

(** The [try] block of the method with its handler: the report data are
    prepared and the template is filled. *)
Variable render :
  board -> analysis_output -> string -> string -> option string -> string.

Definition generate_sprint_report (processed_data : board)
    (analysis_results : analysis_output) (sprint_name team_name : string)
    (template_path : option string) : string :=
  if has_key (board_error processed_data)
     || has_key (analysis_error analysis_results)
  then
    let error_msg :=
      get (board_error processed_data)
          (get (analysis_error analysis_results) "Unknown error") in
    "# Error Generating Sprint Report" ++ newline ++ newline ++ error_msg
  else
    render processed_data analysis_results sprint_name team_name
      template_path.

End Report.

End Reporting.

(** ** The board fetcher ([BoardDataFetcherTool._run]) *)

Module TrelloTools.

(** What a call of a fetcher does: it returns the data, raises
    [TrelloAPIError] with a message, or raises another exception. *)
Inductive fetched (A : Type) : Type :=
| Returned (a : A)
| ApiError (msg : string)
| OtherError (text : string).

Arguments Returned {A} a.
Arguments ApiError {A} msg.
Arguments OtherError {A} text.

(** The statements of a [try] block in sequence: the first exception ends
    the block. *)
Definition and_then {A B : Type} (m : fetched A) (f : A -> fetched B)
    : fetched B :=
  match m with
  | Returned a => f a
  | ApiError msg => ApiError msg
  | OtherError text => OtherError text
  end.

(** The loop that writes [card["listName"]]. *)
Definition with_list_name (lists_map : dict trello_list) (c : card) : card :=
  let listName :=
    if truthy_opt (card_idList c)
       && dict_mem lists_map (get (card_idList c) "")
    then
      match dict_get lists_map (get (card_idList c) "") with
      | Some list_data => list_name list_data
      | None => "Unknown"
      end
    else "Unknown" in
  {| card_id := card_id c; card_name := card_name c;
     card_desc := card_desc c; card_url := card_url c;
     card_idList := card_idList c; card_listName := Some listName;
     card_due := card_due c; card_dueComplete := card_dueComplete c;
     card_dateLastActivity := card_dateLastActivity c;
     card_labels := card_labels c; card_idMembers := card_idMembers c;
     card_members := card_members c; card_comments := card_comments c;
     card_actions := card_actions c; card_attachments := card_attachments c;
     card_isComplete := card_isComplete c; card_isBlocker := card_isBlocker c;
     card_blockerReason := card_blockerReason c |}.

(** The inner loop over [card["actions"]]. *)
Fixpoint comment_actions (actions : list action) : list comment :=
  match actions with
  | [] => []
  | a :: r =>
      if action_type a =? "commentCard" then
        mkComment (action_id a) (action_data_text a) (action_date a)
                  (get (action_memberCreator a) [])
        :: comment_actions r
      else comment_actions r
  end.

(** The loop that writes [card["comments"]]. *)
Definition with_comments (c : card) : card :=
  let comments :=
    match card_actions c with
    | Some actions => comment_actions actions
    | None => []
    end in
  {| card_id := card_id c; card_name := card_name c;
     card_desc := card_desc c; card_url := card_url c;
     card_idList := card_idList c; card_listName := card_listName c;
     card_due := card_due c; card_dueComplete := card_dueComplete c;
     card_dateLastActivity := card_dateLastActivity c;
     card_labels := card_labels c; card_idMembers := card_idMembers c;
     card_members := card_members c; card_comments := Some comments;
     card_actions := card_actions c; card_attachments := card_attachments c;
     card_isComplete := card_isComplete c; card_isBlocker := card_isBlocker c;
     card_blockerReason := card_blockerReason c |}.

Section BoardDataFetcherTool.

(** The environment, the constants read from [config/constants.json], the
    three fetchers and the clock of [time.time()]. *)
Variable getenv : string -> option string.
Variable CONSTANTS : dict (dict string).
Variable get_board_data : string -> string -> string -> fetched (list card).
Variable get_list_data :
  string -> string -> string -> fetched (list trello_list).
Variable get_board_members :
  string -> string -> string -> fetched (list member).
Variable time_time : Q.

Definition _run : board :=
  let api_key := getenv "TRELLO_API_KEY" in
  let api_token := getenv "TRELLO_API_TOKEN" in
  let board_id := getenv "TRELLO_BOARD_ID" in
  if negb (truthy_opt api_key) || negb (truthy_opt api_token)
     || negb (truthy_opt board_id)
  then
    let error_msg :=
      get (dict_get (get (dict_get CONSTANTS "ERROR_MESSAGES") [])
                    "MISSING_API_CREDENTIALS")
          "Missing API credentials or board ID" in
    error_board error_msg
  else
    let api_key := get api_key "" in
    let api_token := get api_token "" in
    let board_id := get board_id "" in
    let attempt :=
      and_then (get_board_data board_id api_key api_token) (fun cards =>
      and_then (get_list_data board_id api_key api_token) (fun lists =>
      and_then (get_board_members board_id api_key api_token) (fun members =>
      let lists_map := dict_of list_id (fun list_data => list_data) lists in
      let cards := map (with_list_name lists_map) cards in
      let cards := map with_comments cards in
      Returned
        {| board_error := None;
           board_board_id := Some board_id;
           board_cards := Some cards;
           board_lists := Some lists;
           board_members := Some members;
           board_cards_by_list := None;
           board_timestamp := Some time_time;
           board_status := Some "success" |}))) in
    match attempt with
    | Returned result => result
    | ApiError error_msg => error_board error_msg
    | OtherError text =>
        error_board ("Unexpected error fetching board data: " ++ text)
    end.

End BoardDataFetcherTool.

End TrelloTools.

(** ** The Trello models ([report_models]) *)

Module Models.

Record TrelloLabel : Type := mkTrelloLabel {
  tlabel_id : string;
  tlabel_name : option string;
  tlabel_color : option string
}.

Record TrelloAttachment : Type := mkTrelloAttachment {
  tattachment_id : string;
  tattachment_name : string;
  tattachment_url : string;
  tattachment_date : option string;
  tattachment_bytes : option Z;
  tattachment_mimeType : option string
}.

Record TrelloComment : Type := mkTrelloComment {
  tcomment_id : string;
  tcomment_text : string;
  tcomment_date : string;
  tcomment_memberCreator : option (dict string)
}.

Record TrelloMember : Type := mkTrelloMember {
  tmember_id : string;
  tmember_fullName : option string;
  tmember_username : string;
  tmember_avatarUrl : option string
}.

Record TrelloCustomField : Type := mkTrelloCustomField {
  tfield_id : string;
  tfield_idCustomField : string;
  tfield_idValue : option string;
  tfield_value : option (dict string)
}.

Record TrelloList : Type := mkTrelloList {
  tlist_id : string;
  tlist_name : string;
  tlist_closed : bool;
  tlist_pos : option Q
}.

(** A member of a card is a dictionary with the keys "fullName" and
    "username", either of which may be absent. *)
Record TrelloCard : Type := mkTrelloCard {
  tcard_id : string;
  tcard_name : string;
  tcard_desc : option string;
  tcard_idList : option string;
  tcard_idBoard : option string;
  tcard_due : option string;
  tcard_dueComplete : bool;
  tcard_dateLastActivity : option string;
  tcard_labels : list TrelloLabel;
  tcard_url : option string;
  tcard_attachments : list TrelloAttachment;
  tcard_comments : list TrelloComment;
  tcard_members : list (option string * option string);
  tcard_customFields : list TrelloCustomField;
  tcard_listName : option string
}.

Record TrelloBoard : Type := mkTrelloBoard {
  tboard_board_id : string;
  tboard_cards : list TrelloCard;
  tboard_lists : list TrelloList;
  tboard_members : list TrelloMember;
  tboard_timestamp : Q;
  tboard_status : string
}.

(** [TrelloMember.display_name]: [fullName or username]. *)
Definition member_display_name (m : TrelloMember) : string :=
  if truthy_opt (tmember_fullName m) then get (tmember_fullName m) ""
  else tmember_username m.

(** [TrelloCard.member_names] *)
Definition member_names (c : TrelloCard) : list string :=
  map (fun member => get (fst member) (get (snd member) "Unknown"))
      (tcard_members c).

(** [TrelloCard.label_colors] *)
Definition label_colors (c : TrelloCard) : list string :=
  flat_map (fun l => if truthy_opt (tlabel_color l)
                     then [get (tlabel_color l) ""] else [])
           (tcard_labels c).

(** [TrelloCard.has_red_label] *)
Definition has_red_label (c : TrelloCard) : bool :=
  existsb (String.eqb "red") (label_colors c).

(** [TrelloCard.has_blocker_comment] *)
Definition has_blocker_comment (c : TrelloCard) : bool :=
  existsb (fun comment => str_in "blocker" (lower (tcomment_text comment)))
          (tcard_comments c).

(** [TrelloCard.is_blocker] *)
Definition is_blocker (c : TrelloCard) : bool :=
  has_red_label c || has_blocker_comment c.

(** [TrelloBoard.cards_by_list] *)
Definition cards_by_list (b : TrelloBoard) : dict (list TrelloCard) :=
  fold_left
    (fun result c =>
       let list_name :=
         if truthy_opt (tcard_listName c) then get (tcard_listName c) ""
         else "Unknown" in
       let result :=
         if dict_mem result list_name then result
         else dict_set result list_name [] in
       dict_set result list_name
         (get (dict_get result list_name) [] ++ [c])%list)
    (tboard_cards b) [].

(** [TrelloBoard.cards_by_member] *)
Definition cards_by_member (b : TrelloBoard) : dict (list TrelloCard) :=
  fold_left
    (fun result c =>
       fold_left
         (fun result member_name =>
            let result :=
              if dict_mem result member_name then result
              else dict_set result member_name [] in
            dict_set result member_name
              (get (dict_get result member_name) [] ++ [c])%list)
         (member_names c) result)
    (tboard_cards b) [].

(** [TrelloBoard.blockers] *)
Definition blockers (b : TrelloBoard) : list TrelloCard :=
  filter is_blocker (tboard_cards b).

Section Environment.

Variable fromisoformat : string -> option datetime.
Variable clock : nat -> Z.

(** [TrelloCard.due_date]: [None] when there is no due date or it does not
    parse. *)
Definition due_date (c : TrelloCard) : option datetime :=
  if truthy_opt (tcard_due c)
  then fromisoformat (replace_char "Z" "+00:00" (get (tcard_due c) ""))
  else None.

(** [TrelloCard.is_overdue]; [None] is the [TypeError] of the comparison,
    which the property does not catch. *)
Definition is_overdue (c : TrelloCard) : M (option bool) :=
  match due_date c with
  | None => ret (Some false)
  | Some d =>
      if tcard_dueComplete c then ret (Some false)
      else
        now <- DataUtils.datetime_now clock ;;
        ret (dt_lt d now)
  end.

(** [TrelloBoard.overdue_cards]: the comprehension ends at the first card
    whose property raises. *)
Fixpoint overdue_among (cards : list TrelloCard)
    : M (option (list TrelloCard)) :=
  match cards with
  | [] => ret (Some [])
  | c :: r =>
      overdue <- is_overdue c ;;
      match overdue with
      | None => ret None
      | Some keep =>
          rest <- overdue_among r ;;
          ret (option_map (fun l => if keep then c :: l else l) rest)
      end
  end.

Definition overdue_cards (b : TrelloBoard) : M (option (list TrelloCard)) :=
  overdue_among (tboard_cards b).

End Environment.

End Models.

(** ** Vocabulary of the properties *)

(** A label is red. *)
Definition red_label (l : label) : Prop := label_color l = Some "red".

(** The lowercased text of a comment contains "blocker". *)
Definition mentions_blocker (cm : comment) : Prop :=
  exists pre post, lower (comment_text cm) = pre ++ "blocker" ++ post.

(** [x] is the first element of [xs] that satisfies [P]. *)
Definition first_such {A : Type} (P : A -> Prop) (xs : list A) (x : A)
    : Prop :=
  exists before after,
    xs = (before ++ x :: after)%list /\ P x
    /\ forall y, In y before -> ~ P y.

(** The comments the normaliser extracts from a raw card. *)
Definition extracted_comments (c : card) : list comment :=
  match card_actions c with
  | Some actions => DataCollection.extract_comments actions
  | None => []
  end.

(** The categories the risk table produces. *)
Definition rule_categories : list string :=
  ["completion_rate"; "blockers"; "approaching_deadlines"; "overdue";
   "workload_imbalance"; "process_bottlenecks"].

(** A risk as the risk table produces it: its category is one of the
    enumeration. *)
Definition known_risk (r : Analysis.risk) : Prop :=
  In (Analysis.risk_category r) rule_categories.

(** The category of the recommendation a risk category maps to: the two
    deadline categories collapse into one. *)
Definition collapse (category : string) : string :=
  if (category =? "approaching_deadlines") || (category =? "overdue")
  then "deadlines" else category.

(** The distinct risk categories of a list of risks, after collapsing. *)
Definition collapsed_categories (risks : list Analysis.risk) : list string :=
  nodup string_dec (map (fun r => collapse (Analysis.risk_category r)) risks).

(** The number a condition counts for. *)
Definition indicator (b : bool) : nat := if b then 1%nat else 0%nat.

(** The average of a list of counts: their sum divided by their number,
    and 0 for no count at all. *)
Definition average (ns : list nat) : Q :=
  match ns with
  | [] => 0
  | _ => num (sum ns) / num (List.length ns)
  end.

(** The name of the list a card is counted in by the metrics: the list its
    "idList" refers to, when that is a list of the board. *)
Definition counted_in (lists : list trello_list) (c : card) : option string :=
  match card_idList c with
  | Some i =>
      if truthy i then dict_get (dict_of list_id list_name lists) i else None
  | None => None
  end.

(** The card is in a list of the given name. *)
Definition in_list_named (lists : list trello_list) (name : string)
    (c : card) : bool :=
  get_eq (counted_in lists c) name.

(** A card with no labels, no comments and no due date. *)
Definition plain_card (c : card) : Prop :=
  get (card_labels c) [] = [] /\ get (card_comments c) [] = []
  /\ truthy_opt (card_due c) = false.

(** Two clocks agree from their [k1]-th and [k2]-th reading on. *)
Definition agree (clock1 clock2 : nat -> Z) (k1 k2 : nat) : Prop :=
  forall n, clock1 (k1 + n)%nat = clock2 (k2 + n)%nat.

(** Two computations give the same result, after the same number of
    readings, whenever the clocks they read agree. *)
Definition same_run {A : Type} (clock1 clock2 : nat -> Z) (m1 m2 : M A)
    : Prop :=
  forall k1 k2,
    agree clock1 clock2 k1 k2 ->
    fst (m1 k1) = fst (m2 k2)
    /\ exists n, snd (m1 k1) = (k1 + n)%nat /\ snd (m2 k2) = (k2 + n)%nat.

(** The name a member id is counted under: the display name of the member
    of the board with that id, or "Unknown". *)
Definition member_name_of (members : list member) (id : string) : string :=
  get (dict_get (dict_of member_id display_name members) id) "Unknown".

(** The names the cards refer to, one for each assignment of a card. *)
Definition assignments (members : list member) (cards : list card)
    : list string :=
  flat_map (fun c => map (member_name_of members) (get (card_idMembers c) []))
           cards.

(** The total recorded for a name, 0 when there is no entry. *)
Definition total_of (d : dict DataUtils.member_stats) (name : string) : nat :=
  match dict_get d name with
  | Some stats => DataUtils.ms_total stats
  | None => 0%nat
  end.

(** The totals count the assignments, and the names are those assigned. *)
Definition counts_assignments (names : list string)
    (d : dict DataUtils.member_stats) : Prop :=
  forall name,
    total_of d name = count_occ string_dec names name
    /\ (In name (dict_keys d) <-> In name names).

(** Names the result of the loop over the cards. *)
Ltac name_loop d k' :=
  match goal with
  | |- context [for_each ?xs ?body ?s ?k] =>
      destruct (for_each xs body s k) as [d k']
  end.

(** A card without a data gap: it is complete or has a due date, it has a
    description, and it has a member. *)
Definition without_gap (c : card) : Prop :=
  (get (card_isComplete c) false = true \/ truthy_opt (card_due c) = true)
  /\ truthy_opt (card_desc c) = true
  /\ get (card_members c) [] <> [].

(** The three messages of the data-gap scan, in the order of the checks. *)
Definition gap_messages : list string :=
  ["Missing due date"; "Missing description"; "No assigned members"].

(** [l] is [from] with some elements left out. *)
Fixpoint sublist {A : Type} (l from : list A) : Prop :=
  match l, from with
  | [], _ => True
  | _ :: _, [] => False
  | x :: l', y :: from' => (x = y /\ sublist l' from') \/ sublist l from'
  end.

(** The position a list is sorted by: its "pos", or 0 when it has none. *)
Definition position (l : trello_list) : Q := get (list_pos l) 0.

(** A list in ascending order of the keys of its elements. *)
Definition ascending {A : Type} (key : A -> Q) (l : list A) : Prop :=
  StronglySorted (fun a b => key a <= key b) l.

(** The elements of a list whose key is the given one, in order. *)
Definition with_key {A : Type} (key : A -> Q) (q : Q) (l : list A) : list A :=
  filter (fun x => Qeq_bool (key x) q) l.

(** The cards of a member that are in the list "Done". *)
Definition done_cards (stats : DataUtils.member_stats) : nat :=
  List.length
    (filter (fun a => DataUtils.ac_listName a =? "Done")
            (DataUtils.ms_cards stats)).

(** What the counters of a member say about its cards: [total] is their
    number, [completed] the number of those in "Done", and no more are
    overdue than there are. *)
Definition consistent (stats : DataUtils.member_stats) : Prop :=
  List.length (DataUtils.ms_cards stats) = DataUtils.ms_total stats
  /\ DataUtils.ms_completed stats = done_cards stats
  /\ (DataUtils.ms_overdue stats <= DataUtils.ms_total stats)%nat.

(** [c in s] for a character. *)
Fixpoint has_char (c : ascii) (s : string) : bool :=
  match s with
  | EmptyString => false
  | String a t => Ascii.eqb a c || has_char c t
  end.

(** A template as a sequence of texts and placeholders. *)
Inductive piece : Type :=
| Literal (s : string)
| Placeholder (key : string).

Definition show_piece (p : piece) : string :=
  match p with
  | Literal s => s
  | Placeholder key => "{" ++ key ++ "}"
  end.

Definition template_of (pieces : list piece) : string :=
  fold_right (fun p s => show_piece p ++ s) "" pieces.

(** The texts have no opening brace, the keys of the placeholders no
    brace. *)
Definition well_formed (p : piece) : Prop :=
  match p with
  | Literal s => has_char "{" s = false
  | Placeholder key => has_char "{" key = false /\ has_char "}" key = false
  end.

(** A placeholder whose key has a value becomes that value. *)
Definition fill_piece (data : dict string) (p : piece) : piece :=
  match p with
  | Literal s => Literal s
  | Placeholder key =>
      match dict_get data key with
      | Some value => Literal value
      | None => Placeholder key
      end
  end.

(** The snapshot of a board as the three fetchers return it, before the
    fetcher tool adds anything to its cards. *)
Definition fetched_snapshot (board_id : string) (cards : list card)
    (lists : list trello_list) (members : list member) (timestamp : Q)
    : board :=
  {| board_error := None; board_board_id := Some board_id;
     board_cards := Some cards; board_lists := Some lists;
     board_members := Some members; board_cards_by_list := None;
     board_timestamp := Some timestamp; board_status := Some "success" |}.

(** The name a card of the board model is grouped under:
    [card.listName or "Unknown"]. *)
Definition group_name (c : Models.TrelloCard) : string :=
  if truthy_opt (Models.tcard_listName c)
  then get (Models.tcard_listName c) "" else "Unknown".

(** The entry of a group: absent when the group would be empty. *)
Definition group_of {X : Type} (members : list X) : option (list X) :=
  match members with
  | [] => None
  | _ => Some members
  end.

(** ** Concrete inputs for the examples *)

(** [datetime.fromisoformat] on the shapes [YYYY-MM-DDTHH:MM:SS], with
    three or six digits of a fraction of a second after it or none, and with
    an offset [+HH:MM] or [-HH:MM] at the end or none; the instants count
    from 1970-01-01T00:00:00.  Other strings are refused. *)
Module Iso.

Definition digit (c : ascii) : option Z :=
  let n := nat_of_ascii c in
  if (48 <=? n)%nat && (n <=? 57)%nat then Some (Z.of_nat (n - 48)) else None.

Fixpoint digits (s : string) (acc : Z) : option Z :=
  match s with
  | EmptyString => Some acc
  | String c t =>
      match digit c with
      | Some d => digits t (acc * 10 + d)%Z
      | None => None
      end
  end.

Definition field (s : string) (start len : nat) : option Z :=
  digits (substring start len s) 0.

Definition char_at (s : string) (i : nat) (c : ascii) : bool :=
  match String.get i s with
  | Some a => Ascii.eqb a c
  | None => false
  end.

Definition is_leap (y : Z) : bool :=
  ((y mod 4 =? 0) && (negb (y mod 100 =? 0) || (y mod 400 =? 0)))%Z.

Definition days_in_month (y m : Z) : Z :=
  if (m =? 2)%Z then (if is_leap y then 29 else 28)%Z
  else if ((m =? 4) || (m =? 6) || (m =? 9) || (m =? 11))%Z then 30%Z
  else 31%Z.

(** Days from 1970-01-01 to the given day of the civil calendar. *)
Definition days_from_civil (y m d : Z) : Z :=
  (let y := if m <=? 2 then y - 1 else y in
   let era := y / 400 in
   let yoe := y - era * 400 in
   let mp := if 2 <? m then m - 3 else m + 9 in
   let doy := (153 * mp + 2) / 5 + d - 1 in
   let doe := yoe * 365 + yoe / 4 - yoe / 100 + doy in
   era * 146097 + doe - 719468)%Z.

(** The first 19 characters: the date and the time of day, in seconds. *)
Definition local_seconds (s : string) : option Z :=
  if char_at s 4 "-" && char_at s 7 "-" && char_at s 10 "T"
     && char_at s 13 ":" && char_at s 16 ":"
  then
    match field s 0 4, field s 5 2, field s 8 2,
          field s 11 2, field s 14 2, field s 17 2 with
    | Some y, Some m, Some d, Some h, Some mi, Some sec =>
        if ((1 <=? y) && (1 <=? m) && (m <=? 12) && (1 <=? d)
            && (d <=? days_in_month y m) && (h <? 24) && (mi <? 60)
            && (sec <? 60))%Z
        then Some (((days_from_civil y m d * 24 + h) * 60 + mi) * 60 + sec)%Z
        else None
    | _, _, _, _, _, _ => None
    end
  else None.

(** The fraction of a second, in microseconds: [len] is 0 for none, and 4 or
    7 for a point and three or six digits. *)
Definition fraction (s : string) (len : nat) : option Z :=
  match len with
  | O => Some 0%Z
  | _ =>
      if char_at s 19 "." then
        match field s 20 (len - 1) with
        | Some f => Some (if (len =? 4)%nat then f * 1000 else f)%Z
        | None => None
        end
      else None
  end.

(** The offset that starts at position [p], in seconds. *)
Definition utc_offset (s : string) (p : nat) : option Z :=
  if (char_at s p "+" || char_at s p "-") && char_at s (p + 3) ":" then
    match field s (p + 1) 2, field s (p + 4) 2 with
    | Some h, Some mi =>
        if ((h <? 24) && (mi <? 60))%Z
        then Some ((if char_at s p "-" then -1 else 1) * (h * 60 + mi) * 60)%Z
        else None
    | _, _ => None
    end
  else None.

Definition fromisoformat (s : string) : option datetime :=
  let n := String.length s in
  let frac :=
    if ((n =? 23) || (n =? 29))%nat then 4%nat
    else if ((n =? 26) || (n =? 32))%nat then 7%nat else 0%nat in
  let aware := ((n =? 25) || (n =? 29) || (n =? 32))%nat in
  if ((n =? 19) || (n =? 23) || (n =? 26) || aware)%nat then
    match local_seconds s, fraction s frac with
    | Some t, Some us =>
        if aware then
          match utc_offset s (19 + frac) with
          | Some off => Some (Aware ((t - off) * 1000000 + us))
          | None => None
          end
        else Some (Naive (t * 1000000 + us))
    | _, _ => None
    end
  else None.

End Iso.

(** A clock that starts at [t] and advances by a microsecond a reading. *)
Definition clock_from (t : Z) : nat -> Z := fun k => (t + Z.of_nat k)%Z.

(** 2024-03-10T12:00:00, and the same hour four days later. *)
Definition march_10 : Z := 1710072000000000.
Definition march_14 : Z := 1710417600000000.

(** A raw card with an id, in the list of the given id, and nothing else
    but a name. *)
Definition raw_card (id list_id : string) : card :=
  {| card_id := Some id; card_name := Some ("Card " ++ id);
     card_desc := None; card_url := None; card_idList := Some list_id;
     card_listName := None; card_due := None; card_dueComplete := None;
     card_dateLastActivity := None; card_labels := None;
     card_idMembers := None; card_members := None; card_comments := None;
     card_actions := None; card_attachments := None; card_isComplete := None;
     card_isBlocker := None; card_blockerReason := None |}.

Definition to_do : trello_list := mkList "L1" "To Do" (Some 1) false.
Definition doing : trello_list := mkList "L2" "Doing" (Some 2) false.
Definition done : trello_list := mkList "L3" "Done" (Some 3) false.

(** Ten cards: seven to do, three done. *)
Definition ten_cards : list card :=
  [raw_card "1" "L1"; raw_card "2" "L1"; raw_card "3" "L1"; raw_card "4" "L1";
   raw_card "5" "L1"; raw_card "6" "L1"; raw_card "7" "L1";
   raw_card "8" "L3"; raw_card "9" "L3"; raw_card "10" "L3"].

(** A raw snapshot. *)
Definition snapshot (cards : list card) (lists : list trello_list) : board :=
  {| board_error := None; board_board_id := Some "board";
     board_cards := Some cards; board_lists := Some lists;
     board_members := Some []; board_cards_by_list := None;
     board_timestamp := Some 1710072000; board_status := Some "success" |}.

(** The ten cards on a board of two lists, and on a board of three. *)
Definition two_list_board : board := snapshot ten_cards [to_do; done].
Definition three_list_board : board := snapshot ten_cards [to_do; doing; done].

(** A card due on 2024-03-12 at noon, written without a time zone. *)
Definition due_card : card :=
  {| card_id := Some "11"; card_name := Some "Card 11";
     card_desc := None; card_url := None; card_idList := Some "L1";
     card_listName := None; card_due := Some "2024-03-12T12:00:00";
     card_dueComplete := Some false;
     card_dateLastActivity := None; card_labels := None;
     card_idMembers := None; card_members := None; card_comments := None;
     card_actions := None; card_attachments := None; card_isComplete := None;
     card_isBlocker := None; card_blockerReason := None |}.

(** A raw card assigned to the members of the given ids. *)
Definition assigned_to (id list_id : string) (member_ids : list string)
    : card :=
  {| card_id := Some id; card_name := Some ("Card " ++ id);
     card_desc := None; card_url := None; card_idList := Some list_id;
     card_listName := None; card_due := None; card_dueComplete := None;
     card_dateLastActivity := None; card_labels := None;
     card_idMembers := Some member_ids; card_members := None;
     card_comments := None; card_actions := None; card_attachments := None;
     card_isComplete := None; card_isBlocker := None;
     card_blockerReason := None |}.

Definition ann : member := mkMember "M1" (Some "Ann") (Some "ann").
Definition bob : member := mkMember "M2" None (Some "bob").
Definition cyd : member := mkMember "M3" (Some "Cyd") None.

(** Ann has four cards, Bob and Cyd one each: the average is 2. *)
Definition uneven_cards : list card :=
  [assigned_to "1" "L1" ["M1"; "M2"]; assigned_to "2" "L1" ["M1"];
   assigned_to "3" "L1" ["M1"; "M3"]; assigned_to "4" "L3" ["M1"]].

(** Ann has three cards, Bob two, Cyd one: the average is 2, and Ann's
    total is exactly 1.5 times the average. *)
Definition boundary_cards : list card :=
  [assigned_to "1" "L1" ["M1"; "M2"]; assigned_to "2" "L1" ["M1"; "M2"];
   assigned_to "3" "L1" ["M1"; "M3"]].

Definition review : trello_list := mkList "L4" "Review" (Some 4) false.

(** Twenty cards on four lists: one, one, one and seventeen. *)
Definition crowded_cards : list card :=
  [raw_card "1" "L1"; raw_card "2" "L2"; raw_card "3" "L3"]
  ++ map (fun id => raw_card id "L4")
       ["4"; "5"; "6"; "7"; "8"; "9"; "10"; "11"; "12"; "13"; "14"; "15";
        "16"; "17"; "18"; "19"; "20"].

(** Three risks of the risk table, two of them about deadlines. *)
Definition deadline_risks : list Analysis.risk :=
  [Analysis.mkRisk "blockers" "medium"
     ("{} blockers identified in the sprint", 1)
     "Blocking issues are preventing team progress";
   Analysis.mkRisk "approaching_deadlines" "medium"
     ("{} tasks with approaching deadlines", 2)
     "Tasks may not be completed by their due dates";
   Analysis.mkRisk "overdue" "medium" ("{} overdue tasks", 1)
     "Tasks have already missed their deadlines"].

(** A snapshot that signals a failure, and still carries data. *)
Definition failed_snapshot : board :=
  {| board_error := Some "Failed to fetch data from Trello: timeout";
     board_board_id := Some "board"; board_cards := Some ten_cards;
     board_lists := Some [to_do; done]; board_members := Some [ann];
     board_cards_by_list := None; board_timestamp := None;
     board_status := None |}.

(** A raw card with a red label without a name, a green one, and two
    comments, the second of which mentions a blocker. *)
Definition labelled_card (labels : list label) : card :=
  {| card_id := Some "1"; card_name := Some "Card 1";
     card_desc := None; card_url := None; card_idList := Some "L1";
     card_listName := None; card_due := None; card_dueComplete := None;
     card_dateLastActivity := None; card_labels := Some labels;
     card_idMembers := None; card_members := None; card_comments := None;
     card_actions :=
       Some [mkAction "commentCard" "a1" "Looks fine to me"
               "2024-03-09T10:00:00.000Z" None;
             mkAction "updateCard" "a2" "" "2024-03-09T11:00:00.000Z" None;
             mkAction "commentCard" "a3"
               "This is a BLOCKER: the staging database is down and nobody can deploy"
               "2024-03-09T12:00:00.000Z" None];
     card_attachments := None; card_isComplete := None;
     card_isBlocker := None; card_blockerReason := None |}.

(** A raw card that was due on 2024-03-09 at noon, with the due date as
    given. *)
Definition card_due_on_march_9 (due : string) : card :=
  {| card_id := Some "12"; card_name := Some "Card 12";
     card_desc := None; card_url := None; card_idList := Some "L1";
     card_listName := None; card_due := Some due;
     card_dueComplete := Some false;
     card_dateLastActivity := None; card_labels := None;
     card_idMembers := None; card_members := None; card_comments := None;
     card_actions := None; card_attachments := None; card_isComplete := None;
     card_isBlocker := None; card_blockerReason := None |}.

(** A board of three lists given out of order, four cards and three
    members. *)
Definition team_board : board :=
  {| board_error := None; board_board_id := Some "board";
     board_cards := Some uneven_cards;
     board_lists := Some [done; to_do; doing];
     board_members := Some [ann; bob; cyd]; board_cards_by_list := None;
     board_timestamp := Some 1710072000; board_status := Some "success" |}.

(** A board of three lists without a card. *)
Definition empty_board : board := snapshot [] [to_do; doing; done].

(** A template of three texts and three placeholders, the values of two of
    them, and a file system that holds one file. *)
Definition report_template : list piece :=
  [Literal "# Sprint report: "; Placeholder "sprint_name"; Literal " (";
   Placeholder "team_name"; Literal "), health: "; Placeholder "health"].

Definition report_values : dict string :=
  [("sprint_name", "Sprint 12"); ("team_name", "Core")].

Definition one_file (content : string) : string -> string + string :=
  fun _ => inl content.

(** An environment with the key, the token and the board id, and fetchers
    that return given data or fail with a time-out. *)
Definition full_env (name : string) : option string :=
  if name =? "TRELLO_API_KEY" then Some "key"
  else if name =? "TRELLO_API_TOKEN" then Some "token"
  else if name =? "TRELLO_BOARD_ID" then Some "board"
  else None.

Definition returning {A : Type} (data : A)
    : string -> string -> string -> TrelloTools.fetched A :=
  fun _ _ _ => TrelloTools.Returned data.

Definition timing_out {A : Type}
    : string -> string -> string -> TrelloTools.fetched A :=
  fun _ _ _ =>
    TrelloTools.ApiError "Failed to fetch list data from Trello: timeout".

(** A card of the board model due on 2024-03-09 at noon, and a board that
    holds it. *)
Definition model_card (due : string) : Models.TrelloCard :=
  {| Models.tcard_id := "12"; Models.tcard_name := "Card 12";
     Models.tcard_desc := Some ""; Models.tcard_idList := Some "L1";
     Models.tcard_idBoard := None; Models.tcard_due := Some due;
     Models.tcard_dueComplete := false;
     Models.tcard_dateLastActivity := None; Models.tcard_labels := [];
     Models.tcard_url := None; Models.tcard_attachments := [];
     Models.tcard_comments := [];
     Models.tcard_members := [(Some "Ann", Some "ann"); (None, Some "bob")];
     Models.tcard_customFields := []; Models.tcard_listName := Some "To Do" |}.

Definition model_board (cards : list Models.TrelloCard) : Models.TrelloBoard :=
  {| Models.tboard_board_id := "board"; Models.tboard_cards := cards;
     Models.tboard_lists := []; Models.tboard_members := [];
     Models.tboard_timestamp := 1710072000;
     Models.tboard_status := "success" |}.

(** * Properties *)

(** ** Strings *)

Lemma get_eq_true (o : option string) (s : string) :
  get_eq o s = true <-> o = Some s.
Proof.
  destruct o as [a|]; simpl.
  - rewrite String.eqb_eq. split; congruence.
  - split; discriminate.
Qed.

Lemma prefix_app (n h : string) :
  prefix n h = true <-> exists post, h = n ++ post.
Proof.
  revert h. induction n as [|a n IH]; intros h.
  - destruct h; simpl; split; eauto.
  - destruct h as [|b h]; simpl.
    + split; [discriminate | intros [post H]; discriminate].
    + destruct (ascii_dec a b) as [->|Hab].
      * rewrite IH. split; intros [post H]; exists post.
        -- now subst.
        -- now inversion H.
      * split; [discriminate | intros [post H]; inversion H; congruence].
Qed.

(** [needle in hay] holds exactly when [hay] has [needle] as a substring. *)
Lemma str_in_substring (n h : string) :
  str_in n h = true <-> exists pre post, h = pre ++ n ++ post.
Proof.
  induction h as [|b h IH].
  - change (str_in n "") with (if prefix n "" then true else false).
    destruct (prefix n "") eqn:E.
    + apply prefix_app in E. destruct E as [post E].
      split; [intros _; now exists "", post | reflexivity].
    + split; [discriminate|]. intros (pre & post & H).
      destruct pre; simpl in H.
      * assert (prefix n "" = true) by (apply prefix_app; eauto). congruence.
      * discriminate.
  - change (str_in n (String b h))
      with (if prefix n (String b h) then true else str_in n h).
    destruct (prefix n (String b h)) eqn:E.
    + apply prefix_app in E. destruct E as [post E].
      split; [intros _; now exists "", post | reflexivity].
    + rewrite IH. split; intros (pre & post & H).
      * exists (String b pre), post. simpl. now rewrite H.
      * destruct pre as [|a pre]; simpl in H.
        -- assert (prefix n (String b h) = true) by (apply prefix_app; eauto).
           congruence.
        -- inversion H. eauto.
Qed.

(** [s[:n]] is a prefix of [s] of at most [n] characters, and all of [s]
    when [s] is no longer than that. *)
Lemma slice_to_prefix (n : nat) (s : string) :
  exists rest, s = slice_to n s ++ rest
               /\ String.length (slice_to n s) = Nat.min n (String.length s).
Proof.
  revert s. induction n as [|n IH]; intros s.
  - exists s. now destruct s.
  - destruct s as [|c s]; simpl.
    + now exists "".
    + destruct (IH s) as (rest & H1 & H2). exists rest.
      split; [now rewrite <- H1 | now rewrite H2].
Qed.

(** ** Dictionaries keep their keys distinct *)

Section Dictionaries.

Context {V : Type}.

Lemma dict_mem_In (d : dict V) (k : string) :
  dict_mem d k = true <-> In k (dict_keys d).
Proof.
  unfold dict_mem. induction d as [|[k' v] r IH]; simpl.
  - split; [discriminate | contradiction].
  - destruct (k' =? k) eqn:E.
    + apply String.eqb_eq in E. simpl. tauto.
    + apply String.eqb_neq in E. rewrite IH. tauto.
Qed.

Lemma dict_set_keys (d : dict V) (k : string) (v : V) :
  dict_keys (dict_set d k v)
  = if dict_mem d k then dict_keys d else (dict_keys d ++ [k])%list.
Proof.
  unfold dict_mem. induction d as [|[k' v'] r IH]; simpl; [reflexivity|].
  destruct (k' =? k) eqn:E; simpl; [reflexivity|].
  rewrite IH. now destruct (has_key (dict_get r k)).
Qed.

Lemma dict_set_NoDup (d : dict V) (k : string) (v : V) :
  NoDup (dict_keys d) -> NoDup (dict_keys (dict_set d k v)).
Proof.
  intros H. rewrite dict_set_keys. destruct (dict_mem d k) eqn:E; [exact H|].
  apply NoDup_app; [exact H | repeat constructor; auto |].
  intros x Hx [<-|[]]. apply dict_mem_In in Hx. congruence.
Qed.

(** With distinct keys, a key has one value. *)
Lemma dict_functional (d : dict V) (k : string) (v v' : V) :
  NoDup (dict_keys d) -> In (k, v) d -> In (k, v') d -> v = v'.
Proof.
  induction d as [|[k0 v0] r IH]; simpl; [contradiction|].
  intros Hnd. inversion Hnd as [|? ? Hnot Hr]; subst.
  intros [E1|H1] [E2|H2].
  - congruence.
  - inversion E1; subst. exfalso. apply Hnot.
    change k with (fst (k, v')). now apply in_map.
  - inversion E2; subst. exfalso. apply Hnot.
    change k with (fst (k, v)). now apply in_map.
  - auto.
Qed.

Lemma dict_set_keys_In (d : dict V) (k k' : string) (v : V) :
  In k' (dict_keys (dict_set d k v)) <-> k' = k \/ In k' (dict_keys d).
Proof.
  rewrite dict_set_keys. destruct (dict_mem d k) eqn:E.
  - apply dict_mem_In in E. split; [auto | intros [->|H]; auto].
  - rewrite in_app_iff. simpl. intuition.
Qed.

(** A new key goes last. *)
Lemma dict_set_fresh (d : dict V) (k : string) (v : V) :
  ~ In k (dict_keys d) -> dict_set d k v = (d ++ [(k, v)])%list.
Proof.
  induction d as [|[k' v'] r IH]; simpl; intros H; [reflexivity|].
  destruct (k' =? k) eqn:E.
  - apply String.eqb_eq in E. tauto.
  - rewrite IH by tauto. reflexivity.
Qed.

Lemma dict_get_In (d : dict V) (k : string) (v : V) :
  NoDup (dict_keys d) -> (dict_get d k = Some v <-> In (k, v) d).
Proof.
  induction d as [|[k' v'] r IH]; simpl; intros Hnd.
  - split; [discriminate | contradiction].
  - inversion Hnd as [|? ? Hnot Hr]; subst. destruct (k' =? k) eqn:E.
    + apply String.eqb_eq in E. subst k'. split.
      * intros H. left. congruence.
      * intros [H|H]; [congruence|]. exfalso. apply Hnot.
        change k with (fst (k, v)). now apply in_map.
    + apply String.eqb_neq in E. rewrite (IH Hr). split; [auto|].
      intros [H|H]; [congruence | exact H].
Qed.

Lemma dict_get_Some_In (d : dict V) (k : string) (v : V) :
  dict_get d k = Some v -> In (k, v) d.
Proof.
  induction d as [|[k' v'] r IH]; simpl; [discriminate|].
  destruct (k' =? k) eqn:E; [|auto].
  apply String.eqb_eq in E. intros H. left. congruence.
Qed.

End Dictionaries.

(** The keys after a loop of assignments: those before and those assigned. *)
Lemma fold_dict_set_keys_In {A V : Type} (key : A -> string) (val : A -> V)
    (xs : list A) (d : dict V) (k : string) :
  In k (dict_keys (fold_left (fun d x => dict_set d (key x) (val x)) xs d))
  <-> In k (dict_keys d) \/ In k (map key xs).
Proof.
  revert d. induction xs as [|x r IH]; intros d; simpl; [tauto|].
  rewrite IH, dict_set_keys_In. intuition.
Qed.

(** With distinct keys, a dictionary comprehension lists its items in
    order. *)
Lemma fold_dict_set_fresh {A V : Type} (key : A -> string) (val : A -> V)
    (xs : list A) (d : dict V) :
  NoDup (dict_keys d ++ map key xs) ->
  fold_left (fun d x => dict_set d (key x) (val x)) xs d
  = (d ++ map (fun x => (key x, val x)) xs)%list.
Proof.
  revert d. induction xs as [|x r IH]; intros d H; simpl.
  - now rewrite app_nil_r.
  - simpl in H. pose proof (NoDup_remove_2 _ _ _ H) as Hx.
    rewrite dict_set_fresh by (intros Hin; apply Hx, in_or_app; auto).
    rewrite IH.
    + now rewrite <- app_assoc.
    + unfold dict_keys. rewrite map_app. simpl. rewrite <- app_assoc. exact H.
Qed.

Lemma dict_of_NoDup {A V : Type} (key : A -> string) (val : A -> V)
    (xs : list A) :
  NoDup (map key xs) -> dict_of key val xs = map (fun x => (key x, val x)) xs.
Proof. intros H. unfold dict_of. now rewrite fold_dict_set_fresh. Qed.

(** Mapping the values of a dictionary comprehension. *)
Lemma dict_set_map {V W : Type} (g : V -> W) (d : dict V) (k : string) (v : V) :
  map (fun kv => (fst kv, g (snd kv))) (dict_set d k v)
  = dict_set (map (fun kv => (fst kv, g (snd kv))) d) k (g v).
Proof.
  induction d as [|[k' v'] r IH]; simpl; [reflexivity|].
  destruct (k' =? k); simpl; [reflexivity | now rewrite IH].
Qed.

Lemma fold_dict_set_map {A V W : Type} (key : A -> string) (val : A -> V)
    (g : V -> W) (xs : list A) (d : dict V) :
  map (fun kv => (fst kv, g (snd kv)))
      (fold_left (fun d x => dict_set d (key x) (val x)) xs d)
  = fold_left (fun d x => dict_set d (key x) (g (val x))) xs
      (map (fun kv => (fst kv, g (snd kv))) d).
Proof.
  revert d. induction xs as [|x r IH]; intros d; simpl; [reflexivity|].
  now rewrite IH, dict_set_map.
Qed.

Lemma dict_of_map {A V W : Type} (key : A -> string) (val : A -> V)
    (g : V -> W) (xs : list A) :
  map (fun kv => (fst kv, g (snd kv))) (dict_of key val xs)
  = dict_of key (fun x => g (val x)) xs.
Proof. unfold dict_of. now rewrite fold_dict_set_map. Qed.

Lemma Qlt_bool_iff (x y : Q) : Qlt_bool x y = true <-> x < y.
Proof.
  unfold Qlt_bool. rewrite negb_true_iff, <- not_true_iff_false, Qle_bool_iff.
  split; [apply Qnot_le_lt | apply Qlt_not_le].
Qed.

Lemma nonempty_In {A : Type} (l : list A) : l <> [] -> exists e, In e l.
Proof. destruct l as [|e l]; [congruence | intros _; exists e; now left]. Qed.

(** A loop keeps what each of its steps keeps. *)
Lemma for_each_invariant {A S : Type} (P : S -> Prop) (body : A -> S -> M S)
    (xs : list A) :
  (forall x s k, P s -> P (fst (body x s k))) ->
  forall s k, P s -> P (fst (for_each xs body s k)).
Proof.
  intros Hbody. induction xs as [|x r IH]; intros s k Hs; [exact Hs|].
  simpl. unfold bind. specialize (Hbody x s k Hs).
  destruct (body x s k) as [s' k']. now apply IH.
Qed.

(** A loop keeps a relation to what a fold over the same list computes. *)
Lemma for_each_fold {A S G : Type} (R : G -> S -> Prop) (step : G -> A -> G)
    (body : A -> S -> M S) (xs : list A) :
  (forall g x s k, R g s -> R (step g x) (fst (body x s k))) ->
  forall g s k, R g s -> R (fold_left step xs g) (fst (for_each xs body s k)).
Proof.
  intros Hbody. induction xs as [|x r IH]; intros g s k H; [exact H|].
  simpl. unfold bind. specialize (Hbody g x s k H).
  destruct (body x s k) as [s' k']. now apply IH.
Qed.

Lemma fold_left_app_flat_map {A B : Type} (f : A -> list B) (xs : list A)
    (g : list B) :
  fold_left (fun g x => g ++ f x)%list xs g = (g ++ flat_map f xs)%list.
Proof.
  revert g. induction xs as [|x r IH]; intros g; simpl.
  - now rewrite app_nil_r.
  - now rewrite IH, app_assoc.
Qed.

Lemma fold_left_app_map {A B : Type} (f : A -> B) (xs : list A) (g : list B) :
  fold_left (fun g x => g ++ [f x])%list xs g = (g ++ map f xs)%list.
Proof.
  revert g. induction xs as [|x r IH]; intros g; simpl.
  - now rewrite app_nil_r.
  - now rewrite IH, <- app_assoc.
Qed.

(** The flagged entries of a dictionary of counts: the names whose entry
    passes the test. *)
Lemma flagged_names {V E : Type} (d : dict V) (test : string * V -> bool)
    (entry : string * V -> E) (name_of : E -> string) (name : string) (v : V) :
  (forall kv, name_of (entry kv) = fst kv) ->
  NoDup (dict_keys d) -> In (name, v) d ->
  (In name (map name_of (map entry (filter test d))) <-> test (name, v) = true).
Proof.
  intros Hname Hnd Hin. rewrite map_map, in_map_iff. split.
  - intros ([k v'] & Hk & Hf). rewrite Hname in Hk. simpl in Hk. subst k.
    apply filter_In in Hf. destruct Hf as [Hf Ht].
    now rewrite (dict_functional d name v v' Hnd Hin Hf).
  - intros Ht. exists (name, v). split; [apply Hname|].
    apply filter_In. auto.
Qed.

(** ** Counting the cards of a list *)

Section Counting.

Import DataUtils.

Lemma sum_acc (ns : list nat) (a : nat) :
  fold_left Nat.add ns a = (a + sum ns)%nat.
Proof.
  unfold sum. revert a. induction ns as [|n r IH]; intros a; simpl; [lia|].
  rewrite (IH (a + n)%nat), (IH n). lia.
Qed.

Lemma sum_cons (n : nat) (ns : list nat) : sum (n :: ns) = (n + sum ns)%nat.
Proof. unfold sum at 1. simpl. apply sum_acc. Qed.

Lemma sum_app (l1 l2 : list nat) : sum (l1 ++ l2) = (sum l1 + sum l2)%nat.
Proof.
  induction l1 as [|n r IH]; simpl; [reflexivity|].
  rewrite !sum_cons, IH. lia.
Qed.

Lemma dict_get_set_same {V : Type} (d : dict V) (k : string) (v : V) :
  dict_get (dict_set d k v) k = Some v.
Proof.
  induction d as [|[k' v'] r IH]; simpl.
  - now rewrite String.eqb_refl.
  - destruct (k' =? k) eqn:E; simpl; rewrite E; [reflexivity | exact IH].
Qed.

Lemma dict_get_set_other {V : Type} (d : dict V) (k k' : string) (v : V) :
  k <> k' -> dict_get (dict_set d k v) k' = dict_get d k'.
Proof.
  intros Hk. induction d as [|[k0 v0] r IH]; simpl.
  - apply String.eqb_neq in Hk. now rewrite Hk.
  - destruct (k0 =? k) eqn:E; simpl.
    + apply String.eqb_eq in E. subst k0.
      apply String.eqb_neq in Hk. now rewrite Hk.
    + now rewrite IH.
Qed.

(** The counts start at zero. *)
Lemma zero_counts {A : Type} (key : A -> string) (xs : list A) (d : dict nat)
    (name : string) :
  get (dict_get d name) 0%nat = 0%nat ->
  get (dict_get (fold_left (fun d x => dict_set d (key x) 0%nat) xs d) name)
      0%nat = 0%nat.
Proof.
  revert d. induction xs as [|x r IH]; intros d H; [exact H|].
  simpl. apply IH. destruct (string_dec (key x) name) as [<-|Hn].
  - now rewrite dict_get_set_same.
  - now rewrite dict_get_set_other.
Qed.

(** The counting loop adds to a name the number of cards whose list has
    that name. *)
Lemma count_cards_get (cards : list card) (list_map : dict string)
    (d : dict nat) (name : string) :
  get (dict_get (count_cards cards list_map d) name) 0%nat
  = (get (dict_get d name) 0
     + List.length
         (filter (fun c =>
                    match card_idList c with
                    | Some i =>
                        if truthy i then get_eq (dict_get list_map i) name
                        else false
                    | None => false
                    end) cards))%nat.
Proof.
  revert d. induction cards as [|c r IH]; intros d; simpl; [lia|].
  destruct (card_idList c) as [i|]; [|apply IH].
  destruct (truthy i); [|apply IH].
  destruct (dict_get list_map i) as [n|]; simpl; [|apply IH].
  rewrite IH. destruct (n =? name) eqn:E.
  - apply String.eqb_eq in E. subst n. rewrite dict_get_set_same. simpl. lia.
  - apply String.eqb_neq in E. rewrite dict_get_set_other by exact E. lia.
Qed.

(** The same, with the names resolved as the metrics resolve them. *)
Lemma count_cards_named (cards : list card) (lists : list trello_list)
    (d : dict nat) (name : string) :
  get (dict_get (count_cards cards (dict_of list_id list_name lists) d) name)
      0%nat
  = (get (dict_get d name) 0
     + List.length (filter (in_list_named lists name) cards))%nat.
Proof.
  rewrite count_cards_get. f_equal. f_equal.
  apply filter_ext. intros c. unfold in_list_named, counted_in.
  destruct (card_idList c) as [i|]; [|reflexivity].
  now destruct (truthy i).
Qed.

(** [completion_rate] is the share of the cards in a list named "Done". *)
Lemma completion_rate_done (fromisoformat : string -> option datetime)
    (clock : nat -> Z) (cards : list card) (lists : list trello_list)
    (k : nat) :
  sm_completion_rate
    (fst (calculate_sprint_metrics fromisoformat clock cards lists k))
  = if (0 <? List.length cards)%nat
    then num (List.length (filter (in_list_named lists "Done") cards))
         / num (List.length cards) * 100
    else 0.
Proof.
  unfold calculate_sprint_metrics, bind, datetime_now, ret. simpl.
  now rewrite count_cards_named, zero_counts.
Qed.

(** With distinct list ids, a card is in a list of a given name when its
    "idList" is the (non-empty) id of a list of that name. *)
Lemma in_list_named_iff (lists : list trello_list) (name : string) (c : card) :
  NoDup (map list_id lists) ->
  (in_list_named lists name c = true <->
   exists l, In l lists /\ card_idList c = Some (list_id l)
             /\ list_id l <> "" /\ list_name l = name).
Proof.
  intros Hids. unfold in_list_named, counted_in.
  assert (Hnd : NoDup (dict_keys (dict_of list_id list_name lists))).
  { rewrite dict_of_NoDup by exact Hids. unfold dict_keys.
    now rewrite map_map. }
  destruct (card_idList c) as [i|]; simpl.
  - unfold truthy. destruct (i =? "") eqn:Ei; simpl.
    + apply String.eqb_eq in Ei. split; [discriminate|].
      intros (l & _ & E & Hne & _). congruence.
    + apply String.eqb_neq in Ei. rewrite get_eq_true.
      rewrite (dict_get_In _ _ _ Hnd), dict_of_NoDup, in_map_iff
        by exact Hids.
      split.
      * intros (l & E & Hl). inversion E; subst. exists l. auto.
      * intros (l & Hl & E & _ & <-). inversion E. exists l. auto.
  - split; [discriminate | intros (l & _ & E & _); discriminate].
Qed.

Lemma plain_cards_no_blockers (cards : list card) :
  Forall plain_card cards -> filter is_blocker cards = [].
Proof.
  induction 1 as [|c r (Hl & Hc & _) _ IH]; [reflexivity|].
  simpl. unfold is_blocker. rewrite Hl, Hc. simpl. exact IH.
Qed.

Lemma plain_cards_no_due (fromisoformat : string -> option datetime)
    (test : card -> datetime -> bool) (list_map : dict string)
    (cards : list card) :
  Forall plain_card cards -> due_cards fromisoformat test list_map cards = [].
Proof.
  induction 1 as [|c r (_ & _ & Hd) _ IH]; [reflexivity|].
  simpl. destruct (card_due c) as [s|]; [|exact IH].
  simpl in Hd. now rewrite Hd.
Qed.

End Counting.

(** ** C1: the empty snapshot *)

Section EmptySnapshot.

Import DataUtils Analysis.

Variable fromisoformat : string -> option datetime.
Variable clock : nat -> Z.

(** C1. For every snapshot whose card list is empty, whatever its lists and
    whatever the clock reads, [calculate_sprint_metrics] returns
    [total_cards = 0] and [completion_rate = 0], and
    [_calculate_burn_down] returns the string "Cannot estimate" as
    [projected_completion]; and so does [analyze_sprint_data] in its
    results for a snapshot without error. *)
Theorem empty_snapshot_metrics (lists : list trello_list) (k : nat) :
  let metrics :=
    fst (calculate_sprint_metrics fromisoformat clock [] lists k) in
  let burn_down := _calculate_burn_down [] lists in
  sm_total_cards metrics = 0%nat
  /\ sm_completion_rate metrics = 0
  /\ bd_total_points burn_down = 0%nat
  /\ bd_projected_completion burn_down = Text "Cannot estimate"
  /\ (forall b,
         board_error b = None -> board_cards b = Some [] ->
         board_lists b = Some lists ->
         exists r,
           fst (analyze_sprint_data fromisoformat clock b k) = Results r
           /\ sm_total_cards (ar_sprint_metrics r) = 0%nat
           /\ sm_completion_rate (ar_sprint_metrics r) = 0
           /\ bd_projected_completion (ar_burn_down r)
              = Text "Cannot estimate").
Proof.
  intros metrics burn_down. subst metrics burn_down.
  unfold calculate_sprint_metrics, bind, datetime_now, ret. simpl.
  repeat (split; [reflexivity|]).
  intros b Herr Hcards Hlists. unfold analyze_sprint_data.
  assert (Hne : board_is_empty b = false).
  { unfold board_is_empty. rewrite Hcards. simpl. now rewrite !orb_true_r. }
  rewrite Hne, Herr, Hcards, Hlists. simpl.
  eexists. repeat split; reflexivity.
Qed.

End EmptySnapshot.

(** ** C2: blocker detection of the normaliser *)

Section BlockerDetection.

Import DataCollection.

Lemma scan_labels_none (labels : list label) (st : blocker_state) :
  (forall l, In l labels -> ~ red_label l) -> scan_labels labels st = st.
Proof.
  induction labels as [|l r IH]; simpl; intros H; [reflexivity|].
  destruct (get_eq (label_color l) "red") eqn:E.
  - apply get_eq_true in E. exfalso. apply (H l); auto.
  - apply IH. intros l' Hl'. apply H. auto.
Qed.

Lemma scan_labels_first (labels : list label) (st : blocker_state) :
  (exists l, In l labels /\ red_label l) ->
  exists l, first_such red_label labels l
            /\ scan_labels labels st
               = (true, Some ("Red label: " ++ get (label_name l) "Blocker")).
Proof.
  induction labels as [|l r IH]; simpl; intros (x & Hin & Hx); [contradiction|].
  destruct (get_eq (label_color l) "red") eqn:E.
  - exists l. split; [|reflexivity].
    exists [], r. apply get_eq_true in E. repeat split; auto.
  - destruct Hin as [->|Hin].
    + apply get_eq_true in Hx. congruence.
    + destruct IH as (y & (before & after & Heq & Hy & Hb) & Hs); [eauto|].
      exists y. split; [|exact Hs].
      exists (l :: before), after. subst r. repeat split; auto.
      intros z [<-|Hz]; [|auto].
      intros Hr. apply get_eq_true in Hr. congruence.
Qed.

Lemma mentions_blocker_true (cm : comment) :
  str_in "blocker" (lower (comment_text cm)) = true <-> mentions_blocker cm.
Proof. apply str_in_substring. Qed.

Lemma scan_comments_none (comments : list comment) (st : blocker_state) :
  (forall cm, In cm comments -> ~ mentions_blocker cm) ->
  scan_comments comments st = st.
Proof.
  induction comments as [|c r IH]; simpl; intros H; [reflexivity|].
  destruct (str_in "blocker" (lower (comment_text c))) eqn:E.
  - apply mentions_blocker_true in E. exfalso. apply (H c); auto.
  - apply IH. intros c' Hc'. apply H. auto.
Qed.

Lemma scan_comments_first (comments : list comment) (st : blocker_state) :
  (exists cm, In cm comments /\ mentions_blocker cm) ->
  exists cm, first_such mentions_blocker comments cm
             /\ scan_comments comments st
                = (true,
                   Some ("Blocker mentioned in comment: "
                         ++ slice_to 50 (comment_text cm) ++ "...")).
Proof.
  induction comments as [|c r IH]; simpl; intros (x & Hin & Hx);
    [contradiction|].
  destruct (str_in "blocker" (lower (comment_text c))) eqn:E.
  - exists c. split; [|reflexivity].
    exists [], r. apply mentions_blocker_true in E. repeat split; auto.
  - destruct Hin as [->|Hin].
    + apply mentions_blocker_true in Hx. congruence.
    + destruct IH as (y & (before & after & Heq & Hy & Hb) & Hs); [eauto|].
      exists y. split; [|exact Hs].
      exists (c :: before), after. subst r. repeat split; auto.
      intros z [<-|Hz]; [|auto].
      intros Hr. apply mentions_blocker_true in Hr. congruence.
Qed.

(** The comments of a normalised card are the comment actions of the raw
    card, in order. *)
Lemma extract_comments_In (actions : list action) (cm : comment) :
  In cm (extract_comments actions) <->
  exists a, In a actions /\ action_type a = "commentCard"
            /\ cm = mkComment (action_id a) (action_data_text a)
                      (action_date a) (get (action_memberCreator a) []).
Proof.
  induction actions as [|a r IH]; simpl.
  - split; [contradiction | intros (a & [] & _)].
  - destruct (action_type a =? "commentCard") eqn:E.
    + apply String.eqb_eq in E. simpl. rewrite IH. split.
      * intros [<-|(b & Hb & H)]; [exists a; auto | exists b; tauto].
      * intros (b & [<-|Hb] & Ht & ->); [now left | right; eauto].
    + apply String.eqb_neq in E. rewrite IH. split.
      * intros (b & Hb & H). exists b. tauto.
      * intros (b & [<-|Hb] & Ht & Hc); [contradiction | eauto].
Qed.

(** C2. In the normaliser's blocker detection, for every card: when some
    label has colour "red", the card is a blocker and the reason is
    "Red label: " followed by the name of the first red label (or "Blocker"
    when it has none), whatever the comments are; when no label is red and
    some extracted comment's lowercased text contains "blocker", the card is
    a blocker and the reason is "Blocker mentioned in comment: " followed by
    the first 50 characters of the first such comment and "..."; otherwise
    the card is not a blocker and has no reason. *)
Theorem process_card_blocker_detection (c : card)
    (list_map : dict trello_list) (member_map : dict member) :
  let p := _process_card c list_map member_map in
  let labels := get (card_labels c) [] in
  let comments := extracted_comments c in
  card_comments p = Some comments
  /\ ((exists l, In l labels /\ red_label l) ->
      card_isBlocker p = Some true
      /\ exists l, first_such red_label labels l
           /\ card_blockerReason p
              = Some ("Red label: " ++ get (label_name l) "Blocker"))
  /\ ((forall l, In l labels -> ~ red_label l) ->
      (exists cm, In cm comments /\ mentions_blocker cm) ->
      card_isBlocker p = Some true
      /\ exists cm, first_such mentions_blocker comments cm
           /\ card_blockerReason p
              = Some ("Blocker mentioned in comment: "
                      ++ slice_to 50 (comment_text cm) ++ "..."))
  /\ ((forall l, In l labels -> ~ red_label l) ->
      (forall cm, In cm comments -> ~ mentions_blocker cm) ->
      card_isBlocker p = Some false /\ card_blockerReason p = None).
Proof.
  intros p labels comments. subst p. unfold _process_card. simpl.
  fold labels. change (match card_actions c with
                       | Some actions => extract_comments actions
                       | None => []
                       end) with comments.
  split; [reflexivity|]. split; [|split].
  - intros Hred.
    destruct (scan_labels_first labels (false, None) Hred) as (l & Hl & Hs).
    rewrite Hs. simpl. split; [reflexivity|]. exists l. auto.
  - intros Hno Hcm. rewrite (scan_labels_none labels _ Hno). simpl.
    destruct (scan_comments_first comments (false, None) Hcm) as (cm & Hc & Hs).
    rewrite Hs. simpl. split; [reflexivity|]. exists cm. auto.
  - intros Hno Hnc. rewrite (scan_labels_none labels _ Hno). simpl.
    rewrite (scan_comments_none comments _ Hnc). auto.
Qed.

End BlockerDetection.

(** ** C3: the number of recommendations *)

Section RecommendationCount.

Import Analysis.

Lemma set_in_In (c : string) (l : list string) :
  set_in c l = true <-> In c l.
Proof.
  unfold set_in. rewrite existsb_exists. split.
  - intros (x & Hx & E). apply String.eqb_eq in E. now subst.
  - intros H. exists c. split; [exact H | apply String.eqb_refl].
Qed.

Lemma bool_eq_iff (a b : bool) : (a = true <-> b = true) -> a = b.
Proof.
  destruct a, b; intros [H1 H2]; try reflexivity;
    [discriminate (H1 eq_refl) | discriminate (H2 eq_refl)].
Qed.

(** The number of distinct elements of a list drawn from a duplicate-free
    universe is the number of elements of the universe that occur in it. *)
Lemma distinct_count (U l : list string) :
  NoDup U -> (forall x, In x l -> In x U) ->
  List.length (nodup string_dec l)
  = List.length (filter (fun u => set_in u l) U).
Proof.
  intros HU Hl. apply Permutation_length, NoDup_Permutation.
  - apply NoDup_nodup.
  - now apply NoDup_filter.
  - intros x. rewrite nodup_In, filter_In, set_in_In. split; [auto | tauto].
Qed.

Lemma collapse_known (c : string) :
  In c rule_categories ->
  In (collapse c)
     ["completion_rate"; "blockers"; "deadlines"; "workload_imbalance";
      "process_bottlenecks"].
Proof.
  unfold rule_categories. simpl.
  intros [<-|[<-|[<-|[<-|[<-|[<-|[]]]]]]]; cbv; tauto.
Qed.

(** A category other than the deadline ones occurs after collapsing exactly
    when it occurs before. *)
Lemma set_in_collapse_plain (x : string) (cats : list string) :
  collapse x = x -> x <> "deadlines" ->
  set_in x (map collapse cats) = set_in x cats.
Proof.
  intros Hx Hd. apply bool_eq_iff. rewrite !set_in_In, in_map_iff. split.
  - intros (c & Hc & Hin). unfold collapse in Hc.
    destruct ((c =? "approaching_deadlines") || (c =? "overdue"));
      [congruence | now subst].
  - intros H. exists x. auto.
Qed.

Lemma set_in_collapse_deadlines (cats : list string) :
  (forall c, In c cats -> In c rule_categories) ->
  set_in "deadlines" (map collapse cats)
  = set_in "approaching_deadlines" cats || set_in "overdue" cats.
Proof.
  intros Hk. apply bool_eq_iff.
  rewrite orb_true_iff, !set_in_In, in_map_iff. split.
  - intros (c & Hc & Hin). specialize (Hk c Hin).
    unfold rule_categories in Hk. simpl in Hk.
    destruct Hk as [<-|[<-|[<-|[<-|[<-|[<-|[]]]]]]]; try discriminate Hc; auto.
  - intros [H|H]; eexists; (split; [|exact H]); reflexivity.
Qed.

Lemma collapsed_length (risks : list risk) :
  Forall known_risk risks ->
  let cats := map risk_category risks in
  List.length (collapsed_categories risks)
  = (indicator (set_in "completion_rate" cats)
     + indicator (set_in "blockers" cats)
     + indicator (set_in "approaching_deadlines" cats
                  || set_in "overdue" cats)
     + indicator (set_in "workload_imbalance" cats)
     + indicator (set_in "process_bottlenecks" cats))%nat.
Proof.
  intros Hk cats.
  assert (Hc : forall c, In c cats -> In c rule_categories).
  { intros c Hc. apply in_map_iff in Hc. destruct Hc as (r & <- & Hr).
    rewrite Forall_forall in Hk. now apply Hk. }
  unfold collapsed_categories.
  replace (map (fun r => collapse (risk_category r)) risks)
    with (map collapse cats) by (unfold cats; now rewrite map_map).
  rewrite (distinct_count
             ["completion_rate"; "blockers"; "deadlines";
              "workload_imbalance"; "process_bottlenecks"]).
  - cbn [filter].
    rewrite (set_in_collapse_plain "completion_rate"),
      (set_in_collapse_plain "blockers"),
      (set_in_collapse_plain "workload_imbalance"),
      (set_in_collapse_plain "process_bottlenecks")
      by (reflexivity || discriminate).
    rewrite set_in_collapse_deadlines by exact Hc.
    destruct (set_in "completion_rate" cats), (set_in "blockers" cats),
      (set_in "approaching_deadlines" cats || set_in "overdue" cats),
      (set_in "workload_imbalance" cats),
      (set_in "process_bottlenecks" cats); reflexivity.
  - repeat constructor; simpl; intuition discriminate.
  - intros x Hx. apply in_map_iff in Hx. destruct Hx as (c & <- & Hin).
    apply collapse_known. auto.
Qed.

(** A non-empty list of known risks makes some block of the table apply. *)
Lemma some_block_applies (r : risk) (risks : list risk) :
  known_risk r ->
  let cats := map risk_category (r :: risks) in
  set_in "completion_rate" cats || set_in "blockers" cats
  || (set_in "approaching_deadlines" cats || set_in "overdue" cats)
  || set_in "workload_imbalance" cats || set_in "process_bottlenecks" cats
  = true.
Proof.
  intros Hr cats. unfold known_risk, rule_categories in Hr. simpl in Hr.
  assert (H : set_in (risk_category r) cats = true)
    by (apply set_in_In; now left).
  repeat rewrite orb_true_iff.
  destruct Hr as [E|[E|[E|[E|[E|[E|[]]]]]]]; rewrite <- E in H; tauto.
Qed.

(** C3. For every list of risks (each with a category of the risk table),
    the number of recommendations [_generate_recommendations] returns is the
    number of distinct risk categories after collapsing
    "approaching_deadlines" and "overdue" into one, and is exactly 1 (the
    fallback) when the list is empty. *)
Theorem recommendation_count (risks : list risk) (sm : DataUtils.sprint_metrics)
    (tp : DataUtils.team_performance) (pb : DataUtils.process_bottlenecks) :
  Forall known_risk risks ->
  List.length (_generate_recommendations risks sm tp pb)
  = match risks with
    | [] => 1%nat
    | _ => List.length (collapsed_categories risks)
    end.
Proof.
  intros Hk. destruct risks as [|r risks]; [reflexivity|].
  rewrite (collapsed_length _ Hk).
  pose proof (some_block_applies r risks (Forall_inv Hk)) as Hsome.
  unfold _generate_recommendations.
  cbv zeta in Hsome |- *.
  destruct (set_in "completion_rate" (map risk_category (r :: risks))),
    (set_in "blockers" (map risk_category (r :: risks))),
    (set_in "approaching_deadlines" (map risk_category (r :: risks))),
    (set_in "overdue" (map risk_category (r :: risks))),
    (set_in "workload_imbalance" (map risk_category (r :: risks))),
    (set_in "process_bottlenecks" (map risk_category (r :: risks)));
    try discriminate Hsome; reflexivity.
Qed.

End RecommendationCount.

(** ** C4: propagation of an upstream error *)

Section ErrorPropagation.

Import DataCollection Analysis.

Variable fromisoformat : string -> option datetime.
Variable clock : nat -> Z.

(** C4. For every snapshot that carries an error indicator,
    [analyze_sprint_data] and [process_trello_data] return exactly the
    dictionary [{"error": msg}] with the message of the input and no other
    key; nothing is computed, and the clock is not read. *)
Theorem error_propagation (b : board) (msg : string) (k : nat) :
  board_error b = Some msg ->
  analyze_sprint_data fromisoformat clock b k = (ErrorOnly msg, k)
  /\ process_trello_data b = error_board msg.
Proof.
  intros H. unfold analyze_sprint_data, process_trello_data.
  rewrite H. simpl. rewrite !orb_true_r. split; reflexivity.
Qed.

End ErrorPropagation.

(** ** C5: members with a high workload *)

Section HighWorkload.

Import DataUtils.

Variable fromisoformat : string -> option datetime.
Variable clock : nat -> Z.

Lemma assign_NoDup (member_map : dict string) (c : card) (member_id : string)
    (d : dict member_stats) (k : nat) :
  NoDup (dict_keys d) ->
  NoDup (dict_keys
           (fst (assign fromisoformat clock member_map c member_id d k))).
Proof.
  intros H. unfold assign, bind, ret.
  destruct (overdue_check fromisoformat clock c k) as [overdue k']. simpl.
  apply dict_set_NoDup.
  destruct (dict_mem d (get (dict_get member_map member_id) "Unknown"));
    [exact H | now apply dict_set_NoDup].
Qed.

(** The members referenced by the cards have distinct names in
    [cards_by_member]. *)
Lemma cards_by_member_NoDup (cards : list card) (members : list member)
    (k : nat) :
  NoDup (dict_keys
           (tp_cards_by_member
              (fst (analyze_team_performance fromisoformat clock cards
                      members k)))).
Proof.
  unfold analyze_team_performance, bind, ret.
  set (member_map := dict_of member_id display_name members).
  pose proof (for_each_invariant (fun d => NoDup (dict_keys d))
                (fun c =>
                   for_each (get (card_idMembers c) [])
                     (assign fromisoformat clock member_map c))
                cards) as Hloop.
  specialize (Hloop
    (fun c s k0 Hs =>
       for_each_invariant (fun d => NoDup (dict_keys d))
         (assign fromisoformat clock member_map c)
         (get (card_idMembers c) [])
         (fun x s1 k1 => assign_NoDup member_map c x s1 k1) s k0 Hs)
    [] k (NoDup_nil _)).
  cbv beta in Hloop. revert Hloop. name_loop d k'. simpl.
  unfold dict_keys. now rewrite map_map.
Qed.

(** What an assignment does to the totals and to the names. *)
Lemma assign_total (member_map : dict string) (c : card) (member_id : string)
    (d : dict member_stats) (k : nat) (name : string) :
  let assigned := get (dict_get member_map member_id) "Unknown" in
  let d' := fst (assign fromisoformat clock member_map c member_id d k) in
  total_of d' name
  = (total_of d name + indicator (String.eqb assigned name))%nat
  /\ (In name (dict_keys d') <-> name = assigned \/ In name (dict_keys d)).
Proof.
  intros assigned d'. subst d'. unfold assign, bind, ret. fold assigned.
  destruct (overdue_check fromisoformat clock c k) as [overdue k']. simpl.
  set (d0 := if dict_mem d assigned then d
             else dict_set d assigned new_stats).
  assert (Hget : ms_total (get (dict_get d0 assigned) new_stats)
                 = total_of d assigned).
  { subst d0. unfold total_of, dict_mem.
    destruct (dict_get d assigned) as [st|] eqn:E; simpl.
    - now rewrite E.
    - now rewrite dict_get_set_same. }
  split.
  - unfold total_of at 1. destruct (assigned =? name) eqn:E.
    + apply String.eqb_eq in E. subst name. rewrite dict_get_set_same.
      destruct (get_eq (card_listName c) "Done"), overdue; simpl;
        rewrite Hget; reflexivity.
    + apply String.eqb_neq in E. rewrite dict_get_set_other by exact E.
      subst d0. simpl. rewrite Nat.add_0_r. unfold total_of.
      destruct (dict_mem d assigned); [reflexivity|].
      now rewrite dict_get_set_other.
  - rewrite dict_set_keys_In. subst d0.
    destruct (dict_mem d assigned); [tauto|].
    rewrite dict_set_keys_In. tauto.
Qed.

Lemma assign_counts (member_map : dict string) (c : card)
    (names : list string) (member_id : string) (d : dict member_stats)
    (k : nat) :
  counts_assignments names d ->
  counts_assignments
    (names ++ [get (dict_get member_map member_id) "Unknown"])
    (fst (assign fromisoformat clock member_map c member_id d k)).
Proof.
  intros H name. destruct (H name) as [Ht Hk].
  destruct (assign_total member_map c member_id d k name) as [Et Ek].
  split.
  - rewrite Et, Ht, count_occ_app. simpl. f_equal.
    destruct (string_dec (get (dict_get member_map member_id) "Unknown") name)
      as [E|E].
    + apply String.eqb_eq in E. now rewrite E.
    + apply String.eqb_neq in E. now rewrite E.
  - rewrite Ek, Hk, in_app_iff. simpl. intuition.
Qed.

Lemma loops_count_assignments (cards : list card) (members : list member)
    (k : nat) :
  counts_assignments (assignments members cards)
    (fst (for_each cards
            (fun c =>
               for_each (get (card_idMembers c) [])
                 (assign fromisoformat clock
                    (dict_of member_id display_name members) c))
            [] k)).
Proof.
  set (member_map := dict_of member_id display_name members).
  pose proof (for_each_fold counts_assignments
                (fun names c =>
                   names ++ map (member_name_of members)
                              (get (card_idMembers c) []))%list
                (fun c =>
                   for_each (get (card_idMembers c) [])
                     (assign fromisoformat clock member_map c))
                cards) as Hloop.
  assert (Hinit : counts_assignments [] []).
  { intros name. split; [reflexivity | simpl; tauto]. }
  assert (Hstep : forall names c d k0,
             counts_assignments names d ->
             counts_assignments
               (names ++ map (member_name_of members)
                           (get (card_idMembers c) []))%list
               (fst (for_each (get (card_idMembers c) [])
                       (assign fromisoformat clock member_map c) d k0))).
  { intros names c d k0 H. rewrite <- fold_left_app_map.
    apply (for_each_fold counts_assignments
             (fun names i => names ++ [member_name_of members i])%list
             (assign fromisoformat clock member_map c)); [|exact H].
    intros g i s k1 Hg. now apply assign_counts. }
  specialize (Hloop Hstep [] [] k Hinit).
  rewrite fold_left_app_flat_map in Hloop. exact Hloop.
Qed.

Lemma with_completion_rate_total (d : dict member_stats) (name : string) :
  total_of (map (fun kv => (fst kv, with_completion_rate (snd kv))) d) name
  = total_of d name.
Proof.
  unfold total_of. induction d as [|[k0 st] r IH]; simpl; [reflexivity|].
  destruct (k0 =? name); [reflexivity | exact IH].
Qed.

(** The total of a referenced member is the number of assignments of cards
    to its name, and the referenced members are the names assigned. *)
Lemma member_totals (cards : list card) (members : list member) (k : nat) :
  counts_assignments (assignments members cards)
    (tp_cards_by_member
       (fst (analyze_team_performance fromisoformat clock cards members k))).
Proof.
  pose proof (loops_count_assignments cards members k) as H.
  unfold analyze_team_performance, bind, ret. revert H.
  name_loop d k'. simpl. intros H name. destruct (H name) as [Ht Hk].
  rewrite with_completion_rate_total. split; [exact Ht|].
  unfold dict_keys in *. now rewrite map_map.
Qed.

(** Adding up, over distinct names that cover a list, how often each
    occurs in the list gives the length of the list. *)
Lemma count_occ_absent (x : string) (l keys : list string) :
  ~ In x keys ->
  sum (map (count_occ string_dec (x :: l)) keys)
  = sum (map (count_occ string_dec l) keys).
Proof.
  induction keys as [|key keys IH]; intros Hx; [reflexivity|].
  cbn [map]. rewrite !sum_cons, IH by (intros H; apply Hx; now right).
  f_equal. simpl. destruct (string_dec x key) as [->|_]; [|reflexivity].
  elim Hx. now left.
Qed.

Lemma count_occ_present (x : string) (l keys : list string) :
  NoDup keys -> In x keys ->
  sum (map (count_occ string_dec (x :: l)) keys)
  = S (sum (map (count_occ string_dec l) keys)).
Proof.
  induction 1 as [|key keys Hnot Hnd IH]; intros Hx; [elim Hx|].
  cbn [map]. rewrite !sum_cons. destruct (string_dec x key) as [->|Hne].
  - rewrite count_occ_absent by exact Hnot. simpl.
    destruct (string_dec key key) as [_|H]; [lia | now elim H].
  - destruct Hx as [->|Hx]; [now elim Hne|]. rewrite IH by exact Hx.
    simpl. destruct (string_dec x key) as [E|_]; [now elim Hne | lia].
Qed.

Lemma count_occ_keys (l keys : list string) :
  NoDup keys -> (forall x, In x l -> In x keys) ->
  sum (map (count_occ string_dec l) keys) = List.length l.
Proof.
  intros Hnd. induction l as [|x l IH]; intros Hin.
  - clear. induction keys as [|key keys IH]; [reflexivity|].
    cbn [map]. now rewrite sum_cons, IH.
  - rewrite count_occ_present; [|exact Hnd | apply Hin; now left].
    simpl. f_equal. apply IH. intros y Hy. apply Hin. now right.
Qed.

(** C5. For every card list and member list: the members referenced are
    exactly the names the cards are assigned to, each once; the total of
    each is the number of its assignments, and the average is the sum of the
    totals divided by the number of referenced members (0 when there is
    none), that is the number of assignments divided by the number of
    distinct names assigned.  [members_with_high_workload] is non-empty
    exactly when the total of some referenced member is strictly above 1.5
    times the average; a referenced member is flagged exactly when its total
    is, so the names flagged are the assigned names whose number of
    assignments is strictly above 1.5 times the average; and a member whose
    total equals 1.5 times the average is not flagged. *)
Theorem high_workload_iff (cards : list card) (members : list member)
    (k : nat) :
  let r := fst (analyze_team_performance fromisoformat clock cards members k) in
  let by_member := tp_cards_by_member r in
  let threshold := tp_avg_cards_per_member r * 1.5 in
  let flagged := map we_name (tp_members_with_high_workload r) in
  let names := assignments members cards in
  (forall name stats,
      In (name, stats) by_member ->
      In name (assignments members cards)
      /\ ms_total stats
         = count_occ string_dec (assignments members cards) name)
  /\ tp_avg_cards_per_member r = average (map ms_total (dict_values by_member))
  /\ (tp_members_with_high_workload r <> [] <->
      exists name stats,
        In (name, stats) by_member /\ threshold < num (ms_total stats))
  /\ (forall name stats,
         In (name, stats) by_member ->
         (In name flagged <-> threshold < num (ms_total stats)))
  /\ (forall name stats,
         In (name, stats) by_member ->
         num (ms_total stats) == threshold -> ~ In name flagged)
  /\ NoDup (dict_keys by_member)
  /\ (forall name, In name (dict_keys by_member) <-> In name names)
  /\ sum (map ms_total (dict_values by_member)) = List.length names
  /\ tp_member_count r = List.length (nodup string_dec names)
  /\ tp_avg_cards_per_member r
     = match names with
       | [] => 0
       | _ => num (List.length names)
              / num (List.length (nodup string_dec names))
       end
  /\ (forall name,
         In name flagged <->
         In name names
         /\ threshold < num (count_occ string_dec names name))
  /\ (tp_members_with_high_workload r <> [] <->
      exists name,
        In name names /\ threshold < num (count_occ string_dec names name))
  /\ (forall name,
         In name names ->
         num (count_occ string_dec names name) == threshold ->
         ~ In name flagged).
Proof.
  intros r by_member threshold flagged names.
  pose proof (cards_by_member_NoDup cards members k) as Hnd.
  fold r in Hnd. fold by_member in Hnd.
  assert (Hkeys : forall name,
             In name (dict_keys by_member) <-> In name names).
  { intros name. destruct (member_totals cards members k name) as [_ Hk].
    exact Hk. }
  assert (Htot : forall name stats,
             In (name, stats) by_member ->
             In name (assignments members cards)
             /\ ms_total stats
                = count_occ string_dec (assignments members cards) name).
  { intros name stats Hin.
    destruct (member_totals cards members k name) as [Ht Hk].
    fold r in Ht, Hk. fold by_member in Ht, Hk. split.
    - apply Hk. change name with (fst (name, stats)). now apply in_map.
    - rewrite <- Ht. unfold total_of.
      apply (dict_get_In _ _ _ Hnd) in Hin. now rewrite Hin. }
  assert (Havg : tp_avg_cards_per_member r
                 = average (map ms_total (dict_values by_member))).
  { subst by_member r. unfold analyze_team_performance, bind, ret.
    name_loop d k'. simpl.
    destruct d as [|kv d]; [reflexivity|]. unfold average, dict_values.
    simpl. now rewrite !length_map. }
  assert (Hflag : forall name stats,
             In (name, stats) by_member ->
             (In name flagged <-> threshold < num (ms_total stats))).
  { intros name stats Hin. rewrite <- Qlt_bool_iff.
    subst flagged threshold by_member r.
    revert Hnd Hin. unfold analyze_team_performance, bind, ret.
    name_loop d k'. simpl. intros Hnd Hin.
    apply (flagged_names _
             (fun kv => Qlt_bool _ (num (ms_total (snd kv))))
             _ we_name name stats); auto. }
  assert (Hentry : forall name,
             In name names -> exists stats, In (name, stats) by_member).
  { intros name Hin. apply Hkeys in Hin. unfold dict_keys in Hin.
    apply in_map_iff in Hin. destruct Hin as ([n stats] & E & Hin).
    simpl in E. subst n. now exists stats. }
  assert (Hsrc : forall name,
             In name flagged -> exists stats, In (name, stats) by_member).
  { intros name. subst flagged by_member r.
    unfold analyze_team_performance, bind, ret.
    name_loop d k'. simpl. intros Hin. rewrite map_map in Hin.
    apply in_map_iff in Hin. destruct Hin as ([n st] & E & Hf).
    simpl in E. subst n. apply filter_In in Hf. exists st. tauto. }
  assert (Hsum : sum (map ms_total (dict_values by_member))
                 = List.length names).
  { rewrite <- (count_occ_keys names (dict_keys by_member) Hnd)
      by (intros x Hx; now apply Hkeys).
    f_equal. unfold dict_values, dict_keys. rewrite !map_map.
    apply map_ext_in. intros [name stats] Hin. simpl.
    now destruct (Htot name stats Hin). }
  assert (Hcount : tp_member_count r = List.length (nodup string_dec names)).
  { assert (E : tp_member_count r = List.length (dict_keys by_member)).
    { subst by_member r. unfold analyze_team_performance, bind, ret.
      name_loop d k'. simpl. unfold dict_keys. now rewrite !length_map. }
    rewrite E. apply Permutation_length.
    apply NoDup_Permutation; [exact Hnd | apply NoDup_nodup|].
    intros x. rewrite nodup_In. apply Hkeys. }
  assert (Hflagged : forall name,
             In name flagged <->
             In name names
             /\ threshold < num (count_occ string_dec names name)).
  { intros name. split.
    - intros Hin. destruct (Hsrc name Hin) as (stats & Hs).
      destruct (Htot name stats Hs) as [Hn Ht]. split; [exact Hn|].
      fold names in Ht. rewrite <- Ht. now apply (Hflag name stats Hs).
    - intros [Hn Hlt]. destruct (Hentry name Hn) as (stats & Hs).
      apply (Hflag name stats Hs).
      destruct (Htot name stats Hs) as [_ Ht]. fold names in Ht.
      now rewrite Ht. }
  assert (Hsome : tp_members_with_high_workload r <> [] <->
                  exists name, In name flagged).
  { split.
    - intros Hne. apply nonempty_In in Hne. destruct Hne as [e He].
      exists (we_name e). now apply in_map.
    - intros (name & Hin) E. subst flagged. rewrite E in Hin. exact Hin. }
  split; [exact Htot|].
  split; [exact Havg|]. split; [|split; [exact Hflag|split]].
  - rewrite Hsome. split.
    + intros (name & Hin). destruct (Hsrc name Hin) as (stats & Hs).
      exists name, stats. split; [exact Hs | now apply (Hflag _ _ Hs)].
    + intros (name & stats & Hin & Hlt). exists name.
      now apply (Hflag _ _ Hin).
  - intros name stats Hin Heq Hf. apply (Hflag _ _ Hin) in Hf.
    rewrite Heq in Hf. exact (Qlt_irrefl _ Hf).
  - split; [exact Hnd|]. split; [exact Hkeys|]. split; [exact Hsum|].
    split; [exact Hcount|]. split; [|split; [exact Hflagged|split]].
    + rewrite Havg. unfold average.
      assert (Hlen : List.length (map ms_total (dict_values by_member))
                     = List.length (nodup string_dec names)).
      { rewrite <- Hcount. subst by_member r.
        unfold analyze_team_performance, bind, ret.
        name_loop d k'. simpl. unfold dict_values.
        now rewrite !length_map. }
      rewrite Hsum, Hlen.
      destruct (map ms_total (dict_values by_member)) as [|n ns] eqn:E.
      * simpl in Hsum. destruct names; [reflexivity | discriminate].
      * destruct names as [|x xs]; [discriminate | reflexivity].
    + rewrite Hsome. split.
      * intros (name & Hin). exists name. now apply Hflagged.
      * intros (name & Hin). exists name. now apply Hflagged.
    + intros name Hn Heq Hf. apply Hflagged in Hf. destruct Hf as [_ Hf].
      rewrite Heq in Hf. exact (Qlt_irrefl _ Hf).
Qed.

End HighWorkload.

(** ** C6: process bottlenecks *)

Section Bottlenecks.

Import DataUtils.

Lemma fold_dict_set_NoDup {A V : Type} (key : A -> string) (val : A -> V)
    (xs : list A) (d : dict V) :
  NoDup (dict_keys d) ->
  NoDup (dict_keys (fold_left (fun d x => dict_set d (key x) (val x)) xs d)).
Proof.
  revert d. induction xs as [|x r IH]; intros d H; [exact H|].
  simpl. apply IH. now apply dict_set_NoDup.
Qed.

Lemma count_cards_NoDup (cards : list card) (list_map : dict string)
    (d : dict nat) :
  NoDup (dict_keys d) -> NoDup (dict_keys (count_cards cards list_map d)).
Proof.
  revert d. induction cards as [|c r IH]; intros d H; [exact H|].
  simpl. destruct (card_idList c) as [i|]; [|auto].
  destruct (truthy i); [|auto].
  destruct (dict_get list_map i); [|auto].
  apply IH. now apply dict_set_NoDup.
Qed.

(** The counting loop adds no key when every list name is one already. *)
Lemma count_cards_keys_In (cards : list card) (list_map : dict string)
    (d : dict nat) (k : string) :
  (forall i n, dict_get list_map i = Some n -> In n (dict_keys d)) ->
  (In k (dict_keys (count_cards cards list_map d)) <-> In k (dict_keys d)).
Proof.
  revert d. induction cards as [|c r IH]; intros d H; simpl; [tauto|].
  destruct (card_idList c) as [i|]; [|auto].
  destruct (truthy i); [|auto].
  destruct (dict_get list_map i) as [n|] eqn:E; [|auto].
  rewrite IH.
  - rewrite dict_set_keys_In. specialize (H i n E).
    split; [intros [->|Hk]; auto | auto].
  - intros i' n' E'. apply dict_set_keys_In. right. eauto.
Qed.

(** The detector resolves the list of a card as the metrics do. *)
Lemma bottleneck_list_map (lists : list trello_list) :
  map (fun kv => (fst kv, fst (snd kv)))
      (dict_of list_id (fun l => (list_name l, get (list_pos l) 0)) lists)
  = dict_of list_id list_name lists.
Proof.
  exact (dict_of_map list_id (fun l => (list_name l, get (list_pos l) 0))
           fst lists).
Qed.

Lemma bottleneck_counts_NoDup (cards : list card) (lists : list trello_list) :
  NoDup (dict_keys
           (pb_cards_by_list (identify_process_bottlenecks cards lists))).
Proof.
  unfold identify_process_bottlenecks. simpl.
  apply count_cards_NoDup.
  apply (fold_dict_set_NoDup (fun kv => fst (snd kv)) (fun _ => 0%nat)).
  constructor.
Qed.

(** The count of a list name is the number of cards in a list of that
    name. *)
Lemma bottleneck_counts (cards : list card) (lists : list trello_list)
    (name : string) (count : nat) :
  In (name, count)
     (pb_cards_by_list (identify_process_bottlenecks cards lists)) ->
  count = List.length (filter (in_list_named lists name) cards).
Proof.
  intros Hin.
  apply (dict_get_In _ _ _ (bottleneck_counts_NoDup cards lists)) in Hin.
  apply (f_equal (fun o => get o 0%nat)) in Hin. simpl in Hin.
  rewrite <- Hin. unfold identify_process_bottlenecks. simpl.
  rewrite bottleneck_list_map, count_cards_named.
  now rewrite (zero_counts (fun kv => fst (snd kv))).
Qed.

(** When the lists have distinct ids, the names counted are the names of
    the lists. *)
Lemma bottleneck_keys (cards : list card) (lists : list trello_list)
    (name : string) :
  NoDup (map list_id lists) ->
  (In name
      (dict_keys (pb_cards_by_list (identify_process_bottlenecks cards lists)))
   <-> In name (map list_name lists)).
Proof.
  intros Hids. unfold identify_process_bottlenecks. simpl.
  rewrite bottleneck_list_map.
  assert (Hnames :
            forall n,
              In n (map (fun kv : string * (string * Q) => fst (snd kv))
                      (dict_of list_id
                         (fun l => (list_name l, get (list_pos l) 0)) lists))
              <-> In n (map list_name lists)).
  { intros n. rewrite dict_of_NoDup by exact Hids. now rewrite map_map. }
  rewrite count_cards_keys_In.
  - rewrite fold_dict_set_keys_In. simpl. rewrite Hnames. tauto.
  - intros i n E. apply fold_dict_set_keys_In. right. apply Hnames.
    apply dict_get_Some_In in E. rewrite dict_of_NoDup in E by exact Hids.
    apply in_map_iff in E. destruct E as (l & El & Hl). inversion El.
    now apply in_map.
Qed.

(** The average and the bottlenecks are computed from the counts alone. *)
Lemma bottlenecks_of_counts (cards : list card) (lists : list trello_list) :
  let r := identify_process_bottlenecks cards lists in
  let avg := average (dict_values (pb_cards_by_list r)) in
  pb_avg_cards_per_list r = avg
  /\ pb_bottlenecks r
     = map (fun kv =>
              mkBottleneck (fst kv) (snd kv)
                (if Qlt_bool 0 avg then num (snd kv) / avg else 0))
           (filter (fun kv => Qlt_bool (avg * 1.5) (num (snd kv)))
                   (pb_cards_by_list r)).
Proof.
  intros r avg.
  assert (E : pb_avg_cards_per_list r = avg).
  { subst avg r. unfold identify_process_bottlenecks. simpl.
    match goal with
    | |- context [count_cards ?c ?m ?d] => destruct (count_cards c m d)
    end; [reflexivity|].
    unfold average, dict_values. simpl. now rewrite !length_map. }
  split; [exact E|]. rewrite <- E. reflexivity.
Qed.

(** C6. In [identify_process_bottlenecks] every list name has one count, the
    number of cards in a list of that name; the average is the sum of these
    counts divided by their number (0 when there is none), which is the
    number of distinct list names when the lists have distinct ids; and a
    list is reported as a bottleneck exactly when its count is strictly
    above 1.5 times the average.  In particular, when the counts of four
    lists are 1, 1, 1 and 17, the average is 5, the only bottleneck is the
    list with 17 cards, and its [ratio_to_avg] is 3.4. *)
Theorem bottleneck_iff (cards : list card) (lists : list trello_list) :
  let r := identify_process_bottlenecks cards lists in
  let counts := pb_cards_by_list r in
  let avg := pb_avg_cards_per_list r in
  let flagged := map bn_list_name (pb_bottlenecks r) in
  NoDup (dict_keys counts)
  /\ (forall name count,
         In (name, count) counts ->
         count = List.length (filter (in_list_named lists name) cards))
  /\ (NoDup (map list_id lists) ->
      forall name, In name (dict_keys counts) <-> In name (map list_name lists))
  /\ avg = average (dict_values counts)
  /\ (forall name count,
         In (name, count) counts ->
         (In name flagged <-> avg * 1.5 < num count))
  /\ (forall a b c d,
         counts = [(a, 1%nat); (b, 1%nat); (c, 1%nat); (d, 17%nat)] ->
         avg == 5
         /\ exists ratio,
              pb_bottlenecks r = [mkBottleneck d 17 ratio] /\ ratio == 3.4).
Proof.
  intros r counts avg flagged.
  destruct (bottlenecks_of_counts cards lists) as [Havg Hb].
  fold r in Havg, Hb. fold counts in Havg, Hb.
  pose proof (bottleneck_counts_NoDup cards lists) as Hnd.
  fold r in Hnd. fold counts in Hnd.
  split; [exact Hnd|].
  split; [exact (bottleneck_counts cards lists)|].
  split; [intros Hids name; now apply bottleneck_keys|].
  split; [exact Havg|]. split.
  - intros name count Hin. rewrite <- Qlt_bool_iff.
    subst flagged avg. rewrite Hb, Havg.
    apply (flagged_names counts
             (fun kv => Qlt_bool _ (num (snd kv))) _ bn_list_name name count);
      auto.
  - intros a b c d Hc. subst avg. rewrite Hb, Havg, Hc. split.
    + reflexivity.
    + eexists. split; [vm_compute; reflexivity | reflexivity].
Qed.

End Bottlenecks.

(** ** C7: ten cards, three of them done *)

Section LowCompletion.

Import DataUtils Analysis.

Variable fromisoformat : string -> option datetime.
Variable clock : nat -> Z.

(** The metrics of the scenario. *)
Lemma scenario_metrics (cards : list card) (lists : list trello_list)
    (k : nat) :
  List.length cards = 10%nat ->
  List.length (filter (in_list_named lists "Done") cards) = 3%nat ->
  Forall plain_card cards ->
  let sm := fst (calculate_sprint_metrics fromisoformat clock cards lists k) in
  sm_completion_rate sm = num 3 / num 10 * 100
  /\ sm_blockers sm = [] /\ sm_approaching_deadlines sm = []
  /\ sm_overdue_cards sm = [].
Proof.
  intros Hlen Hdone Hplain sm. split.
  - subst sm. rewrite completion_rate_done, Hlen, Hdone. reflexivity.
  - subst sm. unfold calculate_sprint_metrics, bind, datetime_now, ret. simpl.
    rewrite plain_cards_no_blockers, !plain_cards_no_due by exact Hplain.
    auto.
Qed.

(** The risks of the scenario: the completion rate, and what the team
    performance and the bottlenecks add. *)
Lemma scenario_risks (cards : list card) (sm : sprint_metrics)
    (tp : team_performance) (pb : process_bottlenecks) :
  sm_completion_rate sm = num 3 / num 10 * 100 ->
  sm_blockers sm = [] -> sm_approaching_deadlines sm = [] ->
  sm_overdue_cards sm = [] ->
  exists low,
    risk_category low = "completion_rate" /\ risk_severity low = "high"
    /\ exists more,
         _identify_risks cards sm tp pb = low :: more
         /\ map risk_category more
            = ((if nonempty (tp_members_with_high_workload tp)
                then ["workload_imbalance"] else [])
               ++ (if nonempty (pb_bottlenecks pb)
                   then ["process_bottlenecks"] else []))%list.
Proof.
  intros Hrate Hb Ha Ho. unfold _identify_risks.
  rewrite Hrate, Hb, Ha, Ho.
  change (Qlt_bool (num 3 / num 10 * 100) 70) with true.
  change (Qlt_bool (num 3 / num 10 * 100) 50) with true.
  cbn [when nonempty app].
  eexists. split; [|split]; [| |eexists; split; [reflexivity|]].
  - reflexivity.
  - reflexivity.
  - destruct (nonempty (tp_members_with_high_workload tp)),
      (nonempty (pb_bottlenecks pb)); reflexivity.
Qed.

Lemma scenario_recommendations (low : risk) (more : list risk)
    (sm : sprint_metrics) (tp : team_performance) (pb : process_bottlenecks)
    (workload bottlenecks : bool) :
  risk_category low = "completion_rate" ->
  map risk_category more
  = ((if workload then ["workload_imbalance"] else [])
     ++ (if bottlenecks then ["process_bottlenecks"] else []))%list ->
  map rec_category (_generate_recommendations (low :: more) sm tp pb)
  = ("completion_rate"
     :: (if workload then ["workload"] else [])
     ++ (if bottlenecks then ["process"] else []))%list.
Proof.
  intros Hlow Hmore. unfold _generate_recommendations.
  cbn [map]. rewrite Hlow, Hmore.
  destruct workload, bottlenecks; reflexivity.
Qed.

#[local] Opaque identify_process_bottlenecks _identify_risks
  _generate_recommendations _calculate_burn_down _calculate_velocity.

(** C7, as the code has it.  For every snapshot of 10 cards of which exactly
    3 are in a list named "Done", with no labels, no comments and no due
    dates, the analysis yields a completion rate of 30, a first risk of
    category "completion_rate" and severity "high", and no risk for
    blockers or deadlines; the other risks are those of the workload and of
    the bottlenecks, and there is one recommendation for each risk: exactly
    one, of category "completion_rate", when no member has a high workload
    and no list is a bottleneck. *)
Theorem low_completion_scenario (b : board) (cards : list card)
    (lists : list trello_list) (k : nat) :
  board_error b = None ->
  board_cards b = Some cards ->
  board_lists b = Some lists ->
  List.length cards = 10%nat ->
  List.length (filter (in_list_named lists "Done") cards) = 3%nat ->
  Forall plain_card cards ->
  exists r low more,
    fst (analyze_sprint_data fromisoformat clock b k) = Results r
    /\ sm_completion_rate (ar_sprint_metrics r) == 30
    /\ ar_risks r = low :: more
    /\ risk_category low = "completion_rate" /\ risk_severity low = "high"
    /\ (let workload :=
          nonempty (tp_members_with_high_workload (ar_team_performance r)) in
        let bottlenecks :=
          nonempty (pb_bottlenecks (ar_process_bottlenecks r)) in
        map risk_category more
        = ((if workload then ["workload_imbalance"] else [])
           ++ (if bottlenecks then ["process_bottlenecks"] else []))%list
        /\ map rec_category (ar_recommendations r)
           = ("completion_rate"
              :: (if workload then ["workload"] else [])
              ++ (if bottlenecks then ["process"] else []))%list
        /\ (workload = false -> bottlenecks = false ->
            List.length (ar_recommendations r) = 1%nat)).
Proof.
  intros Herr Hcards Hlists Hlen Hdone Hplain.
  unfold analyze_sprint_data.
  assert (Hne : board_is_empty b = false).
  { unfold board_is_empty. rewrite Hcards. simpl.
    now rewrite !orb_true_r. }
  rewrite Hne, Herr, Hcards, Hlists. simpl. unfold bind.
  pose proof (scenario_metrics cards lists k Hlen Hdone Hplain) as Hsm.
  destruct (calculate_sprint_metrics fromisoformat clock cards lists k)
    as [sm k1].
  destruct (analyze_team_performance fromisoformat clock cards
              (get (board_members b) []) k1) as [tp k2].
  simpl in Hsm. destruct Hsm as (Hrate & Hb & Ha & Ho). simpl.
  set (pb := identify_process_bottlenecks cards lists).
  destruct (scenario_risks cards sm tp pb Hrate Hb Ha Ho)
    as (low & Hcat & Hsev & more & Hrisks & Hmore).
  eexists. exists low, more. split; [reflexivity|]. simpl.
  split; [rewrite Hrate; reflexivity|].
  split; [exact Hrisks|]. split; [exact Hcat|]. split; [exact Hsev|].
  rewrite Hrisks.
  pose proof (scenario_recommendations low more sm tp pb _ _ Hcat Hmore)
    as Hrec.
  split; [exact Hmore|]. split; [exact Hrec|].
  intros Hw Hbn. rewrite <- (length_map rec_category), Hrec, Hw, Hbn.
  reflexivity.
Qed.

#[local] Transparent identify_process_bottlenecks _identify_risks
  _generate_recommendations _calculate_burn_down _calculate_velocity.

End LowCompletion.

(** ** C8: what a run depends on *)

Section Determinism.

Import DataUtils Analysis.

Variable fromisoformat : string -> option datetime.
Variables clock1 clock2 : nat -> Z.

Lemma agree_later (k1 k2 n : nat) :
  agree clock1 clock2 k1 k2 -> agree clock1 clock2 (k1 + n) (k2 + n).
Proof. intros H m. rewrite <- !Nat.add_assoc. apply H. Qed.

Lemma related_ret {A : Type} (a : A) : same_run clock1 clock2 (ret a) (ret a).
Proof. intros k1 k2 _. split; [reflexivity|]. exists 0%nat. simpl. lia. Qed.

Lemma related_now :
  same_run clock1 clock2 (datetime_now clock1) (datetime_now clock2).
Proof.
  intros k1 k2 H. unfold datetime_now. simpl. split.
  - f_equal. specialize (H 0%nat). now rewrite !Nat.add_0_r in H.
  - exists 1%nat. lia.
Qed.

Lemma related_bind {A B : Type} (m1 m2 : M A) (f1 f2 : A -> M B) :
  same_run clock1 clock2 m1 m2 ->
  (forall a, same_run clock1 clock2 (f1 a) (f2 a)) ->
  same_run clock1 clock2 (bind m1 f1) (bind m2 f2).
Proof.
  intros Hm Hf k1 k2 H. unfold bind.
  destruct (Hm k1 k2 H) as (Ea & n & E1 & E2).
  destruct (m1 k1) as [a1 k1'], (m2 k2) as [a2 k2']. simpl in *. subst.
  destruct (Hf a2 (k1 + n)%nat (k2 + n)%nat (agree_later _ _ n H))
    as (Eb & n' & E1 & E2).
  split; [exact Eb|]. exists (n + n')%nat. rewrite E1, E2. lia.
Qed.

Lemma related_for_each {A S : Type} (xs : list A)
    (body1 body2 : A -> S -> M S) :
  (forall x s, same_run clock1 clock2 (body1 x s) (body2 x s)) ->
  forall s, same_run clock1 clock2 (for_each xs body1 s) (for_each xs body2 s).
Proof.
  intros Hbody. induction xs as [|x r IH]; intros s; simpl.
  - apply related_ret.
  - apply related_bind; [apply Hbody | exact IH].
Qed.

Lemma related_overdue_check (c : card) :
  same_run clock1 clock2 (overdue_check fromisoformat clock1 c)
          (overdue_check fromisoformat clock2 c).
Proof.
  unfold overdue_check. destruct (card_due c) as [s|]; [|apply related_ret].
  destruct (truthy s); [|apply related_ret].
  destruct (parse_due fromisoformat s); [|apply related_ret].
  apply related_bind; [apply related_now | intros now; apply related_ret].
Qed.

Lemma related_assign (member_map : dict string) (c : card)
    (member_id : string) (d : dict member_stats) :
  same_run clock1 clock2 (assign fromisoformat clock1 member_map c member_id d)
          (assign fromisoformat clock2 member_map c member_id d).
Proof.
  unfold assign. apply related_bind; [apply related_overdue_check|].
  intros overdue. apply related_ret.
Qed.

Lemma related_team_performance (cards : list card) (members : list member) :
  same_run clock1 clock2
    (analyze_team_performance fromisoformat clock1 cards members)
          (analyze_team_performance fromisoformat clock2 cards members).
Proof.
  unfold analyze_team_performance.
  apply related_bind; [|intros d; apply related_ret].
  apply related_for_each. intros c s.
  apply related_for_each. intros i s'. apply related_assign.
Qed.

Lemma related_sprint_metrics (cards : list card) (lists : list trello_list) :
  same_run clock1 clock2
    (calculate_sprint_metrics fromisoformat clock1 cards lists)
          (calculate_sprint_metrics fromisoformat clock2 cards lists).
Proof.
  unfold calculate_sprint_metrics.
  apply related_bind; [apply related_now | intros now; apply related_ret].
Qed.

Lemma related_analysis (b : board) :
  same_run clock1 clock2 (analyze_sprint_data fromisoformat clock1 b)
          (analyze_sprint_data fromisoformat clock2 b).
Proof.
  unfold analyze_sprint_data.
  destruct (board_is_empty b || has_key (board_error b));
    [apply related_ret|].
  apply related_bind; [apply related_sprint_metrics | intros sm].
  apply related_bind; [apply related_team_performance | intros tp].
  apply related_bind; [apply related_now | intros now; apply related_ret].
Qed.

(** C8, as the code has it.  A run is a function of its input snapshot and
    of the clock readings it makes.  Two calls of [calculate_sprint_metrics]
    on the same input agree on [total_cards], [cards_by_list],
    [completion_rate] and the blockers whatever the clocks read, and on the
    whole result when their clock reading is the same; two calls of
    [analyze_sprint_data] on the same input return the same result when the
    clocks agree during the runs, and whatever the clocks read they return
    the same error, or results with the same bottlenecks, burn-down and
    velocity. *)
Theorem runs_agree_up_to_clock (b : board) (cards : list card)
    (lists : list trello_list) (k1 k2 : nat) :
  let m1 :=
    fst (calculate_sprint_metrics fromisoformat clock1 cards lists k1) in
  let m2 :=
    fst (calculate_sprint_metrics fromisoformat clock2 cards lists k2) in
  let a1 := fst (analyze_sprint_data fromisoformat clock1 b k1) in
  let a2 := fst (analyze_sprint_data fromisoformat clock2 b k2) in
  (sm_total_cards m1 = sm_total_cards m2
   /\ sm_cards_by_list m1 = sm_cards_by_list m2
   /\ sm_completion_rate m1 = sm_completion_rate m2
   /\ sm_blockers m1 = sm_blockers m2
   /\ sm_blockers_count m1 = sm_blockers_count m2)
  /\ (clock1 k1 = clock2 k2 -> m1 = m2)
  /\ (agree clock1 clock2 k1 k2 -> a1 = a2)
  /\ match a1, a2 with
     | ErrorOnly msg1, ErrorOnly msg2 => msg1 = msg2
     | Results r1, Results r2 =>
         ar_process_bottlenecks r1 = ar_process_bottlenecks r2
         /\ ar_burn_down r1 = ar_burn_down r2
         /\ ar_velocity r1 = ar_velocity r2
     | _, _ => False
     end.
Proof.
  intros m1 m2 a1 a2. split; [|split; [|split]].
  - subst m1 m2. unfold calculate_sprint_metrics, bind, datetime_now, ret.
    simpl. repeat split; reflexivity.
  - intros E. subst m1 m2.
    unfold calculate_sprint_metrics, bind, datetime_now, ret. simpl.
    now rewrite E.
  - intros H. exact (proj1 (related_analysis b k1 k2 H)).
  - subst a1 a2. unfold analyze_sprint_data.
    destruct (board_is_empty b || has_key (board_error b)); [reflexivity|].
    unfold bind.
    clear m1 m2.
    destruct (calculate_sprint_metrics fromisoformat clock1 _ _ k1) as [s1 j1].
    destruct (calculate_sprint_metrics fromisoformat clock2 _ _ k2) as [s2 j2].
    destruct (analyze_team_performance fromisoformat clock1 _ _ j1) as [t1 i1].
    destruct (analyze_team_performance fromisoformat clock2 _ _ j2) as [t2 i2].
    simpl. auto.
Qed.

End Determinism.

(** ** C9: team performance over normalised cards *)

Section NormalisedCards.

Import DataCollection DataUtils.

Variable fromisoformat : string -> option datetime.
Variable clock : nat -> Z.

(** A card without the key "idMembers" assigns nobody. *)
Lemma no_assignment (member_map : dict string) (cards : list card)
    (d : dict member_stats) (k : nat) :
  (forall c, In c cards -> card_idMembers c = None) ->
  for_each cards
    (fun c =>
       for_each (get (card_idMembers c) [])
         (assign fromisoformat clock member_map c))
    d k
  = (d, k).
Proof.
  revert d k. induction cards as [|c r IH]; intros d k H; [reflexivity|].
  simpl. unfold bind. rewrite (H c) by now left. simpl.
  apply IH. intros c' Hc'. apply H. now right.
Qed.

Lemma processed_cards_of (b : board) (c : card) :
  In c (get (board_cards (process_trello_data b)) []) ->
  exists raw list_map member_map, c = _process_card raw list_map member_map.
Proof.
  unfold process_trello_data.
  destruct (board_is_empty b || has_key (board_error b)); simpl;
    [contradiction|].
  intros H. apply in_map_iff in H. destruct H as (raw & <- & _). eauto.
Qed.

(** C9. Every card the normaliser produces has the key "members" and lacks
    the key "idMembers"; so, for every output of [process_trello_data] and
    every member list, [analyze_team_performance] on its cards returns an
    empty [cards_by_member], [member_count = 0],
    [avg_cards_per_member = 0] and no member with a high workload. *)
Theorem normalised_cards_have_no_assignments :
  (forall raw list_map member_map,
      let c := _process_card raw list_map member_map in
      has_key (card_members c) = true /\ has_key (card_idMembers c) = false)
  /\ (forall (b : board) (members : list member) (k : nat),
         let cards := get (board_cards (process_trello_data b)) [] in
         analyze_team_performance fromisoformat clock cards members k
         = ({| tp_cards_by_member := [];
               tp_avg_cards_per_member := 0;
               tp_members_with_high_workload := [];
               tp_member_count := 0 |}, k)).
Proof.
  split.
  - intros raw list_map member_map c. split; reflexivity.
  - intros b members k cards.
    unfold analyze_team_performance, bind.
    rewrite no_assignment; [reflexivity|].
    intros c Hc. apply processed_cards_of in Hc.
    destruct Hc as (raw & lm & mm & ->). reflexivity.
Qed.

End NormalisedCards.

(** ** C10: approaching and overdue are disjoint *)

Section Deadlines.

Import DataUtils.

Variable fromisoformat : string -> option datetime.
Variable clock : nat -> Z.

(** An entry of a due-date list comes from a card whose due date parses and
    passes the test of the list. *)
Lemma due_cards_In (test : card -> datetime -> bool) (list_map : dict string)
    (cards : list card) (e : due_entry) :
  In e (due_cards fromisoformat test list_map cards) ->
  exists c due_date,
    In c cards /\ card_due c = Some (de_due e)
    /\ parse_due fromisoformat (de_due e) = Some due_date
    /\ test c due_date = true
    /\ e = due_entry_of list_map c (de_due e).
Proof.
  induction cards as [|c r IH]; simpl; [contradiction|].
  assert (Hr : In e (due_cards fromisoformat test list_map r) ->
               exists c0 due_date,
                 (c = c0 \/ In c0 r) /\ card_due c0 = Some (de_due e)
                 /\ parse_due fromisoformat (de_due e) = Some due_date
                 /\ test c0 due_date = true
                 /\ e = due_entry_of list_map c0 (de_due e)).
  { intros H. destruct (IH H) as (c0 & d & H0 & H1). exists c0, d. auto. }
  destruct (card_due c) as [s|] eqn:Hdue; [|exact Hr].
  destruct (truthy s); [|exact Hr].
  destruct (parse_due fromisoformat s) as [d|] eqn:Hp; [|exact Hr].
  destruct (test c d) eqn:Ht; [|exact Hr].
  intros [<-|H]; [|auto].
  exists c, d. simpl. auto.
Qed.

Lemma approaching_after_now (now limit : datetime) (c : card) (d : datetime) :
  is_approaching now limit c d = true -> dt_lt now d = Some true.
Proof.
  unfold is_approaching. destruct (dt_lt now d) as [[|]|]; auto; discriminate.
Qed.

Lemma overdue_before_now (now : datetime) (c : card) (d : datetime) :
  is_overdue now c d = true -> dt_lt d now = Some true.
Proof.
  unfold is_overdue. destruct (dt_lt d now) as [[|]|]; auto; discriminate.
Qed.

Lemma not_both_sides (now d : datetime) :
  dt_lt now d = Some true -> dt_lt d now = Some true -> False.
Proof.
  destruct now, d; simpl; try discriminate; intros H1 H2;
    injection H1 as H1; injection H2 as H2;
    apply Z.ltb_lt in H1; apply Z.ltb_lt in H2; lia.
Qed.

(** C10. Within one call of [calculate_sprint_metrics], which reads the
    clock once, no entry of [approaching_deadlines] has the due date of an
    entry of [overdue_cards]; so no card appears in both lists and the two
    lists share no entry. *)
Theorem approaching_overdue_disjoint (cards : list card)
    (lists : list trello_list) (k : nat) :
  let metrics :=
    fst (calculate_sprint_metrics fromisoformat clock cards lists k) in
  Forall (fun a =>
            Forall (fun o => de_due a <> de_due o) (sm_overdue_cards metrics)
            /\ ~ In a (sm_overdue_cards metrics))
         (sm_approaching_deadlines metrics).
Proof.
  intros metrics. subst metrics.
  unfold calculate_sprint_metrics, bind, datetime_now, ret. simpl.
  set (now := Naive (clock k)).
  set (list_map := dict_of list_id list_name lists).
  assert (Hdue : forall a o,
             In a (due_cards fromisoformat
                     (is_approaching now (add_days now 3)) list_map cards) ->
             In o (due_cards fromisoformat (is_overdue now) list_map cards) ->
             de_due a <> de_due o).
  { intros a o Ha Ho E.
    apply due_cards_In in Ha. destruct Ha as (c1 & d1 & _ & _ & Hp1 & Ht1 & _).
    apply due_cards_In in Ho. destruct Ho as (c2 & d2 & _ & _ & Hp2 & Ht2 & _).
    rewrite E in Hp1. rewrite Hp1 in Hp2. injection Hp2 as ->.
    apply approaching_after_now in Ht1. apply overdue_before_now in Ht2.
    exact (not_both_sides _ _ Ht1 Ht2). }
  apply Forall_forall. intros a Ha. split.
  - apply Forall_forall. intros o Ho. now apply Hdue.
  - intros Ho. now apply (Hdue a a Ha Ho).
Qed.

End Deadlines.

(** ** Further properties of the engine *)

Section Engine.

Import DataCollection DataUtils Analysis.

Variable fromisoformat : string -> option datetime.
Variable clock : nat -> Z.

Lemma scan_labels_flag (labels : list label) :
  fst (scan_labels labels (false, None))
  = existsb (fun l => get_eq (label_color l) "red") labels.
Proof.
  induction labels as [|l r IH]; simpl; [reflexivity|].
  now destruct (get_eq (label_color l) "red").
Qed.

Lemma scan_comments_flag (comments : list comment) (reason : option string) :
  fst (scan_comments comments (false, reason))
  = existsb (fun cm => str_in "blocker" (lower (comment_text cm))) comments.
Proof.
  induction comments as [|c r IH]; simpl; [reflexivity|].
  now destruct (str_in "blocker" (lower (comment_text c))).
Qed.

(** The blocker test of the metrics, run on a normalised card, agrees with
    the flag the normaliser has set on it. *)
Theorem metrics_blocker_agrees_with_normaliser (c : card)
    (list_map : dict trello_list) (member_map : dict member) :
  let p := _process_card c list_map member_map in
  card_isBlocker p = Some (is_blocker p).
Proof.
  intros p. subst p. unfold _process_card, is_blocker. simpl. f_equal.
  rewrite <- scan_labels_flag.
  destruct (scan_labels (get (card_labels c) []) (false, None))
    as [[|] reason] eqn:E; simpl; [reflexivity|].
  apply scan_comments_flag.
Qed.

(** The risks the table produces have categories of the table, each at most
    once. *)
Lemma identified_risks_known (cards : list card) (sm : sprint_metrics)
    (tp : team_performance) (pb : process_bottlenecks) :
  Forall known_risk (_identify_risks cards sm tp pb)
  /\ NoDup (map risk_category (_identify_risks cards sm tp pb)).
Proof.
  unfold _identify_risks.
  destruct (Qlt_bool (sm_completion_rate sm) 70), (nonempty (sm_blockers sm)),
    (nonempty (sm_approaching_deadlines sm)), (nonempty (sm_overdue_cards sm)),
    (nonempty (tp_members_with_high_workload tp)),
    (nonempty (pb_bottlenecks pb)); cbn [when app map risk_category];
    (split; [repeat constructor; cbv; tauto
            | repeat constructor; simpl; intuition discriminate]).
Qed.

(** In every analysis the number of recommendations is the number of
    distinct categories of the risks found, the two deadline categories
    counting as one, and 1 when no risk was found. *)
Theorem analysis_recommendation_count (b : board) (k : nat) :
  match fst (analyze_sprint_data fromisoformat clock b k) with
  | ErrorOnly _ => True
  | Results r =>
      Forall known_risk (ar_risks r)
      /\ List.length (ar_recommendations r)
         = match ar_risks r with
           | [] => 1%nat
           | _ => List.length (collapsed_categories (ar_risks r))
           end
  end.
Proof.
  unfold analyze_sprint_data.
  destruct (board_is_empty b || has_key (board_error b)); [exact I|].
  unfold bind.
  destruct (calculate_sprint_metrics fromisoformat clock _ _ k) as [sm k1].
  destruct (analyze_team_performance fromisoformat clock _ _ k1) as [tp k2].
  cbn [datetime_now ret fst ar_risks ar_recommendations].
  match goal with
  | |- Forall known_risk (_identify_risks ?cs sm tp ?pb) /\ _ =>
      pose proof (proj1 (identified_risks_known cs sm tp pb)) as Hk;
      set (risks := _identify_risks cs sm tp pb) in *
  end.
  split; [exact Hk|]. clearbody risks.
  destruct risks as [|r risks]; [reflexivity|].
  rewrite (collapsed_length _ Hk).
  pose proof (some_block_applies r risks (Forall_inv Hk)) as Hsome.
  unfold _generate_recommendations. cbv zeta in Hsome |- *.
  repeat match goal with
         | |- context [set_in ?c ?cats] => destruct (set_in c cats)
         end;
    try discriminate Hsome; reflexivity.
Qed.

(** [completion_rate] is the percentage of the cards that are in a list
    named "Done": it lies between 0 and 100, and is 0 when there is no
    card. *)
Theorem completion_rate_is_a_percentage (cards : list card)
    (lists : list trello_list) (k : nat) :
  let metrics :=
    fst (calculate_sprint_metrics fromisoformat clock cards lists k) in
  let completed := List.length (filter (in_list_named lists "Done") cards) in
  sm_total_cards metrics = List.length cards
  /\ sm_completion_rate metrics
     = (if (0 <? List.length cards)%nat
        then num completed / num (List.length cards) * 100 else 0)
  /\ 0 <= sm_completion_rate metrics <= 100.
Proof.
  intros metrics completed. split; [reflexivity|].
  subst metrics. rewrite completion_rate_done. fold completed.
  split; [reflexivity|].
  assert (Hle : (completed <= List.length cards)%nat)
    by apply filter_length_le.
  destruct (0 <? List.length cards)%nat eqn:E;
    [|split; [apply Qle_refl | discriminate]].
  apply Nat.ltb_lt in E. unfold num.
  assert (Hpos : 0 < inject_Z (Z.of_nat (List.length cards))).
  { change 0 with (inject_Z 0). rewrite <- Zlt_Qlt. lia. }
  split.
  - apply Qmult_le_0_compat; [|discriminate].
    apply Qle_shift_div_l; [exact Hpos|]. rewrite Qmult_0_l.
    change 0 with (inject_Z 0). rewrite <- Zle_Qle. lia.
  - setoid_replace 100 with (1 * 100) at 2 by reflexivity.
    apply Qmult_le_compat_r; [|discriminate].
    apply Qle_shift_div_r; [exact Hpos|]. rewrite Qmult_1_l.
    rewrite <- Zle_Qle. lia.
Qed.

(** An entry of [approaching_deadlines] or of [overdue_cards] has a due date
    that parses to a date without time zone: a due date with a time zone
    cannot be compared with [datetime.now()], and its card is passed
    over. *)
Theorem listed_due_dates_are_naive (cards : list card)
    (lists : list trello_list) (k : nat) :
  let metrics :=
    fst (calculate_sprint_metrics fromisoformat clock cards lists k) in
  Forall (fun e =>
            exists t, parse_due fromisoformat (de_due e) = Some (Naive t))
         (sm_approaching_deadlines metrics ++ sm_overdue_cards metrics).
Proof.
  intros metrics. subst metrics.
  unfold calculate_sprint_metrics, bind, datetime_now, ret. simpl.
  apply Forall_app. split; apply Forall_forall; intros e He;
    apply due_cards_In in He;
    destruct He as (c & d & _ & _ & Hp & Ht & _); rewrite Hp.
  - apply approaching_after_now in Ht.
    destruct d as [t|t]; [eauto | discriminate Ht].
  - apply overdue_before_now in Ht.
    destruct d as [t|t]; [eauto | discriminate Ht].
Qed.

End Engine.

(** ** The data-gap scan *)

Section DataGapScan.

Import DataCollection DataGaps.

Lemma card_gaps_nil (c : card) : card_gaps c = [] <-> without_gap c.
Proof.
  unfold card_gaps, without_gap, gap.
  destruct (get (card_isComplete c) false), (truthy_opt (card_due c)),
    (truthy_opt (card_desc c)), (get (card_members c) []);
    simpl; intuition (try discriminate; try congruence).
Qed.

Lemma card_gaps_sublist (c : card) : sublist (card_gaps c) gap_messages.
Proof.
  unfold card_gaps, gap, gap_messages.
  destruct (negb (get (card_isComplete c) false)
            && negb (truthy_opt (card_due c))),
    (negb (truthy_opt (card_desc c))),
    (match get (card_members c) [] with [] => true | _ => false end);
    simpl; tauto.
Qed.

Lemma scan_cards_In (cards : list card) (e : gap_entry) :
  In e (scan_cards cards) <->
  exists c, In c cards /\ card_gaps c <> []
            /\ e = mkGapEntry (card_id c) (card_name c) (card_listName c)
                     (card_gaps c).
Proof.
  induction cards as [|c r IH]; simpl.
  - split; [contradiction | intros (c & [] & _)].
  - destruct (card_gaps c) as [|g gs] eqn:E.
    + rewrite IH. split.
      * intros (c' & Hc' & H). exists c'. tauto.
      * intros (c' & [<-|Hc'] & Hne & He); [congruence | eauto].
    + simpl. rewrite IH. split.
      * intros [<-|(c' & Hc' & H)].
        -- exists c. rewrite E. repeat split; auto. discriminate.
        -- exists c'. tauto.
      * intros (c' & [<-|Hc'] & Hne & He).
        -- left. rewrite E in He. now subst.
        -- right. eauto.
Qed.

Lemma scan_cards_ids (cards : list card) :
  map ge_card_id (scan_cards cards)
  = map card_id
      (filter (fun c => match card_gaps c with [] => false | _ => true end)
              cards).
Proof.
  induction cards as [|c r IH]; simpl; [reflexivity|].
  destruct (card_gaps c); simpl; now rewrite IH.
Qed.

Lemma card_gaps_messages (c : card) :
  (In "Missing due date" (card_gaps c) <->
   get (card_isComplete c) false = false /\ truthy_opt (card_due c) = false)
  /\ (In "Missing description" (card_gaps c) <->
      truthy_opt (card_desc c) = false)
  /\ (In "No assigned members" (card_gaps c) <->
      get (card_members c) [] = []).
Proof.
  unfold card_gaps, gap.
  destruct (get (card_isComplete c) false), (truthy_opt (card_due c)),
    (truthy_opt (card_desc c)), (get (card_members c) []);
    simpl; intuition (try discriminate; try congruence).
Qed.

(** The scan reports the cards with a gap, in the order of the cards, each
    with its id, name and list name and with the gaps found, which are some
    of the three messages in the order of the checks: a due date is missing
    when the card is not complete and has none, a description when it has
    none, members when it has none.  The scan reports nothing exactly when
    every card is complete or has a due date, has a description and has a
    member.  A snapshot that carries an error has no cards after
    normalisation, and no gap is reported for it. *)
Theorem data_gaps_reported (b : board) :
  let cards := get (board_cards b) [] in
  let gaps := identify_data_gaps b in
  (gaps = [] <-> forall c, In c cards -> without_gap c)
  /\ (forall e,
         In e gaps <->
         exists c, In c cards /\ ~ without_gap c
                   /\ e = mkGapEntry (card_id c) (card_name c)
                            (card_listName c) (card_gaps c))
  /\ map ge_card_id gaps
     = map card_id
         (filter (fun c => match card_gaps c with [] => false | _ => true end)
                 cards)
  /\ (forall c,
         sublist (card_gaps c) gap_messages
         /\ (In "Missing due date" (card_gaps c) <->
             get (card_isComplete c) false = false
             /\ truthy_opt (card_due c) = false)
         /\ (In "Missing description" (card_gaps c) <->
             truthy_opt (card_desc c) = false)
         /\ (In "No assigned members" (card_gaps c) <->
             get (card_members c) [] = []))
  /\ (forall msg,
         board_error b = Some msg ->
         identify_data_gaps (process_trello_data b) = []).
Proof.
  intros cards gaps. subst gaps. unfold identify_data_gaps. fold cards.
  assert (Hin : forall e,
             In e (scan_cards cards) <->
             exists c, In c cards /\ ~ without_gap c
                       /\ e = mkGapEntry (card_id c) (card_name c)
                                (card_listName c) (card_gaps c)).
  { intros e. rewrite scan_cards_In. split; intros (c & Hc & Hg & He);
      exists c; (split; [exact Hc|]); (split; [|exact He]).
    - now rewrite <- card_gaps_nil.
    - now rewrite card_gaps_nil. }
  split; [|split; [exact Hin|split; [apply scan_cards_ids|split]]].
  - split.
    + intros E c Hc. apply card_gaps_nil.
      destruct (card_gaps c) as [|g gs] eqn:Eg; [reflexivity|].
      exfalso.
      assert (H : In (mkGapEntry (card_id c) (card_name c) (card_listName c)
                        (card_gaps c)) (scan_cards cards)).
      { apply scan_cards_In. exists c. rewrite Eg.
        repeat split; auto. discriminate. }
      rewrite E in H. exact H.
    + intros H. destruct (scan_cards cards) as [|e es]; [reflexivity|].
      exfalso. destruct (proj1 (Hin e) (or_introl eq_refl))
        as (c & Hc & Hg & _). auto.
  - intros c. split; [apply card_gaps_sublist | apply card_gaps_messages].
  - intros msg Hmsg. unfold process_trello_data. rewrite Hmsg. simpl.
    now rewrite orb_true_r.
Qed.

(** The gaps of a normalised card, read on the raw card: members are
    missing exactly when none of the member ids of the raw card is a member
    of the board, and a due date is missing exactly when the raw card has
    none and its list is not named "Done". *)
Theorem data_gaps_of_normalised_card (c : card) (list_map : dict trello_list)
    (member_map : dict member) :
  let p := _process_card c list_map member_map in
  (In "No assigned members" (card_gaps p) <->
   forall i, In i (get (card_idMembers c) []) -> dict_get member_map i = None)
  /\ (In "Missing due date" (card_gaps p) <->
      resolve_list_name (card_idList c) list_map <> "Done"
      /\ truthy_opt (card_due c) = false)
  /\ (In "Missing description" (card_gaps p) <->
      truthy_opt (card_desc c) = false).
Proof.
  intros p. destruct (card_gaps_messages p) as (Hdue & Hdesc & Hmem).
  rewrite Hdue, Hdesc, Hmem. subst p. unfold _process_card. simpl.
  split; [|split; [|reflexivity]].
  - induction (get (card_idMembers c) []) as [|i r IH]; simpl.
    + split; [intros _ i [] | reflexivity].
    + destruct (dict_get member_map i) as [m|] eqn:E.
      * split; [discriminate|]. intros H.
        specialize (H i (or_introl eq_refl)). congruence.
      * rewrite IH. split.
        -- intros H j [<-|Hj]; auto.
        -- intros H j Hj. apply H. now right.
  - rewrite String.eqb_neq. reflexivity.
Qed.

End DataGapScan.

(** ** Sorting the lists by position *)

Section Sorting.

Context {A : Type} (key : A -> Q).

Lemma insert_by_perm (x : A) (l : list A) :
  Permutation (insert_by key x l) (x :: l).
Proof.
  induction l as [|y r IH]; simpl; [reflexivity|].
  destruct (Qlt_bool (key x) (key y)); [reflexivity|].
  rewrite IH. apply perm_swap.
Qed.

Lemma insert_by_ordered (x : A) (l : list A) :
  ascending key l -> ascending key (insert_by key x l).
Proof.
  unfold ascending. induction l as [|y r IH]; simpl; intros H.
  - repeat constructor.
  - inversion H as [|? ? Hr Hy]; subst.
    destruct (Qlt_bool (key x) (key y)) eqn:E.
    + apply Qlt_bool_iff in E. constructor; [exact H|].
      constructor; [now apply Qlt_le_weak|].
      rewrite Forall_forall in *. intros z Hz.
      apply Qle_trans with (key y); [now apply Qlt_le_weak | auto].
    + constructor; [auto|].
      assert (Hle : key y <= key x).
      { apply Qnot_lt_le. intros Hlt. apply Qlt_bool_iff in Hlt. congruence. }
      rewrite Forall_forall in *. intros z Hz.
      apply (Permutation_in _ (insert_by_perm x r)) in Hz.
      destruct Hz as [<-|Hz]; auto.
Qed.

(** An element goes after those of its key. *)
Lemma insert_by_stable (x : A) (l : list A) (q : Q) :
  ascending key l ->
  with_key key q (insert_by key x l)
  = (with_key key q l ++ (if Qeq_bool (key x) q then [x] else []))%list.
Proof.
  unfold ascending, with_key. induction l as [|y r IH]; simpl; intros H.
  - reflexivity.
  - inversion H as [|? ? Hr Hy]; subst.
    destruct (Qlt_bool (key x) (key y)) eqn:E.
    + apply Qlt_bool_iff in E. simpl.
      destruct (Qeq_bool (key x) q) eqn:Ex; [|now rewrite app_nil_r].
      apply Qeq_bool_iff in Ex.
      assert (Hnone : forall z, In z (y :: r) -> Qeq_bool (key z) q = false).
      { intros z Hz. apply not_true_iff_false. intros Hq.
        apply Qeq_bool_iff in Hq.
        assert (Hyz : key y <= key z).
        { destruct Hz as [<-|Hz]; [apply Qle_refl|].
          rewrite Forall_forall in Hy. auto. }
        rewrite Hq, <- Ex in Hyz. exact (Qlt_not_le _ _ E Hyz). }
      rewrite (Hnone y) by now left.
      replace (filter (fun z => Qeq_bool (key z) q) r) with (@nil A);
        [reflexivity|].
      symmetry. clear -Hnone. induction r as [|z r IH]; [reflexivity|].
      simpl. rewrite (Hnone z) by (right; now left).
      apply IH. intros w [<-|Hw]; apply Hnone; [now left | right; now right].
    + simpl. rewrite (IH Hr). now destruct (Qeq_bool (key y) q).
Qed.

Lemma sort_loop (xs acc : list A) :
  ascending key acc ->
  let result := fold_left (fun acc x => insert_by key x acc) xs acc in
  Permutation result (acc ++ xs)
  /\ ascending key result
  /\ forall q,
       with_key key q result = (with_key key q acc ++ with_key key q xs)%list.
Proof.
  revert acc. induction xs as [|x r IH]; intros acc Hacc; simpl.
  - rewrite app_nil_r. repeat split; auto. intros q. now rewrite app_nil_r.
  - destruct (IH (insert_by key x acc) (insert_by_ordered x acc Hacc))
      as (Hp & Ho & Hs).
    split; [|split; [exact Ho|]].
    + rewrite Hp, insert_by_perm. apply Permutation_middle.
    + intros q. rewrite Hs, insert_by_stable by exact Hacc.
      rewrite <- app_assoc. f_equal. unfold with_key. simpl.
      now destruct (Qeq_bool (key x) q).
Qed.

(** [sorted] rearranges its argument in ascending order of the keys and
    keeps the order of the elements of one key. *)
Lemma sorted_stable (xs : list A) :
  Permutation (sorted key xs) xs
  /\ ascending key (sorted key xs)
  /\ forall q, with_key key q (sorted key xs) = with_key key q xs.
Proof.
  destruct (sort_loop xs [] (SSorted_nil _)) as (Hp & Ho & Hs).
  repeat split; auto.
Qed.

End Sorting.

Section NormalisedLists.

Import DataCollection.

(** The lists of a normalised snapshot are the lists of the board in
    ascending order of their position (0 for a list without one); lists at
    the same position keep the order they had. *)
Theorem normalised_lists_sorted (b : board) (lists : list trello_list) :
  board_error b = None ->
  board_lists b = Some lists ->
  exists sorted_lists,
    board_lists (process_trello_data b) = Some sorted_lists
    /\ Permutation sorted_lists lists
    /\ ascending position sorted_lists
    /\ forall q, with_key position q sorted_lists = with_key position q lists.
Proof.
  intros Herr Hlists. unfold process_trello_data.
  assert (Hne : board_is_empty b = false).
  { unfold board_is_empty. rewrite Hlists. simpl. now rewrite !orb_true_r. }
  rewrite Hne, Herr, Hlists. simpl.
  eexists. split; [reflexivity|]. apply (sorted_stable position).
Qed.

End NormalisedLists.

(** ** The cards and the groups of a normalised snapshot *)

Section Normaliser.

Import DataCollection.

Lemma dict_set_In {V : Type} (d : dict V) (k k' : string) (v v' : V) :
  In (k', v') (dict_set d k v) -> (k', v') = (k, v) \/ In (k', v') d.
Proof.
  induction d as [|[k0 v0] r IH]; simpl.
  - intros [H|[]]. now left.
  - destruct (k0 =? k) eqn:E; simpl.
    + apply String.eqb_eq in E. subst k0.
      intros [H|H]; [left; now symmetry | right; now right].
    + intros [H|H]; [right; now left|].
      destruct (IH H); [now left | right; now right].
Qed.

Lemma dict_of_In {X V : Type} (key : X -> string) (val : X -> V)
    (xs : list X) (k : string) (v : V) :
  In (k, v) (dict_of key val xs) ->
  exists x, In x xs /\ key x = k /\ val x = v.
Proof.
  unfold dict_of.
  assert (H : forall d,
             In (k, v) (fold_left (fun d x => dict_set d (key x) (val x)) xs d)
             -> In (k, v) d \/ exists x, In x xs /\ key x = k /\ val x = v).
  { induction xs as [|x r IH]; intros d Hin; simpl in *; [now left|].
    destruct (IH _ Hin) as [Hd|(y & Hy & E)].
    - apply dict_set_In in Hd. destruct Hd as [E|Hd]; [|now left].
      inversion E; subst. right. exists x. auto.
    - right. exists y. auto. }
  intros Hin. destruct (H [] Hin) as [[]|Hx]. exact Hx.
Qed.

Lemma dict_get_map {V W : Type} (g : V -> W) (d : dict V) (k : string) :
  dict_get (map (fun kv => (fst kv, g (snd kv))) d) k
  = option_map g (dict_get d k).
Proof.
  induction d as [|[k0 v0] r IH]; simpl; [reflexivity|].
  destruct (k0 =? k); [reflexivity | exact IH].
Qed.

(** The normaliser resolves the list of a card as the metrics do. *)
Lemma resolve_list_name_counted (lists : list trello_list) (c : card) :
  resolve_list_name (card_idList c) (dict_of list_id (fun l => l) lists)
  = get (counted_in lists c) "Unknown".
Proof.
  unfold resolve_list_name, counted_in.
  destruct (card_idList c) as [i|]; [|reflexivity].
  destruct (truthy i); [|reflexivity].
  rewrite <- (dict_of_map list_id (fun l => l) list_name), dict_get_map.
  now destruct (dict_get (dict_of list_id (fun l => l) lists) i).
Qed.

Lemma process_members_ids (ids : list string) (member_map : dict member) :
  map cm_id (process_members ids member_map)
  = filter (dict_mem member_map) ids.
Proof.
  unfold dict_mem. induction ids as [|i r IH]; simpl; [reflexivity|].
  destruct (dict_get member_map i); simpl; now rewrite IH.
Qed.

Lemma process_members_names (ids : list string) (member_map : dict member)
    (m : card_member) :
  In m (process_members ids member_map) ->
  exists mem, dict_get member_map (cm_id m) = Some mem
              /\ cm_name m = display_name mem.
Proof.
  induction ids as [|i r IH]; simpl; [contradiction|].
  destruct (dict_get member_map i) as [mem|] eqn:E; [|exact IH].
  intros [<-|H]; [exists mem; auto | auto].
Qed.

(** The grouping loop appends to each group the cards of its name, in
    order, and makes no group. *)
Lemma group_cards_get (cards : list card) (d : dict (list card))
    (name : string) :
  dict_get (group_cards cards d) name
  = option_map
      (fun cs =>
         cs ++ filter (fun p => get (card_listName p) "Unknown" =? name) cards)%list
      (dict_get d name).
Proof.
  revert d. induction cards as [|c r IH]; intros d; simpl.
  - destruct (dict_get d name); simpl; [now rewrite app_nil_r | reflexivity].
  - destruct (dict_get d (get (card_listName c) "Unknown")) as [cs|] eqn:E.
    + rewrite IH. destruct (get (card_listName c) "Unknown" =? name) eqn:En.
      * apply String.eqb_eq in En. subst name.
        rewrite dict_get_set_same, E. simpl. now rewrite <- app_assoc.
      * apply String.eqb_neq in En. now rewrite dict_get_set_other.
    + rewrite IH. destruct (get (card_listName c) "Unknown" =? name) eqn:En;
        [|reflexivity].
      apply String.eqb_eq in En. subst name. now rewrite E.
Qed.

Lemma group_cards_keys (cards : list card) (d : dict (list card)) :
  dict_keys (group_cards cards d) = dict_keys d.
Proof.
  revert d. induction cards as [|c r IH]; intros d; simpl; [reflexivity|].
  destruct (dict_get d (get (card_listName c) "Unknown")) as [cs|] eqn:E;
    [|apply IH].
  rewrite IH, dict_set_keys. unfold dict_mem. now rewrite E.
Qed.

(** The groups start empty, one for each name. *)
Lemma empty_groups_get {X V : Type} (key : X -> string) (v0 : V)
    (xs : list X) (d : dict V) (name : string) :
  dict_get (fold_left (fun d x => dict_set d (key x) v0) xs d) name
  = if existsb (String.eqb name) (map key xs) then Some v0
    else dict_get d name.
Proof.
  revert d. induction xs as [|x r IH]; intros d; simpl; [reflexivity|].
  rewrite IH. destruct (existsb (String.eqb name) (map key r));
    [now rewrite orb_true_r|].
  rewrite orb_false_r. destruct (name =? key x) eqn:E.
  - apply String.eqb_eq in E. subst name. apply dict_get_set_same.
  - apply String.eqb_neq in E. apply dict_get_set_other. congruence.
Qed.

(** The cards of a normalised snapshot are the cards of the board, in
    order: each keeps its id, name, description, url, due date and labels,
    has the name of its list as the metrics resolve it ("Unknown" when they
    do not), is complete exactly when that name is "Done", and has the
    members of the board among its member ids, in order, under their display
    names. *)
Theorem normalised_cards (b : board) (cards : list card)
    (lists : list trello_list) :
  board_error b = None ->
  board_cards b = Some cards ->
  board_lists b = Some lists ->
  exists normalised,
    board_cards (process_trello_data b) = Some normalised
    /\ Forall2
         (fun c p =>
            card_id p = card_id c /\ card_name p = card_name c
            /\ card_desc p = card_desc c /\ card_url p = card_url c
            /\ card_due p = card_due c
            /\ card_dueComplete p = Some (get (card_dueComplete c) false)
            /\ card_labels p = Some (get (card_labels c) [])
            /\ card_listName p = Some (get (counted_in lists c) "Unknown")
            /\ card_isComplete p = Some (in_list_named lists "Done" c)
            /\ exists ms,
                 card_members p = Some ms
                 /\ map cm_id ms
                    = filter
                        (fun i =>
                           existsb (String.eqb i)
                             (map member_id (get (board_members b) [])))
                        (get (card_idMembers c) [])
                 /\ Forall
                      (fun m =>
                         exists mem,
                           In mem (get (board_members b) [])
                           /\ member_id mem = cm_id m
                           /\ cm_name m = display_name mem)
                      ms)
         cards normalised.
Proof.
  intros Herr Hcards Hlists. unfold process_trello_data.
  assert (Hne : board_is_empty b = false).
  { unfold board_is_empty. rewrite Hcards. simpl. now rewrite !orb_true_r. }
  rewrite Hne, Herr, Hcards, Hlists. simpl.
  eexists. split; [reflexivity|].
  set (members := get (board_members b) []).
  set (member_map := dict_of member_id (fun m => m) members).
  clear Hcards Hne.
  induction cards as [|c r IH]; simpl; [constructor|].
  constructor; [|exact IH].
  unfold _process_card. simpl. rewrite resolve_list_name_counted.
  repeat (split; [reflexivity|]).
  split.
  { unfold in_list_named. f_equal.
    destruct (counted_in lists c); reflexivity. }
  eexists. split; [reflexivity|]. split.
  - rewrite process_members_ids. apply filter_ext. intros i.
    apply bool_eq_iff. rewrite dict_mem_In.
    unfold member_map, dict_of. rewrite fold_dict_set_keys_In.
    rewrite existsb_exists. simpl. split.
    + intros [[]|H]. exists i. split; [exact H | apply String.eqb_refl].
    + intros (x & Hx & E). apply String.eqb_eq in E. subst x. now right.
  - apply Forall_forall. intros m Hm.
    apply process_members_names in Hm. destruct Hm as (mem & Hget & Hname).
    apply dict_get_Some_In, dict_of_In in Hget.
    destruct Hget as (x & Hx & Hid & E). simpl in E. subst mem.
    exists x. auto.
Qed.

(** The groups of a normalised snapshot: one for each list name, and in the
    group of a name the normalised cards of that list name, in order.  A
    card whose list is not a list of the board has the name "Unknown" and is
    in no group, unless a list is named so. *)
Theorem normalised_groups (b : board) (cards : list card)
    (lists : list trello_list) :
  board_error b = None ->
  board_cards b = Some cards ->
  board_lists b = Some lists ->
  exists normalised groups,
    board_cards (process_trello_data b) = Some normalised
    /\ board_cards_by_list (process_trello_data b) = Some groups
    /\ NoDup (dict_keys groups)
    /\ (forall name, In name (dict_keys groups) <-> In name (map list_name lists))
    /\ (forall name,
           In name (map list_name lists) ->
           dict_get groups name
           = Some (filter
                     (fun p => get (card_listName p) "Unknown" =? name)
                     normalised))
    /\ (forall name,
           ~ In name (map list_name lists) -> dict_get groups name = None).
Proof.
  intros Herr Hcards Hlists. unfold process_trello_data.
  assert (Hne : board_is_empty b = false).
  { unfold board_is_empty. rewrite Hcards. simpl. now rewrite !orb_true_r. }
  rewrite Hne, Herr, Hcards, Hlists. simpl.
  eexists. eexists. split; [reflexivity|]. split; [reflexivity|].
  assert (Hex : forall name,
             existsb (String.eqb name) (map list_name lists) = true
             <-> In name (map list_name lists)).
  { intros name. rewrite existsb_exists. split.
    - intros (x & Hx & E). apply String.eqb_eq in E. now subst.
    - intros H. exists name. split; [exact H | apply String.eqb_refl]. }
  split; [|split; [|split]].
  - rewrite group_cards_keys.
    apply (fold_dict_set_NoDup list_name (fun _ => [])). constructor.
  - intros name. rewrite group_cards_keys.
    rewrite (fold_dict_set_keys_In list_name (fun _ => [])). simpl. tauto.
  - intros name Hin. rewrite group_cards_get, empty_groups_get.
    apply Hex in Hin. now rewrite Hin.
  - intros name Hnot. rewrite group_cards_get, empty_groups_get.
    destruct (existsb (String.eqb name) (map list_name lists)) eqn:E;
      [apply Hex in E; contradiction | reflexivity].
Qed.

End Normaliser.

(** ** The counts and the deadline lists of the metrics *)

Section MetricCounts.

Import DataUtils.

Variable fromisoformat : string -> option datetime.
Variable clock : nat -> Z.

(** Counting one more card under a name adds one to the sum of the counts. *)
Lemma sum_dict_set_incr (d : dict nat) (k : string) :
  sum (dict_values (dict_set d k (get (dict_get d k) 0 + 1)%nat))
  = (sum (dict_values d) + 1)%nat.
Proof.
  unfold dict_values. induction d as [|[k0 v0] r IH]; simpl.
  - reflexivity.
  - destruct (k0 =? k); simpl; rewrite !sum_cons; [lia|].
    rewrite IH. lia.
Qed.

Lemma sum_count_cards (cards : list card) (list_map : dict string)
    (d : dict nat) :
  sum (dict_values (count_cards cards list_map d))
  = (sum (dict_values d)
     + List.length
         (filter (fun c =>
                    match card_idList c with
                    | Some i => truthy i && dict_mem list_map i
                    | None => false
                    end) cards))%nat.
Proof.
  unfold dict_mem. revert d. induction cards as [|c r IH]; intros d; simpl;
    [lia|].
  destruct (card_idList c) as [i|]; [|apply IH].
  destruct (truthy i); simpl; [|apply IH].
  destruct (dict_get list_map i) as [n|]; simpl; [|apply IH].
  rewrite IH, sum_dict_set_incr. lia.
Qed.

Lemma zero_init_sum {X : Type} (key : X -> string) (xs : list X) (d : dict nat) :
  Forall (fun kv => snd kv = 0%nat) d ->
  Forall (fun kv => snd kv = 0%nat)
         (fold_left (fun d x => dict_set d (key x) 0%nat) xs d).
Proof.
  revert d. induction xs as [|x r IH]; intros d H; simpl; [exact H|].
  apply IH. clear IH. induction d as [|[k0 v0] d IHd]; simpl.
  - repeat constructor.
  - inversion H; subst. destruct (k0 =? key x); constructor; auto.
Qed.

Lemma sum_zeros (d : dict nat) :
  Forall (fun kv => snd kv = 0%nat) d -> sum (dict_values d) = 0%nat.
Proof.
  unfold dict_values. induction 1 as [|[k v] r Hv _ IH]; [reflexivity|].
  simpl in *. rewrite sum_cons, IH, Hv. reflexivity.
Qed.

(** The counts of the metrics: every list name has one, zero-filled; the
    count of a name is the number of cards in a list of that name; and the
    counts add up to the number of cards whose list is a list of the board,
    which is at most [total_cards]: a card of no list is counted in the
    total and under no name. *)
Theorem list_counts_add_up (cards : list card) (lists : list trello_list)
    (k : nat) :
  let metrics :=
    fst (calculate_sprint_metrics fromisoformat clock cards lists k) in
  let counts := sm_cards_by_list metrics in
  NoDup (dict_keys counts)
  /\ (forall name, In name (dict_keys counts) <-> In name (map list_name lists))
  /\ (forall name count,
         In (name, count) counts ->
         count = List.length (filter (in_list_named lists name) cards))
  /\ sum (dict_values counts)
     = List.length (filter (fun c => has_key (counted_in lists c)) cards)
  /\ (sum (dict_values counts) <= sm_total_cards metrics)%nat.
Proof.
  intros metrics counts. subst counts metrics.
  unfold calculate_sprint_metrics, bind, datetime_now, ret. simpl.
  set (list_map := dict_of list_id list_name lists).
  set (init := fold_left (fun d l => dict_set d (list_name l) 0%nat) lists []).
  assert (Hnd : NoDup (dict_keys (count_cards cards list_map init))).
  { apply count_cards_NoDup.
    apply (fold_dict_set_NoDup list_name (fun _ => 0%nat)). constructor. }
  assert (Hsum : sum (dict_values (count_cards cards list_map init))
                 = List.length
                     (filter (fun c => has_key (counted_in lists c)) cards)).
  { rewrite sum_count_cards, (sum_zeros init).
    - simpl. f_equal. apply filter_ext. intros c. unfold counted_in.
      destruct (card_idList c) as [i|]; [|reflexivity].
      destruct (truthy i); reflexivity.
    - apply (zero_init_sum list_name). constructor. }
  split; [exact Hnd|]. split; [|split; [|split; [exact Hsum|]]].
  - intros name. rewrite count_cards_keys_In.
    + unfold init.
      rewrite (fold_dict_set_keys_In list_name (fun _ => 0%nat)).
      simpl. tauto.
    + intros i n E. unfold init.
      apply (fold_dict_set_keys_In list_name (fun _ => 0%nat)). right.
      apply dict_get_Some_In, dict_of_In in E.
      destruct E as (l & Hl & _ & <-). now apply in_map.
  - intros name count Hin.
    apply (dict_get_In _ _ _ Hnd) in Hin.
    apply (f_equal (fun o => get o 0%nat)) in Hin. simpl in Hin.
    rewrite <- Hin. unfold list_map. rewrite count_cards_named.
    unfold init. now rewrite zero_counts.
  - rewrite Hsum. apply filter_length_le.
Qed.

(** An entry of a due-date list, from the side of the cards. *)
Lemma due_cards_iff (test : card -> datetime -> bool) (list_map : dict string)
    (cards : list card) (e : due_entry) :
  In e (due_cards fromisoformat test list_map cards) <->
  exists c due_date_str due_date,
    In c cards /\ card_due c = Some due_date_str /\ due_date_str <> ""
    /\ parse_due fromisoformat due_date_str = Some due_date
    /\ test c due_date = true
    /\ e = due_entry_of list_map c due_date_str.
Proof.
  induction cards as [|c r IH]; simpl.
  - split; [contradiction | intros (c & s & d & [] & _)].
  - assert (Hskip :
      (card_due c = None \/ card_due c = Some ""
       \/ (exists s, card_due c = Some s
                     /\ parse_due fromisoformat s = None)
       \/ (exists s d, card_due c = Some s
                       /\ parse_due fromisoformat s = Some d
                       /\ test c d = false)) ->
      (In e (due_cards fromisoformat test list_map r) <->
       exists c0 s d,
         (c = c0 \/ In c0 r) /\ card_due c0 = Some s /\ s <> ""
         /\ parse_due fromisoformat s = Some d /\ test c0 d = true
         /\ e = due_entry_of list_map c0 s)).
    { intros Hc. rewrite IH. split.
      - intros (c0 & s & d & H0 & H). exists c0, s, d. tauto.
      - intros (c0 & s & d & [<-|H0] & Hd & Hs & Hp & Ht & He);
          [|exists c0, s, d; tauto].
        exfalso.
        destruct Hc as [Hc|[Hc|[(s' & Hc & Hn)|(s' & d' & Hc & Hp' & Hf)]]];
          congruence. }
    destruct (card_due c) as [s|] eqn:Hdue; [|apply Hskip; auto].
    unfold truthy. destruct (s =? "") eqn:Es; simpl.
    { apply String.eqb_eq in Es. subst s. apply Hskip. auto. }
    apply String.eqb_neq in Es.
    destruct (parse_due fromisoformat s) as [d|] eqn:Hp;
      [|apply Hskip; right; right; left; eauto].
    destruct (test c d) eqn:Ht;
      [|apply Hskip; right; right; right; eauto].
    simpl. rewrite IH. split.
    + intros [<-|(c0 & s0 & d0 & H0 & H)].
      * exists c, s, d. repeat split; auto.
      * exists c0, s0, d0. tauto.
    + intros (c0 & s0 & d0 & [<-|H0] & Hd & Hs & Hp0 & Ht0 & He).
      * left. rewrite Hdue in Hd. inversion Hd; subst. reflexivity.
      * right. exists c0, s0, d0. tauto.
Qed.

(** The two tests of the deadline loops, read against a clock without time
    zone. *)
Lemma is_approaching_iff (now : Z) (c : card) (d : datetime) :
  is_approaching (Naive now) (add_days (Naive now) 3) c d = true <->
  exists t, d = Naive t
            /\ (now < t <= now + 3 * microseconds_per_day)%Z
            /\ get (card_dueComplete c) false = false.
Proof.
  unfold is_approaching, add_days, dt_lt, dt_le. destruct d as [t|t].
  - destruct (Z.ltb_spec now t) as [H1|H1];
      [destruct (Z.leb_spec t (now + 3 * microseconds_per_day)) as [H2|H2]|].
    + rewrite negb_true_iff. split.
      * intros H. exists t. auto.
      * intros (t' & E & _ & H). exact H.
    + split; [discriminate|]. intros (t' & E & H & _).
      inversion E; subst. lia.
    + split; [discriminate|]. intros (t' & E & H & _).
      inversion E; subst. lia.
  - split; [discriminate|]. intros (t' & E & _). discriminate.
Qed.

Lemma is_overdue_iff (now : Z) (c : card) (d : datetime) :
  is_overdue (Naive now) c d = true <->
  exists t, d = Naive t /\ (t < now)%Z
            /\ get (card_dueComplete c) false = false.
Proof.
  unfold is_overdue, dt_lt. destruct d as [t|t].
  - destruct (Z.ltb_spec t now) as [H1|H1].
    + rewrite negb_true_iff. split.
      * intros H. exists t. auto.
      * intros (t' & E & _ & H). exact H.
    + split; [discriminate|]. intros (t' & E & H & _).
      inversion E; subst. lia.
  - split; [discriminate|]. intros (t' & E & _). discriminate.
Qed.

(** The deadline lists, from the side of the cards.  With [now] the reading
    of the clock, a card is listed as approaching its deadline exactly when
    its due date is set, parses to a date without time zone that is after
    [now] and at most three days after it, and is not marked complete; it
    is listed as overdue exactly when that date is before [now] and it is
    not marked complete.  A card that is due exactly [now] is in neither
    list. *)
Theorem deadline_lists (cards : list card) (lists : list trello_list)
    (k : nat) :
  let metrics :=
    fst (calculate_sprint_metrics fromisoformat clock cards lists k) in
  let now := clock k in
  let list_map := dict_of list_id list_name lists in
  (forall e,
      In e (sm_approaching_deadlines metrics) <->
      exists c due t,
        In c cards /\ card_due c = Some due /\ due <> ""
        /\ parse_due fromisoformat due = Some (Naive t)
        /\ (now < t <= now + 3 * microseconds_per_day)%Z
        /\ get (card_dueComplete c) false = false
        /\ e = due_entry_of list_map c due)
  /\ (forall e,
         In e (sm_overdue_cards metrics) <->
         exists c due t,
           In c cards /\ card_due c = Some due /\ due <> ""
           /\ parse_due fromisoformat due = Some (Naive t)
           /\ (t < now)%Z
           /\ get (card_dueComplete c) false = false
           /\ e = due_entry_of list_map c due).
Proof.
  intros metrics now list_map. subst metrics.
  unfold calculate_sprint_metrics, bind, datetime_now, ret. simpl.
  fold now. fold list_map. split; intros e; rewrite due_cards_iff; split.
  - intros (c & s & d & Hc & Hd & Hs & Hp & Ht & He).
    apply is_approaching_iff in Ht. destruct Ht as (t & -> & Ht & Hdc).
    exists c, s, t. repeat split; auto; apply Ht.
  - intros (c & s & t & Hc & Hd & Hs & Hp & Ht & Hdc & He).
    exists c, s, (Naive t). repeat split; auto.
    apply is_approaching_iff. exists t. auto.
  - intros (c & s & d & Hc & Hd & Hs & Hp & Ht & He).
    apply is_overdue_iff in Ht. destruct Ht as (t & -> & Ht & Hdc).
    exists c, s, t. repeat split; auto.
  - intros (c & s & t & Hc & Hd & Hs & Hp & Ht & Hdc & He).
    exists c, s, (Naive t). repeat split; auto.
    apply is_overdue_iff. exists t. auto.
Qed.

End MetricCounts.

(** ** The statistics of the members *)

Section MemberStatistics.

Import DataUtils.

Variable fromisoformat : string -> option datetime.
Variable clock : nat -> Z.

Lemma dict_set_twice {V : Type} (d : dict V) (k : string) (v0 v : V) :
  dict_set (dict_set d k v0) k v = dict_set d k v.
Proof.
  induction d as [|[k0 v1] r IH]; simpl.
  - now rewrite String.eqb_refl.
  - destruct (k0 =? k) eqn:E; simpl; rewrite E; [reflexivity|].
    now rewrite IH.
Qed.

Lemma dict_set_Forall {V : Type} (P : V -> Prop) (d : dict V) (k : string)
    (v : V) :
  Forall (fun kv => P (snd kv)) d -> P v ->
  Forall (fun kv => P (snd kv)) (dict_set d k v).
Proof.
  intros Hd Hv. apply Forall_forall. intros [k' v'] Hin.
  apply dict_set_In in Hin. destruct Hin as [E|Hin].
  - inversion E; subst. exact Hv.
  - rewrite Forall_forall in Hd. exact (Hd _ Hin).
Qed.

Lemma percentage_bounds (a b : nat) :
  (a <= b)%nat -> (0 < b)%nat -> 0 <= num a / num b * 100 <= 100.
Proof.
  intros Hle Hb. unfold num.
  assert (Hpos : 0 < inject_Z (Z.of_nat b)).
  { change 0 with (inject_Z 0). rewrite <- Zlt_Qlt. lia. }
  split.
  - apply Qmult_le_0_compat; [|discriminate].
    apply Qle_shift_div_l; [exact Hpos|]. rewrite Qmult_0_l.
    change 0 with (inject_Z 0). rewrite <- Zle_Qle. lia.
  - setoid_replace 100 with (1 * 100) at 2 by reflexivity.
    apply Qmult_le_compat_r; [|discriminate].
    apply Qle_shift_div_r; [exact Hpos|]. rewrite Qmult_1_l.
    rewrite <- Zle_Qle. lia.
Qed.

Lemma done_test (c : card) :
  (get (card_listName c) "Unknown" =? "Done") = get_eq (card_listName c) "Done".
Proof. destruct (card_listName c); reflexivity. Qed.

(** One assignment keeps the counters of every member consistent, and
    leaves no member without a card. *)
Lemma assign_consistent (member_map : dict string) (c : card) (id : string)
    (d : dict member_stats) (k : nat) :
  Forall (fun kv => consistent (snd kv) /\ (1 <= ms_total (snd kv))%nat) d ->
  Forall (fun kv => consistent (snd kv) /\ (1 <= ms_total (snd kv))%nat)
         (fst (assign fromisoformat clock member_map c id d k)).
Proof.
  intros Hd. unfold assign, bind, ret.
  set (name := get (dict_get member_map id) "Unknown").
  destruct (overdue_check fromisoformat clock c k) as [b k']. simpl.
  assert (Hstats :
    consistent
      (get (dict_get (if dict_mem d name then d
                      else dict_set d name new_stats) name) new_stats)).
  { unfold dict_mem. destruct (dict_get d name) as [st|] eqn:E; simpl.
    - rewrite E. apply dict_get_Some_In in E. rewrite Forall_forall in Hd.
      apply (Hd _ E).
    - rewrite dict_get_set_same. repeat split; simpl; lia. }
  revert Hstats.
  generalize (get (dict_get (if dict_mem d name then d
                             else dict_set d name new_stats) name) new_stats).
  intros st (Hlen & Hdone & Hover).
  assert (Hset :
    forall v,
      dict_set (if dict_mem d name then d else dict_set d name new_stats)
               name v
      = dict_set d name v).
  { intros v. destruct (dict_mem d name); [reflexivity|].
    apply dict_set_twice. }
  rewrite Hset.
  apply (dict_set_Forall
           (fun s => consistent s /\ (1 <= ms_total s)%nat)); [exact Hd|].
  unfold consistent, done_cards in *.
  destruct (get_eq (card_listName c) "Done") eqn:E, b; simpl;
    rewrite ?length_app, ?filter_app, ?length_app; simpl;
    rewrite done_test, E; simpl; repeat split; lia.
Qed.

Lemma loops_consistent (cards : list card) (member_map : dict string)
    (k : nat) :
  Forall (fun kv => consistent (snd kv) /\ (1 <= ms_total (snd kv))%nat)
         (fst (for_each cards
                 (fun c =>
                    for_each (get (card_idMembers c) [])
                      (assign fromisoformat clock member_map c))
                 [] k)).
Proof.
  apply (for_each_invariant
           (fun d =>
              Forall (fun kv => consistent (snd kv)
                                /\ (1 <= ms_total (snd kv))%nat) d));
    [|constructor].
  intros c s k0 Hs.
  apply (for_each_invariant
           (fun d =>
              Forall (fun kv => consistent (snd kv)
                                /\ (1 <= ms_total (snd kv))%nat) d));
    [|exact Hs].
  intros id s' k1 Hs'. now apply assign_consistent.
Qed.

Lemma sum_at_least (ns : list nat) :
  Forall (fun n => (1 <= n)%nat) ns -> (List.length ns <= sum ns)%nat.
Proof.
  induction 1 as [|n r Hn _ IH]; [apply Nat.le_0_l|].
  rewrite sum_cons. simpl. lia.
Qed.

(** The statistics of the members: every referenced member has at least one
    card; [total] is the number of its cards, [completed] the number of
    those in "Done", neither [completed] nor [overdue] exceeds [total], and
    [completion_rate] is [completed / total * 100], between 0 and 100;
    [member_count] is the number of referenced members, and the average is
    at least 1 when there is one. *)
Theorem member_statistics (cards : list card) (members : list member)
    (k : nat) :
  let r := fst (analyze_team_performance fromisoformat clock cards members k) in
  tp_member_count r = List.length (tp_cards_by_member r)
  /\ Forall (fun kv =>
               let stats := snd kv in
               (1 <= ms_total stats)%nat
               /\ consistent stats
               /\ (ms_completed stats <= ms_total stats)%nat
               /\ exists rate,
                    ms_completion_rate stats = Some rate
                    /\ rate = num (ms_completed stats) / num (ms_total stats)
                              * 100
                    /\ 0 <= rate <= 100)
            (tp_cards_by_member r)
  /\ (tp_cards_by_member r = [] /\ tp_avg_cards_per_member r = 0
      \/ tp_cards_by_member r <> [] /\ 1 <= tp_avg_cards_per_member r).
Proof.
  intros r. subst r.
  pose proof (loops_consistent cards
                (dict_of member_id display_name members) k) as Hloop.
  unfold analyze_team_performance, bind, ret. revert Hloop.
  name_loop d k'. simpl. intros Hd.
  assert (Hall :
    Forall (fun kv =>
              let stats := snd kv in
              (1 <= ms_total stats)%nat
              /\ consistent stats
              /\ (ms_completed stats <= ms_total stats)%nat
              /\ exists rate,
                   ms_completion_rate stats = Some rate
                   /\ rate = num (ms_completed stats) / num (ms_total stats)
                             * 100
                   /\ 0 <= rate <= 100)
           (map (fun kv => (fst kv, with_completion_rate (snd kv))) d)).
  { apply Forall_forall. intros [name st] Hin. apply in_map_iff in Hin.
    destruct Hin as ([name0 st0] & E & Hin). inversion E; subst. clear E.
    rewrite Forall_forall in Hd. destruct (Hd _ Hin) as [Hc Hone].
    simpl in Hc, Hone. simpl.
    assert (Hle : (ms_completed st0 <= ms_total st0)%nat).
    { destruct Hc as (Hlen & Hdone & _). rewrite Hdone, <- Hlen.
      apply filter_length_le. }
    repeat split; auto; try apply Hc.
    exists (num (ms_completed st0) / num (ms_total st0) * 100).
    assert (Hpos : (0 <? ms_total st0)%nat = true) by (apply Nat.ltb_lt; lia).
    rewrite Hpos. repeat split; try reflexivity;
      apply percentage_bounds; lia. }
  split; [reflexivity|]. split; [exact Hall|].
  destruct d as [|kv d]; [left; split; reflexivity|]. right.
  split; [discriminate|]. simpl.
  set (totals :=
         map ms_total
           (dict_values
              (map (fun kv => (fst kv, with_completion_rate (snd kv)))
                   (kv :: d)))).
  assert (Hn : (List.length totals <= sum totals)%nat).
  { apply sum_at_least. subst totals. unfold dict_values.
    rewrite !Forall_map. rewrite Forall_map in Hall.
    revert Hall. apply Forall_impl. intros a H. apply H. }
  assert (Hlen : List.length totals = S (List.length d)).
  { subst totals. unfold dict_values. now rewrite !length_map. }
  change (1 <= num (sum totals)
               / num (S (List.length
                           (map (fun kv => (fst kv,
                                            with_completion_rate (snd kv)))
                                d)))).
  rewrite length_map, <- Hlen. unfold num.
  apply Qle_shift_div_l.
  - change 0 with (inject_Z 0). rewrite <- Zlt_Qlt. lia.
  - rewrite Qmult_1_l, <- Zle_Qle. lia.
Qed.

End MemberStatistics.

(** ** How many entries can be above the threshold *)

Section Thresholds.

Import DataUtils.

Variable fromisoformat : string -> option datetime.
Variable clock : nat -> Z.

(** The comparison with 1.5 times the average, on the counts. *)
Lemma above_threshold_iff (total n count : nat) :
  (0 < n)%nat ->
  (num total / num n * 1.5 < num count <-> (3 * total < 2 * n * count)%nat).
Proof.
  intros Hn. unfold num.
  assert (Hpos : 0 < inject_Z (Z.of_nat n)).
  { change 0 with (inject_Z 0). rewrite <- Zlt_Qlt. lia. }
  assert (Hne : ~ inject_Z (Z.of_nat n) == 0).
  { intros E. rewrite E in Hpos. discriminate. }
  assert (E : inject_Z (Z.of_nat total) / inject_Z (Z.of_nat n) * 1.5
              == inject_Z (Z.of_nat total) * 1.5 / inject_Z (Z.of_nat n))
    by (field; exact Hne).
  rewrite E. clear E. split.
  - intros H.
    assert (H' : inject_Z (Z.of_nat total) * 1.5
                 < inject_Z (Z.of_nat count) * inject_Z (Z.of_nat n)).
    { apply (Qmult_lt_r _ _ _ Hpos) in H. revert H.
      setoid_replace
        (inject_Z (Z.of_nat total) * 1.5 / inject_Z (Z.of_nat n)
         * inject_Z (Z.of_nat n))
        with (inject_Z (Z.of_nat total) * 1.5) by (field; exact Hne).
      auto. }
    unfold Qlt in H'. simpl in H'. rewrite <- Nat2Z.inj_mul in H'.
    replace (2 * n * count)%nat with (2 * (count * n))%nat by ring.
    revert H'. generalize (count * n)%nat. intros m H'. lia.
  - intros H. apply Qlt_shift_div_r; [exact Hpos|].
    unfold Qlt. simpl. rewrite <- Nat2Z.inj_mul.
    replace (2 * n * count)%nat with (2 * (count * n))%nat in H by ring.
    revert H. generalize (count * n)%nat. intros m H. lia.
Qed.

Lemma sum_filter_le {V : Type} (val : V -> nat) (p : string * V -> bool)
    (d : dict V) :
  (sum (map val (dict_values (filter p d)))
   <= sum (map val (dict_values d)))%nat.
Proof.
  unfold dict_values. induction d as [|kv r IH]; simpl; [apply Nat.le_refl|].
  destruct (p kv); simpl; rewrite ?sum_cons; lia.
Qed.

(** Fewer than two thirds of the entries can be above 1.5 times the
    average, and none when every count is 0. *)
Lemma few_above_threshold {V : Type} (val : V -> nat) (d : dict V) :
  let avg := average (map val (dict_values d)) in
  let flagged :=
    filter (fun kv => Qlt_bool (avg * 1.5) (num (val (snd kv)))) d in
  flagged <> [] ->
  0 < avg
  /\ (0 < sum (map val (dict_values d)))%nat
  /\ (3 * List.length flagged < 2 * List.length d)%nat.
Proof.
  intros avg flagged Hne.
  assert (Hd : d <> []).
  { intros E. apply Hne. subst flagged. now rewrite E. }
  set (n := List.length d).
  set (total := sum (map val (dict_values d))).
  assert (Hn : (0 < n)%nat).
  { subst n. destruct d; [now elim Hd | simpl; lia]. }
  assert (Havg : avg = num total / num n).
  { subst avg total n. destruct d; [now elim Hd|].
    unfold average, dict_values. simpl. now rewrite !length_map. }
  assert (Hall : Forall (fun kv => (3 * total < 2 * n * val (snd kv))%nat)
                        flagged).
  { apply Forall_forall. intros kv Hin. apply filter_In in Hin.
    destruct Hin as [_ Hin]. apply Qlt_bool_iff in Hin. rewrite Havg in Hin.
    now apply above_threshold_iff in Hin. }
  assert (Hsum : (3 * total * List.length flagged + List.length flagged
                  <= 2 * n * sum (map val (dict_values flagged)))%nat).
  { clear Hne. unfold dict_values.
    induction Hall as [|kv r Hkv _ IH]; simpl; [lia|].
    rewrite sum_cons. nia. }
  pose proof (sum_filter_le val
                (fun kv => Qlt_bool (avg * 1.5) (num (val (snd kv)))) d)
    as Hle.
  fold flagged in Hle. fold total in Hle.
  assert (Hlen : (0 < List.length flagged)%nat).
  { destruct flagged; [now elim Hne | simpl; lia]. }
  revert Hsum Hle. generalize (sum (map val (dict_values flagged))).
  clearbody total. intros part Hsum Hle.
  assert (Htotal : (0 < total)%nat).
  { destruct total; [|lia]. replace part with 0%nat in Hsum by lia.
    rewrite Nat.mul_0_r in Hsum. lia. }
  assert (Hpart : (2 * n * part <= 2 * n * total)%nat)
    by (apply Nat.mul_le_mono_l; exact Hle).
  assert (Hthird : (3 * List.length flagged < 2 * n)%nat).
  { destruct (Nat.lt_ge_cases (3 * List.length flagged) (2 * n))
      as [H|H]; [exact H|].
    apply (Nat.mul_le_mono_r _ _ total) in H. lia. }
  split; [|split; [exact Htotal | exact Hthird]].
  rewrite Havg. unfold num. apply Qlt_shift_div_l.
  - change 0 with (inject_Z 0). rewrite <- Zlt_Qlt. lia.
  - rewrite Qmult_0_l. change 0 with (inject_Z 0). rewrite <- Zlt_Qlt. lia.
Qed.

Lemma above_threshold_cases {V : Type} (val : V -> nat) (d : dict V) :
  let avg := average (map val (dict_values d)) in
  let flagged :=
    filter (fun kv => Qlt_bool (avg * 1.5) (num (val (snd kv)))) d in
  (3 * List.length flagged <= 2 * List.length d)%nat
  /\ (flagged = []
      \/ (3 * List.length flagged < 2 * List.length d)%nat
         /\ 0 < avg
         /\ (0 < sum (map val (dict_values d)))%nat).
Proof.
  intros avg flagged.
  assert (H : flagged = [] \/ flagged <> []).
  { subst flagged.
    match goal with
    | |- ?l = [] \/ _ => destruct l; [now left | right; discriminate]
    end. }
  destruct H as [H|H].
  - rewrite H. simpl. split; [lia | now left].
  - destruct (few_above_threshold val d H) as (Hpos & Hsum & Hlt).
    fold avg in Hpos. fold avg flagged in Hlt. split; [lia | right; auto].
Qed.

(** The ratio reported with a flagged entry. *)
Lemma ratio_above {avg : Q} (count : nat) :
  0 < avg -> avg * 1.5 < num count ->
  (0 < count)%nat /\ 1.5 < num count / avg.
Proof.
  intros Hpos H. split.
  - assert (H0 : 0 < num count).
    { apply Qlt_trans with (avg * 1.5); [|exact H].
      apply Qmult_lt_0_compat; [exact Hpos | reflexivity]. }
    unfold num in H0. change 0 with (inject_Z 0) in H0.
    rewrite <- Zlt_Qlt in H0. lia.
  - apply Qlt_shift_div_l; [exact Hpos|]. now rewrite Qmult_comm.
Qed.

(** The team statistics are computed from the totals alone. *)
Lemma workload_of_totals (cards : list card) (members : list member)
    (k : nat) :
  let r := fst (analyze_team_performance fromisoformat clock cards members k) in
  let avg := average (map ms_total (dict_values (tp_cards_by_member r))) in
  tp_avg_cards_per_member r = avg
  /\ tp_members_with_high_workload r
     = map (fun kv =>
              mkWorkloadEntry (fst kv) (ms_total (snd kv))
                (if Qlt_bool 0 avg then num (ms_total (snd kv)) / avg else 0))
           (filter (fun kv => Qlt_bool (avg * 1.5) (num (ms_total (snd kv))))
                   (tp_cards_by_member r)).
Proof.
  intros r avg.
  assert (E : tp_avg_cards_per_member r = avg).
  { subst avg r. unfold analyze_team_performance, bind, ret.
    name_loop d k'. simpl. destruct d as [|kv d]; [reflexivity|].
    unfold average, dict_values. simpl. now rewrite !length_map. }
  split; [exact E|]. rewrite <- E. subst r.
  unfold analyze_team_performance, bind, ret. name_loop d k'. reflexivity.
Qed.

(** Fewer than two thirds of the list names can be bottlenecks: a board
    with one list name has none, a board with two has at most one; a board
    without a counted card has none.  A bottleneck has at least one card,
    and its reported ratio is its count divided by the average, above
    1.5. *)
Theorem bottlenecks_are_few (cards : list card) (lists : list trello_list) :
  let r := identify_process_bottlenecks cards lists in
  let names := List.length (pb_cards_by_list r) in
  (3 * List.length (pb_bottlenecks r) <= 2 * names)%nat
  /\ (pb_bottlenecks r = []
      \/ (3 * List.length (pb_bottlenecks r) < 2 * names)%nat
         /\ 0 < pb_avg_cards_per_list r
         /\ (0 < sum (dict_values (pb_cards_by_list r)))%nat)
  /\ Forall (fun b =>
               (0 < bn_card_count b)%nat
               /\ bn_ratio_to_avg b
                  = num (bn_card_count b) / pb_avg_cards_per_list r
               /\ 1.5 < bn_ratio_to_avg b)
            (pb_bottlenecks r).
Proof.
  intros r names. subst names.
  destruct (bottlenecks_of_counts cards lists) as [Havg Hb]. fold r in Havg, Hb.
  destruct (above_threshold_cases (fun n => n) (pb_cards_by_list r))
    as [Hle Hcases].
  rewrite map_id in Hle, Hcases.
  rewrite Hb, Havg, length_map.
  set (avg := average (dict_values (pb_cards_by_list r))) in *.
  split; [exact Hle|]. split.
  - destruct Hcases as [E|Hsome]; [left; now rewrite E | right; exact Hsome].
  - apply Forall_forall. intros b Hin.
    apply in_map_iff in Hin. destruct Hin as (kv & <- & Hin). simpl.
    destruct Hcases as [E|(_ & Hpos & _)]; [rewrite E in Hin; elim Hin|].
    apply filter_In in Hin. destruct Hin as [_ Hin].
    apply Qlt_bool_iff in Hin.
    destruct (ratio_above (snd kv) Hpos Hin) as [Hc Hr].
    apply Qlt_bool_iff in Hpos. rewrite Hpos. auto.
Qed.

(** Fewer than two thirds of the referenced members can have a high
    workload: a lone member never has, and of two members at most one.
    The reported ratio of a flagged member is its total divided by the
    average, above 1.5. *)
Theorem high_workload_members_are_few (cards : list card)
    (members : list member) (k : nat) :
  let r := fst (analyze_team_performance fromisoformat clock cards members k) in
  let flagged := tp_members_with_high_workload r in
  (3 * List.length flagged <= 2 * tp_member_count r)%nat
  /\ (flagged = []
      \/ (3 * List.length flagged < 2 * tp_member_count r)%nat
         /\ 0 < tp_avg_cards_per_member r)
  /\ Forall (fun e =>
               (0 < we_cards_count e)%nat
               /\ we_avg_ratio e
                  = num (we_cards_count e) / tp_avg_cards_per_member r
               /\ 1.5 < we_avg_ratio e)
            flagged.
Proof.
  intros r flagged. subst flagged.
  destruct (workload_of_totals cards members k) as [Havg Hw].
  fold r in Havg, Hw.
  assert (Hcount : tp_member_count r = List.length (tp_cards_by_member r)).
  { subst r. unfold analyze_team_performance, bind, ret.
    name_loop d k'. reflexivity. }
  destruct (above_threshold_cases ms_total (tp_cards_by_member r))
    as [Hle Hcases].
  rewrite Hw, Havg, Hcount, length_map.
  set (avg := average (map ms_total (dict_values (tp_cards_by_member r))))
    in *.
  split; [exact Hle|]. split.
  - destruct Hcases as [E|(Hlt & Hpos & _)];
      [left; now rewrite E | right; auto].
  - apply Forall_forall. intros e Hin.
    apply in_map_iff in Hin. destruct Hin as (kv & <- & Hin). simpl.
    destruct Hcases as [E|(_ & Hpos & _)]; [rewrite E in Hin; elim Hin|].
    apply filter_In in Hin. destruct Hin as [_ Hin].
    apply Qlt_bool_iff in Hin.
    destruct (ratio_above (ms_total (snd kv)) Hpos Hin) as [Hc Hr].
    apply Qlt_bool_iff in Hpos. rewrite Hpos. auto.
Qed.

End Thresholds.

(** ** The burn-down figures *)

Section BurnDown.

Import Analysis.

Lemma num_pos (n : nat) : (0 < n)%nat -> 0 < num n.
Proof.
  intros H. unfold num. change 0 with (inject_Z 0). rewrite <- Zlt_Qlt. lia.
Qed.

Lemma num_nonzero (n : nat) : (0 < n)%nat -> ~ num n == 0.
Proof. intros H E. apply num_pos in H. rewrite E in H. discriminate. Qed.

Lemma num_le (a b : nat) : (a <= b)%nat -> num a <= num b.
Proof. intros H. unfold num. rewrite <- Zle_Qle. lia. Qed.

Lemma num_sub (a b : nat) : (b <= a)%nat -> num (a - b) == num a - num b.
Proof.
  intros H. unfold num. rewrite Nat2Z.inj_sub by exact H.
  unfold Z.sub. rewrite inject_Z_plus, inject_Z_opp. reflexivity.
Qed.

(** The part of [t] burnt by day [d] of [m]. *)
Lemma fraction_bounds (t d m : nat) :
  (d <= m)%nat -> (0 < m)%nat -> 0 <= num t * num d / num m <= num t.
Proof.
  intros Hd Hm. pose proof (num_pos m Hm) as Hpos. split.
  - apply Qle_shift_div_l; [exact Hpos|]. rewrite Qmult_0_l.
    apply Qmult_le_0_compat; apply (num_le 0); lia.
  - apply Qle_shift_div_r; [exact Hpos|].
    unfold num. rewrite <- !inject_Z_mult, <- Zle_Qle.
    apply Z.mul_le_mono_nonneg_l; lia.
Qed.

(** The burn-down figures: no more cards are completed than there are, and
    the remaining points are their difference; the ideal line has the days
    0 to 10 and falls from the total to 0 by a tenth of the total a day; the
    actual line has the days 0 to 5, stays between the remaining points and
    the total, and ends on the remaining points; the projection is "Cannot
    estimate" when no card is complete, and otherwise the remaining points
    times the total, divided by the completed points. *)
Theorem burn_down_lines (cards : list card) (lists : list trello_list) :
  let bd := _calculate_burn_down cards lists in
  let total := bd_total_points bd in
  let completed := bd_completed_points bd in
  total = List.length cards
  /\ completed = count_complete cards
  /\ (completed <= total)%nat
  /\ bd_remaining_points bd = Z.of_nat (total - completed)
  /\ map bp_day (bd_ideal_burn_down bd) = seq 0 11
  /\ Forall (fun p =>
               bp_points p == num total * (10 - num (bp_day p)) / 10
               /\ 0 <= bp_points p <= num total)
            (bd_ideal_burn_down bd)
  /\ map bp_day (bd_actual_burn_down bd) = seq 0 6
  /\ Forall (fun p =>
               num (total - completed) <= bp_points p <= num total
               /\ (bp_day p = 5%nat ->
                   bp_points p == num (total - completed)))
            (bd_actual_burn_down bd)
  /\ match bd_projected_completion bd with
     | Text s => s = "Cannot estimate" /\ completed = 0%nat
     | Estimate days =>
         (0 < completed)%nat
         /\ days == num (total - completed) * num total / num completed
     end.
Proof.
  intros bd total completed. subst bd total completed.
  unfold _calculate_burn_down. cbv zeta.
  cbn [bd_total_points bd_completed_points bd_remaining_points
       bd_ideal_burn_down bd_actual_burn_down bd_projected_completion].
  set (total := List.length cards). set (completed := count_complete cards).
  assert (Hle : (completed <= total)%nat) by apply filter_length_le.
  split; [reflexivity|]. split; [reflexivity|]. split; [exact Hle|].
  split; [lia|].
  split; [reflexivity|].
  split.
  { apply Forall_forall. intros p Hin. apply in_map_iff in Hin.
    destruct Hin as (day & <- & Hday). apply in_seq in Hday. simpl.
    split; [field|].
    destruct (fraction_bounds total day 10) as [H0 H1]; [lia | lia |].
    change (num 10) with 10 in H0, H1. split.
    - apply (Qplus_le_r _ _ (num total * num day / 10)). ring_simplify.
      exact H1.
    - apply (Qplus_le_r _ _ (num total * num day / 10)). ring_simplify.
      rewrite <- (Qplus_0_l (num total)) at 1.
      apply Qplus_le_l. exact H0. }
  split; [reflexivity|].
  split.
  { apply Forall_forall. intros p Hin. apply in_map_iff in Hin.
    destruct Hin as (day & <- & Hday). apply in_seq in Hday. simpl.
    destruct (fraction_bounds completed day 5) as [H0 H1]; [lia | lia |].
    rewrite (num_sub total completed Hle). repeat split.
    - apply Qplus_le_r. apply Qopp_le_compat. exact H1.
    - apply (Qplus_le_r _ _ (num completed * num day / num 5)).
      ring_simplify.
      rewrite <- (Qplus_0_l (num total)) at 1.
      apply Qplus_le_l. exact H0.
    - intros ->. change (num 5) with 5. field. }
  destruct (0 <? total)%nat eqn:Et.
  - apply Nat.ltb_lt in Et.
    destruct (Nat.eq_0_gt_0_cases completed) as [E0|Hpos].
    + rewrite E0.
      assert (E : Qlt_bool 0 (num 0 / num total) = false).
      { apply not_true_iff_false. rewrite Qlt_bool_iff.
        unfold Qdiv. rewrite Qmult_0_l. discriminate. }
      rewrite E. split; reflexivity.
    + assert (E : Qlt_bool 0 (num completed / num total) = true).
      { apply Qlt_bool_iff. apply Qlt_shift_div_l; [now apply num_pos|].
        rewrite Qmult_0_l. now apply num_pos. }
      rewrite E. split; [exact Hpos|].
      rewrite <- Nat2Z.inj_sub by exact Hle.
      change (inject_Z (Z.of_nat (total - completed)))
        with (num (total - completed)).
      field. split; now apply num_nonzero.
  - apply Nat.ltb_ge in Et. simpl. split; [reflexivity | lia].
Qed.

End BurnDown.

(** ** The figures of the analysis of a normalised snapshot *)

Section Pipeline.

Import DataCollection DataUtils Analysis.

Variable fromisoformat : string -> option datetime.
Variable clock : nat -> Z.

Lemma fold_left_over_map {X Y S : Type} (f : S -> Y -> S) (g : X -> Y)
    (xs : list X) (s : S) :
  fold_left f (map g xs) s = fold_left (fun s x => f s (g x)) xs s.
Proof. revert s. induction xs as [|x r IH]; intros s; simpl; auto. Qed.

(** With distinct list ids the detector of bottlenecks counts as the metrics
    do, name by name and in the same order. *)
Lemma detector_counts (cards : list card) (lists : list trello_list)
    (k : nat) :
  NoDup (map list_id lists) ->
  pb_cards_by_list (identify_process_bottlenecks cards lists)
  = sm_cards_by_list
      (fst (calculate_sprint_metrics fromisoformat clock cards lists k)).
Proof.
  intros Hids.
  unfold identify_process_bottlenecks, calculate_sprint_metrics, bind,
    datetime_now, ret. simpl.
  rewrite bottleneck_list_map. f_equal.
  rewrite dict_of_NoDup by exact Hids. now rewrite fold_left_over_map.
Qed.

(** Which list a card is in does not depend on the order of the lists, when
    their ids are distinct. *)
Lemma in_list_named_perm (lists lists' : list trello_list) (name : string)
    (c : card) :
  NoDup (map list_id lists) -> Permutation lists' lists ->
  in_list_named lists' name c = in_list_named lists name c.
Proof.
  intros Hids Hp. apply bool_eq_iff.
  assert (Hids' : NoDup (map list_id lists')).
  { apply (Permutation_NoDup (l := map list_id lists)); [|exact Hids].
    apply Permutation_map. now symmetry. }
  rewrite (in_list_named_iff lists' name c Hids').
  rewrite (in_list_named_iff lists name c Hids).
  split; intros (l & Hl & H); exists l; split; auto.
  - now apply (Permutation_in _ Hp).
  - now apply (Permutation_in _ (Permutation_sym Hp)).
Qed.

Lemma filter_map_length {X Y : Type} (p : Y -> bool) (f : X -> Y)
    (xs : list X) :
  List.length (filter p (map f xs))
  = List.length (filter (fun x => p (f x)) xs).
Proof.
  induction xs as [|x r IH]; simpl; [reflexivity|].
  destruct (p (f x)); simpl; now rewrite IH.
Qed.

(** The normaliser marks as complete the cards in a list named "Done". *)
Lemma process_card_complete (lists : list trello_list) (c : card)
    (member_map : dict member) :
  get (card_isComplete
         (_process_card c (dict_of list_id (fun l => l) lists) member_map))
      false
  = in_list_named lists "Done" c.
Proof.
  unfold _process_card. simpl. rewrite resolve_list_name_counted.
  unfold in_list_named. now destruct (counted_in lists c).
Qed.

Lemma process_card_list (lists : list trello_list) (name : string) (c : card)
    (list_map : dict trello_list) (member_map : dict member) :
  in_list_named lists name (_process_card c list_map member_map)
  = in_list_named lists name c.
Proof. reflexivity. Qed.

(** The analysis of a normalised snapshot whose lists have distinct ids.
    The analysis returns results; the totals of the metrics, of the
    burn-down and of the velocity are the number of cards of the board;
    the completed points of the burn-down and of the velocity are the
    number of cards in a list named "Done", which is the count the metrics
    give for "Done"; the completion percentage of the velocity is the
    completion rate of the metrics; every count of the metrics is the
    number of cards of the board in a list of that name; and the detector
    of bottlenecks has the same counts. *)
Theorem normalised_snapshot_figures (b : board) (cards : list card)
    (lists : list trello_list) (k : nat) :
  board_error b = None ->
  board_cards b = Some cards ->
  board_lists b = Some lists ->
  NoDup (map list_id lists) ->
  exists r,
    fst (analyze_sprint_data fromisoformat clock (process_trello_data b) k)
    = Results r
    /\ let completed :=
         List.length (filter (in_list_named lists "Done") cards) in
       let metrics := ar_sprint_metrics r in
       let current := v_current_sprint (ar_velocity r) in
       sm_total_cards metrics = List.length cards
       /\ bd_total_points (ar_burn_down r) = List.length cards
       /\ cs_total_points current = List.length cards
       /\ bd_completed_points (ar_burn_down r) = completed
       /\ cs_completed_points current = completed
       /\ get (dict_get (sm_cards_by_list metrics) "Done") 0%nat = completed
       /\ cs_completion_percentage current = sm_completion_rate metrics
       /\ (forall name count,
              In (name, count) (sm_cards_by_list metrics) ->
              count = List.length (filter (in_list_named lists name) cards))
       /\ pb_cards_by_list (ar_process_bottlenecks r)
          = sm_cards_by_list metrics.
Proof.
  intros Herr Hcards Hlists Hids.
  assert (Hne : board_is_empty b = false).
  { unfold board_is_empty. rewrite Hcards. simpl. now rewrite !orb_true_r. }
  unfold process_trello_data. rewrite Hne, Herr, Hcards, Hlists.
  cbn [orb has_key get].
  set (member_map := dict_of member_id (fun m => m) (get (board_members b) [])).
  set (list_map := dict_of list_id (fun l => l) lists).
  set (processed := map (fun c => _process_card c list_map member_map) cards).
  set (sorted_lists := sorted (fun l => get (list_pos l) 0) lists).
  destruct (sorted_stable (fun l => get (list_pos l) 0) lists)
    as (Hperm & _ & _).
  fold sorted_lists in Hperm.
  assert (Hids' : NoDup (map list_id sorted_lists)).
  { apply (Permutation_NoDup (l := map list_id lists)); [|exact Hids].
    apply Permutation_map. now symmetry. }
  assert (Hnamed : forall name,
             List.length (filter (in_list_named sorted_lists name) processed)
             = List.length (filter (in_list_named lists name) cards)).
  { intros name. unfold processed. rewrite filter_map_length. f_equal.
    apply filter_ext. intros c. rewrite process_card_list.
    now apply in_list_named_perm. }
  assert (Hcomplete :
            count_complete processed
            = List.length (filter (in_list_named lists "Done") cards)).
  { unfold count_complete, processed. rewrite filter_map_length. f_equal.
    apply filter_ext. intros c. apply process_card_complete. }
  assert (Hlen : List.length processed = List.length cards)
    by apply length_map.
  set (members := get (board_members b) []).
  unfold analyze_sprint_data, board_is_empty.
  cbn [board_error board_board_id board_cards board_lists board_members
       board_cards_by_list board_timestamp board_status has_key].
  rewrite !orb_true_r. cbn [orb negb get].
  unfold bind, ret, datetime_now.
  pose proof (completion_rate_done fromisoformat clock processed sorted_lists k)
    as Hrate.
  pose proof (detector_counts processed sorted_lists k Hids') as Hdet.
  assert (Hcounts :
    forall name,
      get (dict_get
             (sm_cards_by_list
                (fst (calculate_sprint_metrics fromisoformat clock processed
                        sorted_lists k))) name) 0%nat
      = List.length (filter (in_list_named sorted_lists name) processed)).
  { intros name.
    unfold calculate_sprint_metrics, bind, datetime_now, ret. simpl.
    now rewrite count_cards_named, zero_counts. }
  assert (Hnd :
    NoDup (dict_keys
             (sm_cards_by_list
                (fst (calculate_sprint_metrics fromisoformat clock processed
                        sorted_lists k))))).
  { unfold calculate_sprint_metrics, bind, datetime_now, ret. simpl.
    apply count_cards_NoDup.
    apply (fold_dict_set_NoDup list_name (fun _ => 0%nat)). constructor. }
  assert (Htotal :
    sm_total_cards
      (fst (calculate_sprint_metrics fromisoformat clock processed
              sorted_lists k))
    = List.length processed) by reflexivity.
  destruct (calculate_sprint_metrics fromisoformat clock processed
              sorted_lists k) as [metrics k1].
  destruct (analyze_team_performance fromisoformat clock processed
              members k1) as [team k2].
  cbn [fst] in Hrate, Hdet, Hcounts, Hnd, Htotal. cbn [fst].
  eexists. split; [reflexivity|].
  cbn [ar_sprint_metrics ar_velocity ar_burn_down ar_process_bottlenecks].
  unfold _calculate_burn_down, _calculate_velocity.
  cbn [v_current_sprint cs_total_points cs_completed_points
       cs_completion_percentage bd_total_points bd_completed_points].
  rewrite Hcomplete, Hlen, Htotal, Hlen.
  repeat (split; [reflexivity|]).
  split; [now rewrite Hcounts, Hnamed|].
  split; [now rewrite Hrate, Hnamed, Hlen|].
  split; [|exact Hdet].
  intros name count Hin.
  apply (dict_get_In _ _ _ Hnd) in Hin.
  apply (f_equal (fun o => get o 0%nat)) in Hin. cbn [get] in Hin.
  now rewrite <- Hin, Hcounts, Hnamed.
Qed.

End Pipeline.

(** ** The risks of a normalised snapshot and of an empty board *)

Section PipelineRisks.

Import DataCollection DataUtils Analysis.

Variable fromisoformat : string -> option datetime.
Variable clock : nat -> Z.

(** The cards of a normalised snapshot assign nobody. *)
Lemma normalised_team_performance (b : board) (members : list member)
    (k : nat) :
  analyze_team_performance fromisoformat clock
    (get (board_cards (process_trello_data b)) []) members k
  = ({| tp_cards_by_member := [];
        tp_avg_cards_per_member := 0;
        tp_members_with_high_workload := [];
        tp_member_count := 0 |}, k).
Proof.
  unfold analyze_team_performance, bind.
  rewrite no_assignment; [reflexivity|].
  intros c Hc. apply processed_cards_of in Hc.
  destruct Hc as (raw & lm & mm & ->). reflexivity.
Qed.

(** Without a member with a high workload there is neither the risk of a
    workload imbalance nor the recommendation to balance the workload. *)
Lemma no_workload_risk (cards : list card) (sm : sprint_metrics)
    (tp : team_performance) (pb : process_bottlenecks) :
  tp_members_with_high_workload tp = [] ->
  let risks := _identify_risks cards sm tp pb in
  ~ In "workload_imbalance" (map risk_category risks)
  /\ ~ In "workload"
         (map rec_category (_generate_recommendations risks sm tp pb)).
Proof.
  intros Hnone. unfold _identify_risks. rewrite Hnone.
  destruct (Qlt_bool (sm_completion_rate sm) 70), (nonempty (sm_blockers sm)),
    (nonempty (sm_approaching_deadlines sm)), (nonempty (sm_overdue_cards sm)),
    (nonempty (pb_bottlenecks pb));
    cbn; (split; intros H; intuition discriminate).
Qed.

(** The analysis of a normalised snapshot.  An error of the snapshot is
    passed on.  Otherwise there are results: the team statistics are empty,
    so neither the risk "workload_imbalance" nor the recommendation
    "workload" is ever produced; and the clock is read twice, for the
    metrics and for the time stamp. *)
Theorem normalised_snapshot_risks (b : board) (k : nat) :
  match analyze_sprint_data fromisoformat clock (process_trello_data b) k with
  | (ErrorOnly msg, k') =>
      process_trello_data b = error_board msg
      /\ msg = get (board_error b) "Unknown error retrieving board data"
      /\ k' = k
  | (Results r, k') =>
      board_error b = None
      /\ tp_cards_by_member (ar_team_performance r) = []
      /\ tp_members_with_high_workload (ar_team_performance r) = []
      /\ ~ In "workload_imbalance" (map risk_category (ar_risks r))
      /\ ~ In "workload" (map rec_category (ar_recommendations r))
      /\ ar_timestamp r = Naive (clock (S k))
      /\ k' = S (S k)
  end.
Proof.
  unfold analyze_sprint_data.
  destruct (board_is_empty b || has_key (board_error b)) eqn:Eb.
  - unfold process_trello_data. rewrite Eb. simpl. auto.
  - apply orb_false_iff in Eb. destruct Eb as [Hne Herr].
    assert (Hnone : board_error b = None)
      by (destruct (board_error b); [discriminate | reflexivity]).
    assert (Hout : board_is_empty (process_trello_data b)
                   || has_key (board_error (process_trello_data b)) = false).
    { unfold process_trello_data. rewrite Hne, Herr. simpl.
      unfold board_is_empty. simpl. now rewrite !orb_true_r. }
    rewrite Hout. unfold bind at 1.
    destruct (calculate_sprint_metrics fromisoformat clock _ _ k)
      as [sm k1] eqn:Esm.
    assert (Hk1 : k1 = S k).
    { unfold calculate_sprint_metrics, bind, datetime_now, ret in Esm.
      now inversion Esm. }
    unfold bind at 1. rewrite normalised_team_performance.
    cbn [datetime_now bind ret ar_team_performance ar_risks
         ar_recommendations ar_timestamp tp_cards_by_member
         tp_members_with_high_workload].
    subst k1.
    match goal with
    | |- context [_identify_risks ?cs sm ?tp ?pb] =>
        destruct (no_workload_risk cs sm tp pb eq_refl) as [Hr Hrec]
    end.
    repeat split; auto.
Qed.

(** A board without cards has no bottleneck. *)
Lemma no_cards_no_bottleneck (lists : list trello_list) :
  pb_bottlenecks (identify_process_bottlenecks [] lists) = [].
Proof.
  destruct (bottlenecks_of_counts [] lists) as [_ Hb]. rewrite Hb.
  destruct (above_threshold_cases (fun n => n)
              (pb_cards_by_list (identify_process_bottlenecks [] lists)))
    as [_ [E|(_ & _ & Hsum)]].
  - rewrite map_id in E. now rewrite E.
  - exfalso. rewrite map_id in Hsum.
    unfold identify_process_bottlenecks in Hsum. simpl in Hsum.
    rewrite sum_zeros in Hsum; [lia|].
    apply (zero_init_sum (fun kv : string * (string * Q) => fst (snd kv))).
    constructor.
Qed.

(** A board without cards, whatever its lists and members: the analysis
    finds one risk, a low completion rate of severity "high", and gives the
    one recommendation to review the scope of the sprint. *)
Theorem empty_board_risk (b : board) (k : nat) :
  board_is_empty b = false ->
  board_error b = None ->
  get (board_cards b) [] = [] ->
  exists r,
    fst (analyze_sprint_data fromisoformat clock b k) = Results r
    /\ sm_completion_rate (ar_sprint_metrics r) = 0
    /\ map (fun x => (risk_category x, risk_severity x)) (ar_risks r)
       = [("completion_rate", "high")]
    /\ map (fun x => (rec_category x, rec_priority x)) (ar_recommendations r)
       = [("completion_rate", "high")].
Proof.
  intros Hne Herr Hcards. unfold analyze_sprint_data.
  rewrite Hne, Herr, Hcards. cbn [orb has_key].
  unfold bind, calculate_sprint_metrics, analyze_team_performance,
    datetime_now, ret.
  cbn [for_each ret fst snd bind].
  eexists. split; [reflexivity|].
  cbn [ar_sprint_metrics ar_risks ar_recommendations sm_completion_rate].
  unfold _identify_risks.
  cbn [sm_completion_rate sm_blockers sm_approaching_deadlines
       sm_overdue_cards tp_members_with_high_workload].
  rewrite no_cards_no_bottleneck. repeat split.
Qed.

End PipelineRisks.

(** ** Filling the report template *)

Section TemplateFilling.

Import Formatting.

Variable open_read : string -> string + string.

Lemma append_assoc (a b c : string) : (a ++ b) ++ c = a ++ (b ++ c).
Proof. induction a as [|x a IH]; simpl; [reflexivity | now rewrite IH]. Qed.

Lemma append_empty (a : string) : a ++ "" = a.
Proof. induction a as [|x a IH]; simpl; [reflexivity | now rewrite IH]. Qed.

Lemma has_char_append (c : ascii) (a b : string) :
  has_char c (a ++ b) = has_char c a || has_char c b.
Proof.
  induction a as [|x a IH]; simpl; [reflexivity|].
  now rewrite IH, orb_assoc.
Qed.

Lemma prefix_cons (a b : ascii) (s t : string) :
  prefix (String a s) (String b t) = Ascii.eqb a b && prefix s t.
Proof.
  simpl. destruct (ascii_dec a b) as [->|Hn].
  - now rewrite Ascii.eqb_refl.
  - apply Ascii.eqb_neq in Hn. now rewrite Hn.
Qed.

Lemma prefix_append (u t : string) : prefix u (u ++ t) = true.
Proof. apply prefix_app. now exists t. Qed.

(** A text without the first character of [old] is copied. *)
Lemma replace_text (c : ascii) (old new s t : string) :
  has_char c s = false ->
  replace_from 0 (String c old) new (s ++ t)
  = s ++ replace_from 0 (String c old) new t.
Proof.
  induction s as [|x s IH]; intros H; [reflexivity|].
  simpl in H. apply orb_false_iff in H. destruct H as [Hx Hs].
  change (String x s ++ t) with (String x (s ++ t)).
  cbn [replace_from]. rewrite prefix_cons, Ascii.eqb_sym, Hx. simpl.
  now rewrite IH.
Qed.

(** The characters of a replaced occurrence are passed over. *)
Lemma replace_skip (old new u t : string) :
  replace_from (String.length u) old new (u ++ t) = replace_from 0 old new t.
Proof. induction u as [|x u IH]; simpl; [reflexivity | exact IH]. Qed.

(** A key is read up to its closing brace. *)
Lemma key_prefix (k k' t : string) :
  has_char "}" k = false -> has_char "}" k' = false ->
  prefix (k ++ "}") (k' ++ "}" ++ t) = true -> k = k'.
Proof.
  revert k'. induction k as [|x k IH]; intros k' Hk Hk' H.
  - destruct k' as [|y k']; [reflexivity|].
    change ("" ++ "}") with (String "}" "") in H.
    change (String y k' ++ "}" ++ t) with (String y (k' ++ "}" ++ t)) in H.
    rewrite prefix_cons in H. apply andb_true_iff in H. destruct H as [H _].
    apply Ascii.eqb_eq in H. subst y. simpl in Hk'. discriminate.
  - simpl in Hk. apply orb_false_iff in Hk. destruct Hk as [Hx Hk].
    destruct k' as [|y k'].
    + change (String x k ++ "}") with (String x (k ++ "}")) in H.
      change ("" ++ "}" ++ t) with (String "}" t) in H.
      rewrite prefix_cons in H. apply andb_true_iff in H. destruct H as [H _].
      rewrite Hx in H. discriminate.
    + simpl in Hk'. apply orb_false_iff in Hk'. destruct Hk' as [Hy Hk'].
      change (String x k ++ "}") with (String x (k ++ "}")) in H.
      change (String y k' ++ "}" ++ t) with (String y (k' ++ "}" ++ t)) in H.
      rewrite prefix_cons in H. apply andb_true_iff in H. destruct H as [E H].
      apply Ascii.eqb_eq in E. subst y. f_equal. now apply IH.
Qed.

(** One replacement, on a template given by its pieces. *)
Lemma replace_pieces (key value : string) (pieces : list piece) :
  has_char "}" key = false ->
  Forall well_formed pieces ->
  replace ("{" ++ key ++ "}") value (template_of pieces)
  = template_of (map (fill_piece [(key, value)]) pieces).
Proof.
  intros Hkey Hwf. unfold replace.
  change ("{" ++ key ++ "}") with (String "{" (key ++ "}")).
  induction Hwf as [|p ps Hp _ IH]; [reflexivity|].
  destruct p as [s|k']; simpl in Hp.
  - cbn [template_of fold_right map fill_piece show_piece].
    rewrite replace_text by exact Hp. f_equal. exact IH.
  - destruct Hp as [Hopen Hclose].
    cbn [template_of fold_right map fill_piece show_piece dict_get].
    fold (template_of ps).
    fold (template_of (map (fill_piece [(key, value)]) ps)).
    change (("{" ++ k' ++ "}") ++ template_of ps)
      with (String "{" ((k' ++ "}") ++ template_of ps)).
    cbn [replace_from]. rewrite prefix_cons, Ascii.eqb_refl. cbn [andb].
    destruct (key =? k') eqn:E.
    + apply String.eqb_eq in E. subst k'.
      rewrite prefix_append. cbn [get show_piece].
      replace (String.length (String "{" (key ++ "}")) - 1)%nat
        with (String.length (key ++ "}")) by (simpl; lia).
      rewrite replace_skip. f_equal. exact IH.
    + apply String.eqb_neq in E.
      destruct (prefix (key ++ "}") ((k' ++ "}") ++ template_of ps)) eqn:Ep.
      * exfalso. apply E. rewrite append_assoc in Ep.
        exact (key_prefix key k' _ Hkey Hclose Ep).
      * cbn [show_piece].
        change (("{" ++ k' ++ "}") ++
                template_of (map (fill_piece [(key, value)]) ps))
          with (String "{" ((k' ++ "}") ++
                template_of (map (fill_piece [(key, value)]) ps))).
        f_equal. rewrite replace_text; [now rewrite IH|].
        rewrite has_char_append, Hopen. reflexivity.
Qed.

Lemma fill_piece_well_formed (data : dict string) (p : piece) :
  Forall (fun kv => has_char "{" (snd kv) = false) data ->
  well_formed p -> well_formed (fill_piece data p).
Proof.
  intros Hdata Hp. destruct p as [s|k]; [exact Hp|]. simpl.
  destruct (dict_get data k) as [v|] eqn:E; [|exact Hp].
  apply dict_get_Some_In in E. rewrite Forall_forall in Hdata.
  exact (Hdata _ E).
Qed.

Lemma fill_piece_cons (key value : string) (data : dict string) (p : piece) :
  fill_piece data (fill_piece [(key, value)] p)
  = fill_piece ((key, value) :: data) p.
Proof.
  destruct p as [s|k]; [reflexivity|]. simpl.
  destruct (key =? k); reflexivity.
Qed.

(** Filling a template whose texts have no opening brace and whose
    placeholders have keys without braces, with values without opening
    brace: every placeholder whose key has a value is replaced by the
    value, and the rest of the template is kept.  A file that cannot be
    read gives the text of the error instead. *)
Theorem template_filled (path : string) (pieces : list piece)
    (data : dict string) :
  open_read path = inl (template_of pieces) ->
  Forall well_formed pieces ->
  Forall (fun kv => has_char "}" (fst kv) = false
                    /\ has_char "{" (snd kv) = false) data ->
  fill_report_template open_read path data
  = template_of (map (fill_piece data) pieces).
Proof.
  intros Hread Hwf Hdata. unfold fill_report_template. rewrite Hread.
  clear Hread. revert pieces Hwf.
  induction Hdata as [|[key value] data [Hk Hv] Hdata IH]; intros pieces Hwf.
  - simpl. f_equal. symmetry. rewrite <- (map_id pieces) at 2.
    apply map_ext. now intros [s|k].
  - cbn [fold_left fst snd].
    rewrite (replace_pieces key value pieces Hk Hwf).
    rewrite IH.
    + f_equal. rewrite map_map. apply map_ext. intros p.
      apply fill_piece_cons.
    + rewrite Forall_map. revert Hwf. apply Forall_impl. intros p.
      apply (fill_piece_well_formed [(key, value)]).
      constructor; [exact Hv | constructor].
Qed.

(** A template that cannot be read, and a template with no opening brace
    at all. *)
Theorem template_kept (path : string) (data : dict string) :
  match open_read path with
  | inr e =>
      fill_report_template open_read path data
      = "Error generating report: " ++ e
  | inl template =>
      has_char "{" template = false ->
      fill_report_template open_read path data = template
  end.
Proof.
  unfold fill_report_template. destruct (open_read path) as [template|e];
    [|reflexivity].
  intros H. induction data as [|[key value] data IH]; [reflexivity|].
  cbn [fold_left fst snd]. unfold replace.
  change ("{" ++ key ++ "}") with (String "{" (key ++ "}")).
  rewrite <- (append_empty template) at 1.
  rewrite replace_text by exact H. simpl.
  rewrite append_empty. exact IH.
Qed.

End TemplateFilling.

(** ** The report of a failed run *)

Section ReportErrors.

Import DataCollection Analysis Reporting.

Variable fromisoformat : string -> option datetime.
Variable clock : nat -> Z.
Variable render :
  board -> analysis_output -> string -> string -> option string -> string.

(** The error report.  When the snapshot or the analysis carries an error,
    the report is the heading followed by the message, the one of the
    snapshot when both have one; the text "Unknown error" of the source is
    never used.  Along the pipeline: the report of a snapshot that is empty
    or carries an error is the heading with the message of the snapshot
    ("Unknown error retrieving board data" for the empty one), and every
    other snapshot reaches the template. *)
Theorem report_of_failed_run :
  (forall processed_data analysis_results sprint_name team_name template_path,
      generate_sprint_report render processed_data analysis_results
        sprint_name team_name template_path
      = match board_error processed_data, analysis_results with
        | Some msg, _ | None, ErrorOnly msg =>
            "# Error Generating Sprint Report" ++ newline ++ newline ++ msg
        | None, Results _ =>
            render processed_data analysis_results sprint_name team_name
              template_path
        end)
  /\ (forall b k sprint_name team_name template_path,
         let processed_data := process_trello_data b in
         let analysis_results :=
           fst (analyze_sprint_data fromisoformat clock processed_data k) in
         generate_sprint_report render processed_data analysis_results
           sprint_name team_name template_path
         = if board_is_empty b || has_key (board_error b)
           then "# Error Generating Sprint Report" ++ newline ++ newline
                ++ get (board_error b) "Unknown error retrieving board data"
           else render processed_data analysis_results sprint_name team_name
                  template_path).
Proof.
  split.
  - intros pd ar sn tn tp. unfold generate_sprint_report.
    destruct (board_error pd) as [msg|], ar as [msg'|r]; reflexivity.
  - intros b k sn tn tp pd ar. subst pd ar.
    unfold generate_sprint_report, process_trello_data.
    destruct (board_is_empty b || has_key (board_error b)) eqn:Eb.
    + reflexivity.
    + unfold analyze_sprint_data, board_is_empty.
      cbn [board_error board_board_id board_cards board_lists board_members
           board_cards_by_list board_timestamp board_status has_key].
      rewrite !orb_true_r. cbn [orb negb get].
      unfold bind.
      destruct (DataUtils.calculate_sprint_metrics _ _ _ _ k) as [sm k1].
      destruct (DataUtils.analyze_team_performance _ _ _ _ k1) as [tp' k2].
      reflexivity.
Qed.

End ReportErrors.

(** ** The snapshot the fetcher hands to the normaliser *)

Section Fetcher.

Import DataCollection TrelloTools.

Variable getenv : string -> option string.
Variable CONSTANTS : dict (dict string).
Variable get_board_data : string -> string -> string -> fetched (list card).
Variable get_list_data :
  string -> string -> string -> fetched (list trello_list).
Variable get_board_members :
  string -> string -> string -> fetched (list member).
Variable time_time : Q.

Lemma comment_actions_extract (actions : list action) :
  comment_actions actions = extract_comments actions.
Proof.
  induction actions as [|a r IH]; simpl; [reflexivity|]. now rewrite IH.
Qed.

(** The normaliser reads neither the list name nor the comments the
    fetcher wrote. *)
Lemma process_enriched_card (lists_map list_map : dict trello_list)
    (member_map : dict member) (c : card) :
  _process_card (with_comments (with_list_name lists_map c)) list_map
    member_map
  = _process_card c list_map member_map.
Proof. reflexivity. Qed.

(** The list name the fetcher writes is the one the normaliser computes,
    and so are the comments. *)
Lemma enriched_as_normalised (lists : list trello_list)
    (member_map : dict member) (c : card) :
  let lists_map := dict_of list_id (fun l => l) lists in
  let enriched := with_comments (with_list_name lists_map c) in
  let normalised := _process_card c lists_map member_map in
  card_listName enriched = card_listName normalised
  /\ card_comments enriched = card_comments normalised.
Proof.
  intros lists_map enriched normalised. split.
  - subst enriched normalised. unfold with_comments, with_list_name,
      _process_card, resolve_list_name. simpl. f_equal. unfold dict_mem.
    destruct (card_idList c) as [i|]; simpl; [|reflexivity].
    destruct (truthy i); simpl; [|reflexivity].
    now destruct (dict_get lists_map i).
  - subst enriched normalised. unfold with_comments, _process_card. simpl.
    destruct (card_actions c); [|reflexivity].
    now rewrite comment_actions_extract.
Qed.

(** A run of the fetcher that succeeds: the credentials are set and the
    three fetchers return.  The snapshot has no error; its cards are the
    fetched cards, in order, each with a list name and comments added, which
    are the list name and the comments the normaliser computes; and the
    normaliser gives the same output on this snapshot as on the fetched data
    without these additions. *)
Theorem fetch_success (api_key api_token board_id : string)
    (cards : list card) (lists : list trello_list) (members : list member) :
  getenv "TRELLO_API_KEY" = Some api_key ->
  getenv "TRELLO_API_TOKEN" = Some api_token ->
  getenv "TRELLO_BOARD_ID" = Some board_id ->
  api_key <> "" -> api_token <> "" -> board_id <> "" ->
  get_board_data board_id api_key api_token = Returned cards ->
  get_list_data board_id api_key api_token = Returned lists ->
  get_board_members board_id api_key api_token = Returned members ->
  let b :=
    _run getenv CONSTANTS get_board_data get_list_data get_board_members
      time_time in
  exists enriched,
    b = fetched_snapshot board_id enriched lists members time_time
    /\ Forall2
         (fun c e =>
            card_id e = card_id c /\ card_idList e = card_idList c
            /\ card_actions e = card_actions c
            /\ forall member_map,
                 let p :=
                   _process_card c (dict_of list_id (fun l => l) lists)
                     member_map in
                 card_listName e = card_listName p
                 /\ card_comments e = card_comments p)
         cards enriched
    /\ process_trello_data b
       = process_trello_data
           (fetched_snapshot board_id cards lists members time_time).
Proof.
  intros Hkey Htoken Hid Nkey Ntoken Nid Hcards Hlists Hmembers b.
  subst b. unfold _run. rewrite Hkey, Htoken, Hid.
  apply String.eqb_neq in Nkey, Ntoken, Nid.
  unfold truthy_opt, truthy. rewrite Nkey, Ntoken, Nid.
  cbn [negb orb get]. rewrite Hcards, Hlists, Hmembers. cbn [and_then].
  eexists. split; [reflexivity|]. split.
  - rewrite map_map. clear Hcards.
    induction cards as [|c r IH]; simpl; constructor; [|exact IH].
    repeat (split; [reflexivity|]). intros member_map.
    exact (enriched_as_normalised lists member_map c).
  - unfold process_trello_data, fetched_snapshot, board_is_empty.
    cbn [board_error board_board_id board_cards board_lists board_members
         board_cards_by_list board_timestamp board_status has_key orb negb
         get].
    rewrite !map_map.
    assert (E : map (fun c =>
                       _process_card
                         (with_comments
                            (with_list_name
                               (dict_of list_id (fun l => l) lists) c))
                         (dict_of list_id (fun l => l) lists)
                         (dict_of member_id (fun m => m) members)) cards
                = map (fun c =>
                         _process_card c
                           (dict_of list_id (fun l => l) lists)
                           (dict_of member_id (fun m => m) members)) cards).
    { apply map_ext. intros c. apply process_enriched_card. }
    rewrite E. reflexivity.
Qed.

Lemma run_without_credentials :
  truthy_opt (getenv "TRELLO_API_KEY")
  && truthy_opt (getenv "TRELLO_API_TOKEN")
  && truthy_opt (getenv "TRELLO_BOARD_ID") = false ->
  _run getenv CONSTANTS get_board_data get_list_data get_board_members
    time_time
  = error_board
      (get (dict_get (get (dict_get CONSTANTS "ERROR_MESSAGES") [])
                     "MISSING_API_CREDENTIALS")
           "Missing API credentials or board ID").
Proof.
  unfold _run.
  destruct (truthy_opt (getenv "TRELLO_API_KEY")),
    (truthy_opt (getenv "TRELLO_API_TOKEN")),
    (truthy_opt (getenv "TRELLO_BOARD_ID")); try discriminate; reflexivity.
Qed.

(** A run of the fetcher that fails.  The result is the dictionary
    [{"error": msg}] and nothing else, and the normaliser passes it on.  The
    message is the configured one ("Missing API credentials or board ID"
    when none is configured) when a credential or the board id is missing
    or empty; otherwise it is the message of the [TrelloAPIError] a fetcher
    raised, or "Unexpected error fetching board data: " followed by the
    text of another exception. *)
Theorem fetch_failure (msg : string) :
  let b :=
    _run getenv CONSTANTS get_board_data get_list_data get_board_members
      time_time in
  board_error b = Some msg ->
  b = error_board msg
  /\ process_trello_data b = error_board msg
  /\ ((truthy_opt (getenv "TRELLO_API_KEY")
       && truthy_opt (getenv "TRELLO_API_TOKEN")
       && truthy_opt (getenv "TRELLO_BOARD_ID") = false
       /\ msg = get (dict_get (get (dict_get CONSTANTS "ERROR_MESSAGES") [])
                       "MISSING_API_CREDENTIALS")
                    "Missing API credentials or board ID")
      \/ exists api_key api_token board_id,
           getenv "TRELLO_API_KEY" = Some api_key
           /\ getenv "TRELLO_API_TOKEN" = Some api_token
           /\ getenv "TRELLO_BOARD_ID" = Some board_id
           /\ (get_board_data board_id api_key api_token = ApiError msg
               \/ get_list_data board_id api_key api_token = ApiError msg
               \/ get_board_members board_id api_key api_token = ApiError msg
               \/ exists text,
                    msg = "Unexpected error fetching board data: " ++ text
                    /\ (get_board_data board_id api_key api_token
                        = OtherError text
                        \/ get_list_data board_id api_key api_token
                           = OtherError text
                        \/ get_board_members board_id api_key api_token
                           = OtherError text))).
Proof.
  intros b. subst b.
  destruct (truthy_opt (getenv "TRELLO_API_KEY")
            && truthy_opt (getenv "TRELLO_API_TOKEN")
            && truthy_opt (getenv "TRELLO_BOARD_ID")) eqn:Ecred.
  2:{ rewrite run_without_credentials by exact Ecred.
      intros H. inversion H. subst msg.
      split; [reflexivity|]. split; [reflexivity|]. left. now split. }
  unfold _run.
  apply andb_true_iff in Ecred. destruct Ecred as [Ecred Eb].
  apply andb_true_iff in Ecred. destruct Ecred as [Ek Et].
  rewrite Ek, Et, Eb.
  destruct (getenv "TRELLO_API_KEY") as [api_key|]; [|discriminate].
  destruct (getenv "TRELLO_API_TOKEN") as [api_token|]; [|discriminate].
  destruct (getenv "TRELLO_BOARD_ID") as [board_id|]; [|discriminate].
  cbn [get].
  cbn [negb orb andb].
  destruct (get_board_data board_id api_key api_token) as [cards|m|text]
    eqn:Hc; cbn [and_then].
  - destruct (get_list_data board_id api_key api_token) as [lists|m|text]
      eqn:Hl; cbn [and_then].
    + destruct (get_board_members board_id api_key api_token)
        as [members|m|text] eqn:Hm; cbn [and_then].
      * discriminate.
      * simpl. intros H. inversion H; subst. repeat split.
        right. exists api_key, api_token, board_id. auto 10.
      * simpl. intros H. inversion H; subst. repeat split.
        right. exists api_key, api_token, board_id.
        repeat split. right. right. right. exists text. auto.
    + simpl. intros H. inversion H; subst. repeat split.
      right. exists api_key, api_token, board_id. auto 10.
    + simpl. intros H. inversion H; subst. repeat split.
      right. exists api_key, api_token, board_id.
      repeat split. right. right. right. exists text. auto.
  - simpl. intros H. inversion H; subst. repeat split.
    right. exists api_key, api_token, board_id. auto 10.
  - simpl. intros H. inversion H; subst. repeat split.
    right. exists api_key, api_token, board_id.
    repeat split. right. right. right. exists text. auto.
Qed.

End Fetcher.

(** ** The groups and the overdue cards of the board model *)

Section BoardModel.

Import Models.

Local Open Scope list_scope.

Variable fromisoformat : string -> option datetime.
Variable clock : nat -> Z.

(** The grouping loop of the two properties, on the pairs of a key and an
    item. *)
Lemma grouping_step {X : Type} (d : dict (list X)) (key : string) (x : X) :
  dict_set (if dict_mem d key then d else dict_set d key []) key
    (get (dict_get (if dict_mem d key then d else dict_set d key []) key) []
     ++ [x])
  = dict_set d key (get (dict_get d key) [] ++ [x]).
Proof.
  unfold dict_mem. destruct (dict_get d key) as [v|] eqn:E; simpl.
  - now rewrite E.
  - now rewrite dict_get_set_same, dict_set_twice.
Qed.

Lemma grouping_concat {X : Type} (d : dict (list X)) (key : string) (x : X) :
  Permutation
    (List.concat (dict_values (dict_set d key (get (dict_get d key) [] ++ [x]))))
    (x :: List.concat (dict_values d)).
Proof.
  unfold dict_values. induction d as [|[k v] r IH]; simpl; [reflexivity|].
  destruct (k =? key); simpl.
  - rewrite <- app_assoc. simpl. symmetry. apply Permutation_middle.
  - rewrite IH. symmetry. apply Permutation_middle.
Qed.

Lemma grouping_loop {X : Type} (pairs seen : list (string * X))
    (d : dict (list X)) :
  NoDup (dict_keys d) ->
  (forall key,
      dict_get d key
      = group_of (map snd (filter (fun p => fst p =? key) seen))) ->
  Permutation (List.concat (dict_values d)) (map snd seen) ->
  let result :=
    fold_left
      (fun d p => dict_set d (fst p) (get (dict_get d (fst p)) [] ++ [snd p]))
      pairs d in
  NoDup (dict_keys result)
  /\ (forall key,
         dict_get result key
         = group_of
             (map snd (filter (fun p => fst p =? key) (seen ++ pairs))))
  /\ Permutation (List.concat (dict_values result)) (map snd (seen ++ pairs)).
Proof.
  revert seen d. induction pairs as [|[k x] r IH]; intros seen d Hnd Hget Hp.
  - simpl. rewrite app_nil_r. auto.
  - cbn [fold_left fst snd].
    replace (seen ++ (k, x) :: r)%list with ((seen ++ [(k, x)]) ++ r)%list
      by (rewrite <- app_assoc; reflexivity).
    apply IH.
    + now apply dict_set_NoDup.
    + intros key. rewrite filter_app, map_app. simpl.
      destruct (String.eqb_spec k key) as [->|Hne].
      * rewrite dict_get_set_same, Hget. simpl.
        destruct (map snd (filter (fun p => fst p =? key) seen));
          reflexivity.
      * rewrite dict_get_set_other by exact Hne. simpl.
        now rewrite app_nil_r.
    + rewrite grouping_concat, map_app. simpl.
      rewrite Hp. apply Permutation_cons_append.
Qed.

Lemma fold_left_flat_map {X Y S : Type} (f : S -> Y -> S) (g : X -> list Y)
    (xs : list X) (s : S) :
  fold_left (fun s x => fold_left f (g x) s) xs s
  = fold_left f (flat_map g xs) s.
Proof.
  revert s. induction xs as [|x r IH]; intros s; simpl; [reflexivity|].
  now rewrite fold_left_app, IH.
Qed.

Lemma filter_named (cards : list TrelloCard) (name : string) :
  map snd (filter (fun p => fst p =? name)
                  (map (fun c => (group_name c, c)) cards))
  = filter (fun c => group_name c =? name) cards.
Proof.
  induction cards as [|c r IH]; simpl; [reflexivity|].
  destruct (group_name c =? name); simpl; now rewrite IH.
Qed.

Lemma filter_assigned (cards : list TrelloCard) (name : string) :
  map snd (filter (fun p => fst p =? name)
                  (flat_map (fun c => map (fun n => (n, c)) (member_names c))
                            cards))
  = flat_map (fun c => repeat c (count_occ string_dec (member_names c) name))
             cards.
Proof.
  induction cards as [|c r IH]; simpl; [reflexivity|].
  rewrite filter_app, map_app, IH. f_equal.
  induction (member_names c) as [|n ns IHn]; simpl; [reflexivity|].
  destruct (string_dec n name) as [->|Hne].
  - rewrite String.eqb_refl. simpl. now rewrite IHn.
  - apply String.eqb_neq in Hne. now rewrite Hne.
Qed.

(** The two groupings of the board model.  [cards_by_list] has distinct
    keys; the group of a name holds the cards of that list name ("Unknown"
    for a card without one), in order, and the key is absent when there is
    no such card; the groups together hold every card once.
    [cards_by_member] has the group of a member name hold each card as
    often as the name occurs among the members of the card. *)
Theorem board_model_groups (b : TrelloBoard) :
  let cards := tboard_cards b in
  (NoDup (dict_keys (cards_by_list b))
   /\ (forall name,
          dict_get (cards_by_list b) name
          = group_of (filter (fun c => group_name c =? name) cards))
   /\ Permutation (List.concat (dict_values (cards_by_list b))) cards)
  /\ (NoDup (dict_keys (cards_by_member b))
      /\ (forall name,
             dict_get (cards_by_member b) name
             = group_of
                 (flat_map
                    (fun c =>
                       repeat c (count_occ string_dec (member_names c) name))
                    cards))
      /\ List.length (List.concat (dict_values (cards_by_member b)))
         = List.length (flat_map member_names cards)).
Proof.
  intros cards. split.
  - assert (E : cards_by_list b
                = fold_left
                    (fun d p =>
                       dict_set d (fst p)
                         (get (dict_get d (fst p)) [] ++ [snd p]))
                    (map (fun c => (group_name c, c)) cards) []).
    { unfold cards_by_list. fold cards. rewrite fold_left_over_map.
      generalize (@nil (string * list TrelloCard)).
      induction cards as [|c r IH]; intros d; simpl; [reflexivity|].
      fold (group_name c). now rewrite grouping_step, IH. }
    rewrite E.
    destruct (grouping_loop (map (fun c => (group_name c, c)) cards) [] [])
      as (Hnd & Hget & Hp);
      [constructor | reflexivity | reflexivity |].
    simpl in Hget, Hp. split; [exact Hnd|]. split.
    + intros name. now rewrite Hget, filter_named.
    + rewrite Hp, map_map. simpl. now rewrite map_id.
  - assert (E : cards_by_member b
                = fold_left
                    (fun d p =>
                       dict_set d (fst p)
                         (get (dict_get d (fst p)) [] ++ [snd p]))
                    (flat_map
                       (fun c => map (fun n => (n, c)) (member_names c))
                       cards) []).
    { unfold cards_by_member. fold cards.
      rewrite <- fold_left_flat_map.
      generalize (@nil (string * list TrelloCard)).
      induction cards as [|c r IH]; intros d; simpl; [reflexivity|].
      rewrite <- IH. f_equal. rewrite fold_left_over_map.
      generalize d. clear.
      induction (member_names c) as [|n ns IHn]; intros d; simpl;
        [reflexivity|].
      now rewrite grouping_step, IHn. }
    rewrite E.
    destruct (grouping_loop
                (flat_map (fun c => map (fun n => (n, c)) (member_names c))
                          cards) [] [])
      as (Hnd & Hget & Hp);
      [constructor | reflexivity | reflexivity |].
    simpl in Hget, Hp. split; [exact Hnd|]. split.
    + intros name. now rewrite Hget, filter_assigned.
    + rewrite (Permutation_length Hp), length_map.
      clear. induction cards as [|c r IH]; simpl; [reflexivity|].
      now rewrite !length_app, !length_map, IH.
Qed.

(** One card: the property raises exactly when the card is not marked
    complete and its due date carries a time zone. *)
Lemma is_overdue_raises (c : TrelloCard) (k : nat) :
  fst (is_overdue fromisoformat clock c k) = None <->
  tcard_dueComplete c = false
  /\ exists t, due_date fromisoformat c = Some (Aware t).
Proof.
  unfold is_overdue, bind, ret, DataUtils.datetime_now.
  destruct (due_date fromisoformat c) as [[t|t]|]; simpl.
  - destruct (tcard_dueComplete c); simpl.
    + split; [discriminate | intros [H _]; discriminate].
    + split; [discriminate | intros (_ & t' & H); discriminate].
  - destruct (tcard_dueComplete c); simpl.
    + split; [discriminate | intros [H _]; discriminate].
    + split; [intros _; split; eauto | reflexivity].
  - split; [discriminate | intros (_ & t' & H); discriminate].
Qed.

(** [overdue_cards] does not catch the [TypeError] of a comparison: it
    raises exactly when some card that is not marked complete has a due
    date with a time zone, as the dates ending in "Z" are.  When it
    returns, it returns cards of the board that are not marked complete and
    whose due date, without time zone, is before a reading of the clock. *)
Theorem overdue_cards_raises (b : TrelloBoard) (k : nat) :
  (fst (overdue_cards fromisoformat clock b k) = None <->
   exists c,
     In c (tboard_cards b) /\ tcard_dueComplete c = false
     /\ exists t, due_date fromisoformat c = Some (Aware t))
  /\ (forall overdue,
         fst (overdue_cards fromisoformat clock b k) = Some overdue ->
         Forall (fun c =>
                   In c (tboard_cards b) /\ tcard_dueComplete c = false
                   /\ exists t j,
                        due_date fromisoformat c = Some (Naive t)
                        /\ (k <= j)%nat /\ (t < clock j)%Z)
                overdue).
Proof.
  unfold overdue_cards. revert k.
  induction (tboard_cards b) as [|c r IH]; intros k.
  - simpl. split.
    + split; [discriminate | intros (c & [] & _)].
    + intros overdue H. inversion H. constructor.
  - cbn [overdue_among]. unfold bind. cbv beta.
    pose proof (is_overdue_raises c k) as Hc.
    assert (Hk : (k <= snd (is_overdue fromisoformat clock c k))%nat).
    { unfold is_overdue, bind, ret, DataUtils.datetime_now.
      destruct (due_date fromisoformat c); [|simpl; lia].
      destruct (tcard_dueComplete c); simpl; lia. }
    assert (Hkeep :
      fst (is_overdue fromisoformat clock c k) = Some true ->
      tcard_dueComplete c = false
      /\ exists t, due_date fromisoformat c = Some (Naive t)
                   /\ (t < clock k)%Z).
    { unfold is_overdue, bind, ret, DataUtils.datetime_now.
      destruct (due_date fromisoformat c) as [[t|t]|]; simpl;
        try discriminate.
      - destruct (tcard_dueComplete c); simpl; [discriminate|].
        intros H. inversion H as [E]. apply Z.ltb_lt in E. eauto.
      - destruct (tcard_dueComplete c); simpl; discriminate. }
    destruct (is_overdue fromisoformat clock c k) as [[keep|] k1].
    + cbn [fst snd] in Hc, Hk, Hkeep. unfold bind, ret.
      destruct (IH k1) as [IHnone IHsome].
      destruct (overdue_among fromisoformat clock r k1) as [[rest|] k2];
        cbn [fst option_map] in *.
      * split.
        -- split; [discriminate|]. intros (c' & [<-|Hin] & Hd & Ht).
           ++ assert (H : Some keep = None) by (apply Hc; auto).
              discriminate.
           ++ assert (H : Some rest = None) by (apply IHnone; eauto).
              discriminate.
        -- intros overdue H. injection H as <-.
           assert (Hrest :
             Forall (fun c0 =>
                       (c = c0 \/ In c0 r) /\ tcard_dueComplete c0 = false
                       /\ exists t j,
                            due_date fromisoformat c0 = Some (Naive t)
                            /\ (k <= j)%nat /\ (t < clock j)%Z) rest).
           { specialize (IHsome rest eq_refl). revert IHsome.
             apply Forall_impl. intros c0 (Hin & Hd & t & j & Ht & Hj & Hlt).
             split; [now right|]. split; [exact Hd|].
             exists t, j. repeat split; auto. lia. }
           destruct keep; [|exact Hrest].
           constructor; [|exact Hrest].
           destruct (Hkeep eq_refl) as (Hd & t & Ht & Hlt).
           split; [now left|]. split; [exact Hd|].
           exists t, k. auto.
      * split.
        -- split; [|reflexivity].
           intros _. destruct (proj1 IHnone eq_refl) as (c' & Hin & H).
           exists c'. split; [now right | exact H].
        -- intros overdue H. discriminate.
    + cbn [fst snd] in Hc. unfold ret. cbn [fst]. split.
      * split; [|reflexivity].
        intros _. destruct (proj1 Hc eq_refl) as [Hd Ht].
        exists c. split; [now left | auto].
      * intros overdue H. discriminate.
Qed.

End BoardModel.

(** ** Examples on the sample boards *)

Section Examples.

Import DataCollection DataUtils Analysis.

Lemma ten_cards_plain (lists : list trello_list) :
  Forall plain_card
    (get (board_cards (process_trello_data (snapshot ten_cards lists))) []).
Proof. repeat constructor. Qed.

(** C7 does not hold as stated: the ten cards with three done, on a board
    that has an empty third list, make the list "To Do" a bottleneck (7
    cards against an average of 10/3), and the analysis gives two
    recommendations. *)
Lemma three_list_board_two_recommendations :
  let b := process_trello_data three_list_board in
  let cards := get (board_cards b) [] in
  let lists := get (board_lists b) [] in
  (board_error b = None /\ List.length cards = 10%nat
   /\ List.length (filter (in_list_named lists "Done") cards) = 3%nat
   /\ Forall plain_card cards)
  /\ exists r,
       fst (analyze_sprint_data Iso.fromisoformat (clock_from march_10) b 0%nat)
       = Results r
       /\ sm_completion_rate (ar_sprint_metrics r) == 30
       /\ map risk_category (ar_risks r)
          = ["completion_rate"; "process_bottlenecks"]
       /\ map rec_category (ar_recommendations r)
          = ["completion_rate"; "process"]
       /\ List.length (ar_recommendations r) <> 1%nat.
Proof.
  split.
  - repeat split; try reflexivity. apply ten_cards_plain.
  - eexists. split; [vm_compute; reflexivity|].
    repeat split; try reflexivity. discriminate.
Qed.

(** The scenario of C7 on the board of two lists: one recommendation. *)
Lemma low_completion_scenario_two_lists :
  let b := process_trello_data two_list_board in
  let cards := get (board_cards b) [] in
  let lists := get (board_lists b) [] in
  (board_error b = None /\ List.length cards = 10%nat
   /\ List.length (filter (in_list_named lists "Done") cards) = 3%nat
   /\ Forall plain_card cards)
  /\ exists r,
       fst (analyze_sprint_data Iso.fromisoformat (clock_from march_10) b 0%nat)
       = Results r
       /\ sm_completion_rate (ar_sprint_metrics r) == 30
       /\ map risk_category (ar_risks r) = ["completion_rate"]
       /\ map rec_category (ar_recommendations r) = ["completion_rate"].
Proof.
  intros b cards lists.
  assert (Hplain : Forall plain_card cards) by apply ten_cards_plain.
  split; [repeat split; try reflexivity; exact Hplain|].
  destruct (low_completion_scenario Iso.fromisoformat (clock_from march_10)
              b cards lists 0%nat eq_refl eq_refl eq_refl eq_refl eq_refl Hplain)
    as (r & low & more & Hr & Hrate & Hrisks & Hcat & _ & Hmore & Hrec & _).
  exists r. split; [exact Hr|]. split; [exact Hrate|].
  assert (E := Hr). vm_compute in E. injection E as E. subst r.
  rewrite Hrisks. cbn [map]. rewrite Hcat, Hmore, Hrec. split; reflexivity.
Defined.

(** C8 does not hold as stated: the same input gives different results at
    different times.  A card due on March 12 approaches its deadline for
    [calculate_sprint_metrics] on March 10 and is overdue on March 14; and
    the [timestamp] of [analyze_sprint_data] differs on any input. *)
Lemma results_change_with_the_clock :
  let early :=
    fst (calculate_sprint_metrics Iso.fromisoformat (clock_from march_10)
           [due_card] [to_do] 0%nat) in
  let late :=
    fst (calculate_sprint_metrics Iso.fromisoformat (clock_from march_14)
           [due_card] [to_do] 0%nat) in
  let b := process_trello_data two_list_board in
  (sm_approaching_deadlines_count early = 1%nat
   /\ sm_overdue_count early = 0%nat
   /\ sm_approaching_deadlines_count late = 0%nat
   /\ sm_overdue_count late = 1%nat
   /\ early <> late)
  /\ fst (analyze_sprint_data Iso.fromisoformat (clock_from march_10) b 0%nat)
     <> fst (analyze_sprint_data Iso.fromisoformat (clock_from march_14) b
               0%nat).
Proof.
  intros early late b. split.
  - repeat split; try reflexivity.
    intros E. apply (f_equal sm_overdue_count) in E. discriminate E.
  - intros E. vm_compute in E. discriminate E.
Qed.

(** C3 on three risks, two of which collapse: two recommendations. *)
Lemma recommendation_count_deadlines :
  let sm :=
    fst (calculate_sprint_metrics Iso.fromisoformat (clock_from march_10)
           ten_cards [to_do; done] 0%nat) in
  let tp :=
    fst (analyze_team_performance Iso.fromisoformat (clock_from march_10)
           ten_cards [] 0%nat) in
  let pb := identify_process_bottlenecks ten_cards [to_do; done] in
  Forall known_risk deadline_risks
  /\ collapsed_categories deadline_risks = ["blockers"; "deadlines"]
  /\ List.length (_generate_recommendations deadline_risks sm tp pb) = 2%nat.
Proof.
  intros sm tp pb.
  assert (H : Forall known_risk deadline_risks)
    by (repeat constructor; cbv; tauto).
  split; [exact H|]. split; [reflexivity|].
  exact (recommendation_count deadline_risks sm tp pb H).
Defined.

(** C4 on a snapshot that carries an error beside its data. *)
Lemma error_propagation_failed_snapshot :
  board_error failed_snapshot
  = Some "Failed to fetch data from Trello: timeout"
  /\ analyze_sprint_data Iso.fromisoformat (clock_from march_10)
       failed_snapshot 0%nat
     = (ErrorOnly "Failed to fetch data from Trello: timeout", 0%nat)
  /\ process_trello_data failed_snapshot
     = error_board "Failed to fetch data from Trello: timeout".
Proof.
  split; [reflexivity|].
  exact (error_propagation Iso.fromisoformat (clock_from march_10)
           failed_snapshot _ 0%nat eq_refl).
Defined.

(** The blocker detection on a card with comments: a red label wins over
    the comment, and without it the comment gives the reason, cut at 50
    characters. *)
Example blocker_reasons :
  let red := labelled_card [mkLabel (Some "green") (Some "ok");
                            mkLabel (Some "red") None;
                            mkLabel (Some "red") (Some "Urgent")] in
  let green := labelled_card [mkLabel (Some "green") (Some "ok")] in
  card_blockerReason (_process_card red [] []) = Some "Red label: Blocker"
  /\ card_isBlocker (_process_card red [] []) = Some true
  /\ card_blockerReason (_process_card green [] [])
     = Some "Blocker mentioned in comment: This is a BLOCKER: the staging database is down an..."
  /\ card_isBlocker (_process_card green [] []) = Some true.
Proof. repeat split; reflexivity. Qed.

(** The workload of the two sample teams: Ann is flagged with four cards
    against an average of 2, and not with three. *)
Example workload_examples :
  let uneven :=
    fst (analyze_team_performance Iso.fromisoformat (clock_from march_10)
           uneven_cards [ann; bob; cyd] 0%nat) in
  let boundary :=
    fst (analyze_team_performance Iso.fromisoformat (clock_from march_10)
           boundary_cards [ann; bob; cyd] 0%nat) in
  map (fun kv => (fst kv, ms_total (snd kv))) (tp_cards_by_member uneven)
  = [("Ann", 4%nat); ("bob", 1%nat); ("Cyd", 1%nat)]
  /\ tp_avg_cards_per_member uneven == 2
  /\ map we_name (tp_members_with_high_workload uneven) = ["Ann"]
  /\ map (fun kv => (fst kv, ms_total (snd kv))) (tp_cards_by_member boundary)
     = [("Ann", 3%nat); ("bob", 2%nat); ("Cyd", 1%nat)]
  /\ tp_avg_cards_per_member boundary == 2
  /\ tp_members_with_high_workload boundary = [].
Proof. repeat split; reflexivity. Qed.

(** C6 on a board of four lists with 1, 1, 1 and 17 cards. *)
Lemma bottleneck_crowded_board :
  let r :=
    identify_process_bottlenecks crowded_cards [to_do; doing; done; review] in
  pb_cards_by_list r
  = [("To Do", 1%nat); ("Doing", 1%nat); ("Done", 1%nat); ("Review", 17%nat)]
  /\ pb_avg_cards_per_list r == 5
  /\ exists ratio,
       pb_bottlenecks r = [mkBottleneck "Review" 17 ratio] /\ ratio == 3.4.
Proof.
  intros r. split; [reflexivity|].
  exact (proj2 (proj2 (proj2 (proj2 (proj2
           (bottleneck_iff crowded_cards [to_do; doing; done; review])))))
           "To Do" "Doing" "Done" "Review" eq_refl).
Defined.

(** On March 10 a card that was due on March 9 is overdue when its due date
    is written without a time zone, and is passed over when it is written
    with one, as the board writes it. *)
Example due_dates_with_time_zone :
  let overdue due :=
    sm_overdue_cards
      (fst (calculate_sprint_metrics Iso.fromisoformat (clock_from march_10)
              [card_due_on_march_9 due] [to_do] 0%nat)) in
  map de_due (overdue "2024-03-09T12:00:00") = ["2024-03-09T12:00:00"]
  /\ overdue "2024-03-09T12:00:00.000Z" = []
  /\ overdue "2024-03-09T12:00:00Z" = []
  /\ overdue "not a date" = [].
Proof. repeat split; reflexivity. Qed.

(** The lists of [team_board] are given as Done, To Do, Doing, and come out
    in the order of their positions. *)
Lemma normalised_lists_sorted_team_board :
  board_error team_board = None
  /\ board_lists team_board = Some [done; to_do; doing]
  /\ exists sorted_lists,
       board_lists (process_trello_data team_board) = Some sorted_lists
       /\ Permutation sorted_lists [done; to_do; doing]
       /\ ascending position sorted_lists
       /\ forall q,
            with_key position q sorted_lists
            = with_key position q [done; to_do; doing].
Proof.
  split; [reflexivity|]. split; [reflexivity|].
  exact (normalised_lists_sorted team_board [done; to_do; doing]
           eq_refl eq_refl).
Defined.

(** The four cards of [team_board], normalised. *)
Lemma normalised_cards_team_board :
  board_error team_board = None
  /\ board_cards team_board = Some uneven_cards
  /\ board_lists team_board = Some [done; to_do; doing]
  /\ exists normalised,
       board_cards (process_trello_data team_board) = Some normalised
       /\ Forall2
            (fun c p =>
               card_id p = card_id c /\ card_name p = card_name c
               /\ card_desc p = card_desc c /\ card_url p = card_url c
               /\ card_due p = card_due c
               /\ card_dueComplete p = Some (get (card_dueComplete c) false)
               /\ card_labels p = Some (get (card_labels c) [])
               /\ card_listName p
                  = Some (get (counted_in [done; to_do; doing] c) "Unknown")
               /\ card_isComplete p
                  = Some (in_list_named [done; to_do; doing] "Done" c)
               /\ exists ms,
                    card_members p = Some ms
                    /\ map cm_id ms
                       = filter
                           (fun i =>
                              existsb (String.eqb i)
                                (map member_id
                                   (get (board_members team_board) [])))
                           (get (card_idMembers c) [])
                    /\ Forall
                         (fun m =>
                            exists mem,
                              In mem (get (board_members team_board) [])
                              /\ member_id mem = cm_id m
                              /\ cm_name m = display_name mem)
                         ms)
            uneven_cards normalised.
Proof.
  split; [reflexivity|]. split; [reflexivity|]. split; [reflexivity|].
  exact (normalised_cards team_board uneven_cards [done; to_do; doing]
           eq_refl eq_refl eq_refl).
Defined.

(** The groups of [team_board]: one for each of its three lists. *)
Lemma normalised_groups_team_board :
  board_error team_board = None
  /\ board_cards team_board = Some uneven_cards
  /\ board_lists team_board = Some [done; to_do; doing]
  /\ exists normalised groups,
       board_cards (process_trello_data team_board) = Some normalised
       /\ board_cards_by_list (process_trello_data team_board) = Some groups
       /\ NoDup (dict_keys groups)
       /\ (forall name,
              In name (dict_keys groups)
              <-> In name (map list_name [done; to_do; doing]))
       /\ (forall name,
              In name (map list_name [done; to_do; doing]) ->
              dict_get groups name
              = Some (filter
                        (fun p => get (card_listName p) "Unknown" =? name)
                        normalised))
       /\ (forall name,
              ~ In name (map list_name [done; to_do; doing]) ->
              dict_get groups name = None).
Proof.
  split; [reflexivity|]. split; [reflexivity|]. split; [reflexivity|].
  exact (normalised_groups team_board uneven_cards [done; to_do; doing]
           eq_refl eq_refl eq_refl).
Defined.

Lemma team_board_list_ids : NoDup (map list_id [done; to_do; doing]).
Proof. repeat constructor; simpl; intuition discriminate. Qed.

(** The figures of [team_board], whose lists have distinct ids: one of its
    four cards is done. *)
Lemma normalised_snapshot_figures_team_board :
  board_error team_board = None
  /\ board_cards team_board = Some uneven_cards
  /\ board_lists team_board = Some [done; to_do; doing]
  /\ NoDup (map list_id [done; to_do; doing])
  /\ List.length (filter (in_list_named [done; to_do; doing] "Done")
                    uneven_cards) = 1%nat
  /\ exists r,
       fst (analyze_sprint_data Iso.fromisoformat (clock_from march_10)
              (process_trello_data team_board) 0%nat)
       = Results r
       /\ let completed :=
            List.length (filter (in_list_named [done; to_do; doing] "Done")
                           uneven_cards) in
          let metrics := ar_sprint_metrics r in
          let current := v_current_sprint (ar_velocity r) in
          sm_total_cards metrics = List.length uneven_cards
          /\ bd_total_points (ar_burn_down r) = List.length uneven_cards
          /\ cs_total_points current = List.length uneven_cards
          /\ bd_completed_points (ar_burn_down r) = completed
          /\ cs_completed_points current = completed
          /\ get (dict_get (sm_cards_by_list metrics) "Done") 0%nat
             = completed
          /\ cs_completion_percentage current = sm_completion_rate metrics
          /\ (forall name count,
                 In (name, count) (sm_cards_by_list metrics) ->
                 count
                 = List.length
                     (filter (in_list_named [done; to_do; doing] name)
                             uneven_cards))
          /\ pb_cards_by_list (ar_process_bottlenecks r)
             = sm_cards_by_list metrics.
Proof.
  split; [reflexivity|]. split; [reflexivity|]. split; [reflexivity|].
  split; [exact team_board_list_ids|]. split; [reflexivity|].
  exact (normalised_snapshot_figures Iso.fromisoformat (clock_from march_10)
           team_board uneven_cards [done; to_do; doing] 0%nat
           eq_refl eq_refl eq_refl team_board_list_ids).
Defined.

(** A board of three lists without a card. *)
Lemma empty_board_risk_three_lists :
  board_is_empty empty_board = false
  /\ board_error empty_board = None
  /\ get (board_cards empty_board) [] = []
  /\ exists r,
       fst (analyze_sprint_data Iso.fromisoformat (clock_from march_10)
              empty_board 0%nat)
       = Results r
       /\ sm_completion_rate (ar_sprint_metrics r) = 0
       /\ map (fun x => (risk_category x, risk_severity x)) (ar_risks r)
          = [("completion_rate", "high")]
       /\ map (fun x => (rec_category x, rec_priority x))
              (ar_recommendations r)
          = [("completion_rate", "high")].
Proof.
  split; [reflexivity|]. split; [reflexivity|]. split; [reflexivity|].
  exact (empty_board_risk Iso.fromisoformat (clock_from march_10)
           empty_board 0%nat eq_refl eq_refl eq_refl).
Defined.

Lemma report_template_well_formed : Forall well_formed report_template.
Proof. repeat constructor. Qed.

Lemma report_values_without_braces :
  Forall (fun kv => has_char "}" (fst kv) = false
                    /\ has_char "{" (snd kv) = false) report_values.
Proof. repeat constructor. Qed.

(** A template with three placeholders, filled with the values of two of
    them. *)
Lemma template_filled_report :
  one_file (template_of report_template) "templates/report_template.md"
  = inl (template_of report_template)
  /\ Forall well_formed report_template
  /\ Forall (fun kv => has_char "}" (fst kv) = false
                       /\ has_char "{" (snd kv) = false) report_values
  /\ template_of report_template
     = "# Sprint report: {sprint_name} ({team_name}), health: {health}"
  /\ Formatting.fill_report_template
       (one_file (template_of report_template))
       "templates/report_template.md" report_values
     = "# Sprint report: Sprint 12 (Core), health: {health}".
Proof.
  split; [reflexivity|]. split; [exact report_template_well_formed|].
  split; [exact report_values_without_braces|]. split; [reflexivity|].
  exact (template_filled (one_file (template_of report_template))
           "templates/report_template.md" report_template report_values
           eq_refl report_template_well_formed
           report_values_without_braces).
Defined.

(** A run of the fetcher on the data of [team_board]. *)
Lemma fetch_success_team_board :
  full_env "TRELLO_API_KEY" = Some "key"
  /\ full_env "TRELLO_API_TOKEN" = Some "token"
  /\ full_env "TRELLO_BOARD_ID" = Some "board"
  /\ fetched_snapshot "board" uneven_cards [done; to_do; doing]
       [ann; bob; cyd] 1710072000
     = team_board
  /\ exists enriched,
       TrelloTools._run full_env [] (returning uneven_cards)
         (returning [done; to_do; doing]) (returning [ann; bob; cyd])
         1710072000
       = fetched_snapshot "board" enriched [done; to_do; doing]
           [ann; bob; cyd] 1710072000
       /\ Forall2
            (fun c e =>
               card_id e = card_id c /\ card_idList e = card_idList c
               /\ card_actions e = card_actions c
               /\ forall member_map,
                    let p :=
                      _process_card c
                        (dict_of list_id (fun l => l) [done; to_do; doing])
                        member_map in
                    card_listName e = card_listName p
                    /\ card_comments e = card_comments p)
            uneven_cards enriched
       /\ process_trello_data
            (TrelloTools._run full_env [] (returning uneven_cards)
               (returning [done; to_do; doing]) (returning [ann; bob; cyd])
               1710072000)
          = process_trello_data
              (fetched_snapshot "board" uneven_cards [done; to_do; doing]
                 [ann; bob; cyd] 1710072000).
Proof.
  split; [reflexivity|]. split; [reflexivity|]. split; [reflexivity|].
  split; [reflexivity|].
  refine (fetch_success full_env [] (returning uneven_cards)
            (returning [done; to_do; doing]) (returning [ann; bob; cyd])
            1710072000 "key" "token" "board" uneven_cards
            [done; to_do; doing] [ann; bob; cyd]
            eq_refl eq_refl eq_refl _ _ _ eq_refl eq_refl eq_refl);
    discriminate.
Defined.

(** A run of the fetcher in which the lists cannot be fetched. *)
Lemma fetch_failure_time_out :
  board_error
    (TrelloTools._run full_env [] (returning uneven_cards) timing_out
       (returning [ann; bob; cyd]) 1710072000)
  = Some "Failed to fetch list data from Trello: timeout"
  /\ TrelloTools._run full_env [] (returning uneven_cards) timing_out
       (returning [ann; bob; cyd]) 1710072000
     = error_board "Failed to fetch list data from Trello: timeout"
  /\ process_trello_data
       (TrelloTools._run full_env [] (returning uneven_cards) timing_out
          (returning [ann; bob; cyd]) 1710072000)
     = error_board "Failed to fetch list data from Trello: timeout"
  /\ ((truthy_opt (full_env "TRELLO_API_KEY")
       && truthy_opt (full_env "TRELLO_API_TOKEN")
       && truthy_opt (full_env "TRELLO_BOARD_ID") = false
       /\ "Failed to fetch list data from Trello: timeout"
          = get (dict_get (get (dict_get [] "ERROR_MESSAGES") [])
                   "MISSING_API_CREDENTIALS")
                "Missing API credentials or board ID")
      \/ exists api_key api_token board_id,
           full_env "TRELLO_API_KEY" = Some api_key
           /\ full_env "TRELLO_API_TOKEN" = Some api_token
           /\ full_env "TRELLO_BOARD_ID" = Some board_id
           /\ (returning uneven_cards board_id api_key api_token
               = TrelloTools.ApiError
                   "Failed to fetch list data from Trello: timeout"
               \/ @timing_out (list trello_list) board_id api_key api_token
                  = TrelloTools.ApiError
                      "Failed to fetch list data from Trello: timeout"
               \/ returning [ann; bob; cyd] board_id api_key api_token
                  = TrelloTools.ApiError
                      "Failed to fetch list data from Trello: timeout"
               \/ exists text,
                    "Failed to fetch list data from Trello: timeout"
                    = "Unexpected error fetching board data: " ++ text
                    /\ (returning uneven_cards board_id api_key api_token
                        = TrelloTools.OtherError text
                        \/ @timing_out (list trello_list) board_id api_key
                             api_token
                           = TrelloTools.OtherError text
                        \/ returning [ann; bob; cyd] board_id api_key
                             api_token
                           = TrelloTools.OtherError text))).
Proof.
  split; [reflexivity|].
  exact (fetch_failure full_env [] (returning uneven_cards) timing_out
           (returning [ann; bob; cyd]) 1710072000
           "Failed to fetch list data from Trello: timeout" eq_refl).
Defined.

(** The overdue cards of the board model on 2024-03-10: a due date written
    as Trello writes it, with "Z", makes the property raise; the same date
    without time zone is listed. *)
Example overdue_cards_of_the_model :
  fst (Models.overdue_cards Iso.fromisoformat (clock_from march_10)
         (model_board [model_card "2024-03-09T12:00:00.000Z"]) 0%nat)
  = None
  /\ fst (Models.overdue_cards Iso.fromisoformat (clock_from march_10)
            (model_board [model_card "2024-03-09T12:00:00"]) 0%nat)
     = Some [model_card "2024-03-09T12:00:00"]
  /\ Models.cards_by_member
       (model_board [model_card "2024-03-09T12:00:00"])
     = [("Ann", [model_card "2024-03-09T12:00:00"]);
        ("bob", [model_card "2024-03-09T12:00:00"])].
Proof. repeat split; vm_compute; reflexivity. Qed.

End Examples.
